(** * MCP code assistant: structural analyzer, pattern scanner and search

    A shallow embedding of [src/main.py] (class [MCP]): the methods
    [scan_project], [_read_file], [analyze_python_file], [search_code]
    and [find_bugs], together with the parts of the host libraries they
    rely on ([ast.walk], [ast.iter_child_nodes], the fragment of [re]
    that the rule table uses, [os.path.join] and the fragment of
    [fnmatch] that the default patterns use).

    Conventions.
    - A text is a [string]; each character stands for one code point in
      the range 0..255.
    - Python integers are [Z]; positions inside a text are [nat].
    - The host parser [ast.parse] is a parameter of the development (it is
      not part of the repository): see [Section Program]. *)

From Stdlib Require Import String Ascii List ZArith Arith Bool Lia.
From Stdlib Require Import DecimalString.
From Equations Require Import Equations.
Import ListNotations.

Open Scope string_scope.
Open Scope list_scope.

(* ------------------------------------------------------------------ *)
(** ** Syntax trees *)
(* ------------------------------------------------------------------ *)

Module Ast.

(** [ast.alias]: one imported name ([name.name]) with its optional
    [as] binding. *)
Record alias : Type := mk_alias
  { alias_name : string;
    alias_asname : option string }.

(** The node classes the analyzer distinguishes, and [Other] for every
    remaining class (statements such as [If], [Expr], [Return], the
    other expressions, [arguments], [arg], [alias], [Load], [Store],
    ...), kept with its class name and its child nodes in field order.

    - [Name]: [ctx] is the class of its context node ([Load], [Store] or
      [Del]), which is its only child node.

    - [ClassDef]: [bases] holds the child nodes of the fields before
      [body] (bases, keywords), [decorator_list] those after it.
    - [FunctionDef], [AsyncFunctionDef]: [args] is the list of names
      [[arg.arg for arg in node.args.args]]; [children] is the sequence
      [ast.iter_child_nodes(node)] (the [arguments] node, then the body
      statements, decorators, annotation). *)
#[warnings="-register-all"]
Inductive node : Type :=
| Module (body : list node)
| Import (lineno : Z) (names : list alias)
| ImportFrom (lineno : Z) (module : option string) (names : list alias)
| ClassDef (lineno : Z) (name : string)
           (bases : list node) (body : list node) (decorator_list : list node)
| FunctionDef (lineno : Z) (name : string) (args : list string)
              (children : list node)
| AsyncFunctionDef (lineno : Z) (name : string) (args : list string)
                   (children : list node)
| Assign (lineno : Z) (targets : list node) (value : node)
| Name (id : string) (ctx : string)
| Other (cls : string) (children : list node).

(** [type(node).__name__] *)
Definition class_name (n : node) : string :=
  match n with
  | Module _ => "Module"
  | Import _ _ => "Import"
  | ImportFrom _ _ _ => "ImportFrom"
  | ClassDef _ _ _ _ _ => "ClassDef"
  | FunctionDef _ _ _ _ => "FunctionDef"
  | AsyncFunctionDef _ _ _ _ => "AsyncFunctionDef"
  | Assign _ _ _ => "Assign"
  | Name _ _ => "Name"
  | Other cls _ => cls
  end.

(** [ast.iter_child_nodes(node)]: the direct child nodes, in field order. *)
Definition iter_child_nodes (n : node) : list node :=
  match n with
  | Module body => body
  | Import _ names => map (fun _ => Other "alias" []) names
  | ImportFrom _ _ names => map (fun _ => Other "alias" []) names
  | ClassDef _ _ bases body decorator_list => bases ++ body ++ decorator_list
  | FunctionDef _ _ _ children => children
  | AsyncFunctionDef _ _ _ children => children
  | Assign _ targets value => targets ++ [value]
  | Name _ ctx => [Other ctx []]
  | Other _ children => children
  end.

(** Number of nodes of a tree; the measure under which the work list of
    [walk] shrinks. *)
Fixpoint size (n : node) : nat :=
  let fix sizes (l : list node) : nat :=
    match l with
    | [] => 0
    | x :: r => size x + sizes r
    end in
  match n with
  | Module body => S (sizes body)
  | Import _ names => S (length names)
  | ImportFrom _ _ names => S (length names)
  | ClassDef _ _ bases body decorator_list =>
      S (sizes bases + sizes body + sizes decorator_list)
  | FunctionDef _ _ _ children => S (sizes children)
  | AsyncFunctionDef _ _ _ children => S (sizes children)
  | Assign _ targets value => S (sizes targets + size value)
  | Name _ _ => 2
  | Other _ children => S (sizes children)
  end.

Definition sizes (l : list node) : nat :=
  fold_right (fun x acc => size x + acc) 0 l.

Lemma sizes_app (l r : list node) : sizes (l ++ r) = sizes l + sizes r.
Proof.
  induction l as [|x l IH]; simpl; [reflexivity|].
  rewrite IH. lia.
Qed.

Lemma sizes_alias {A : Type} (names : list A) :
  sizes (map (fun _ => Other "alias" []) names) = length names.
Proof.
  induction names as [|a names IH]; simpl; [reflexivity|].
  rewrite IH. reflexivity.
Qed.

Lemma size_eq (n : node) :
  size n =
  match n with
  | Module body => S (sizes body)
  | Import _ names => S (length names)
  | ImportFrom _ _ names => S (length names)
  | ClassDef _ _ bases body decorator_list =>
      S (sizes bases + sizes body + sizes decorator_list)
  | FunctionDef _ _ _ children => S (sizes children)
  | AsyncFunctionDef _ _ _ children => S (sizes children)
  | Assign _ targets value => S (sizes targets + size value)
  | Name _ _ => 2
  | Other _ children => S (sizes children)
  end.
Proof. destruct n; reflexivity. Qed.

Lemma size_children (n : node) : size n = S (sizes (iter_child_nodes n)).
Proof.
  rewrite size_eq.
  destruct n; cbn [iter_child_nodes];
    rewrite ?sizes_alias, ?sizes_app; cbn [sizes fold_right];
    try lia; simpl; lia.
Qed.

(** The loop of [ast.walk]:
<<
    todo = deque([node])
    while todo:
        node = todo.popleft()
        todo.extend(iter_child_nodes(node))
        yield node
>>
    [bfs todo] is the sequence of nodes yielded from the work list
    [todo]. *)
Equations? bfs (todo : list node) : list node by wf (sizes todo) lt :=
  bfs [] := [];
  bfs (n :: rest) := n :: bfs (rest ++ iter_child_nodes n).
Proof.
  rewrite sizes_app, (size_children n). simpl. lia.
Qed.

(** [ast.walk(node)] *)
Definition walk (tree : node) : list node := bfs [tree].

(** [subnode n t]: [n] is [t] or a descendant of [t]. *)
Inductive subnode (n : node) : node -> Prop :=
| subnode_self : subnode n n
| subnode_child (c t : node) :
    In c (iter_child_nodes t) -> subnode n c -> subnode n t.

(** The statements of a module, [tree.body]. *)
Definition module_body (tree : node) : list node :=
  match tree with
  | Module body => body
  | _ => []
  end.

End Ast.

(* ------------------------------------------------------------------ *)
(** ** The fragment of the host regular-expression library in use *)
(* ------------------------------------------------------------------ *)

(** [re.finditer] for the pattern syntax that occurs in [main.py]:
    literal characters, backslash escapes, [.], [\s], character sets
    [[...]] and [[^...]], and the greedy repeats [*], [+], [?] applied to
    a single-character item.  A pattern using anything else (groups,
    alternation, anchors, counted or lazy repeats, ranges in sets, named
    escapes other than [\s \n \t \r]) or a malformed pattern is outside
    the fragment: [compile] answers [None] and nothing is said about it. *)
Module Re.

Definition newline : ascii := "010"%char.

(** Characters matched by [\s] in a text pattern, among code points
    below 256: 9..13, 28..32, 133 and 160. *)
Definition is_space (c : ascii) : bool :=
  let n := nat_of_ascii c in
  (((9 <=? n) && (n <=? 13)) || ((28 <=? n) && (n <=? 32))
   || (n =? 133) || (n =? 160))%nat.

Definition is_ascii_letter (c : ascii) : bool :=
  let n := nat_of_ascii c in
  (((65 <=? n) && (n <=? 90)) || ((97 <=? n) && (n <=? 122)))%nat.

Definition is_digit (c : ascii) : bool :=
  let n := nat_of_ascii c in ((48 <=? n) && (n <=? 57))%nat.

Inductive member : Type :=
| MChar (c : ascii)
| MSpace.

Inductive atom : Type :=
| Lit (c : ascii)
| Dot
| Space
| CharSet (negate : bool) (members : list member).

Inductive quant : Type := One | Star | Plus | Opt.

Definition regex : Type := list (atom * quant).

(** *** Reading a pattern *)

Inductive mode : Type :=
| Normal
| Escape
| SetStart
| InSet (negate : bool) (members : list member)
| SetEscape (negate : bool) (members : list member).

(** [items] is kept in reverse; [repeatable] tells whether the last item
    may still take a repeat. *)
Record pstate : Type := mk_pstate
  { items : list (atom * quant);
    repeatable : bool;
    pmode : mode }.

Definition push (a : atom) (st : pstate) : option pstate :=
  Some (mk_pstate ((a, One) :: items st) true Normal).

Definition repeat_last (q : quant) (st : pstate) : option pstate :=
  match items st, repeatable st with
  | (a, One) :: rest, true => Some (mk_pstate ((a, q) :: rest) false Normal)
  | _, _ => None
  end.

(** The character denoted by a backslash escape other than [\s], inside
    or outside a set: [\n], [\t], [\r], and any character that is not
    an ASCII letter or digit for itself; [None] for the other escapes. *)
Definition escaped_char (c : ascii) : option ascii :=
  if Ascii.eqb c "n" then Some newline
  else if Ascii.eqb c "t" then Some "009"%char
  else if Ascii.eqb c "r" then Some "013"%char
  else if is_ascii_letter c || is_digit c then None
  else Some c.

Definition in_set (negate : bool) (members : list member) (st : pstate)
  : option pstate :=
  Some (mk_pstate (items st) (repeatable st) (InSet negate members)).

Definition step (st : pstate) (c : ascii) : option pstate :=
  match pmode st with
  | Normal =>
      if Ascii.eqb c "\" then Some (mk_pstate (items st) (repeatable st) Escape)
      else if Ascii.eqb c "[" then
        Some (mk_pstate (items st) (repeatable st) SetStart)
      else if Ascii.eqb c "." then push Dot st
      else if Ascii.eqb c "*" then repeat_last Star st
      else if Ascii.eqb c "+" then repeat_last Plus st
      else if Ascii.eqb c "?" then repeat_last Opt st
      else if Ascii.eqb c "(" || Ascii.eqb c ")" || Ascii.eqb c "|"
              || Ascii.eqb c "^" || Ascii.eqb c "$" || Ascii.eqb c "{"
      then None
      else push (Lit c) st
  | Escape =>
      if Ascii.eqb c "s" then push Space st
      else match escaped_char c with
           | Some d => push (Lit d) st
           | None => None
           end
  | SetStart =>
      if Ascii.eqb c "^" then in_set true [] st
      else if Ascii.eqb c "]" || Ascii.eqb c "-" || Ascii.eqb c "[" then None
      else if Ascii.eqb c "\" then
        Some (mk_pstate (items st) (repeatable st) (SetEscape false []))
      else in_set false [MChar c] st
  | InSet negate members =>
      if Ascii.eqb c "]" then
        match members with
        | [] => None
        | _ => push (CharSet negate (rev members)) st
        end
      else if Ascii.eqb c "-" || Ascii.eqb c "[" then None
      else if Ascii.eqb c "\" then
        Some (mk_pstate (items st) (repeatable st) (SetEscape negate members))
      else in_set negate (MChar c :: members) st
  | SetEscape negate members =>
      if Ascii.eqb c "s" then in_set negate (MSpace :: members) st
      else match escaped_char c with
           | Some d => in_set negate (MChar d :: members) st
           | None => None
           end
  end.

Fixpoint read (st : pstate) (p : list ascii) : option pstate :=
  match p with
  | [] => Some st
  | c :: p' =>
      match step st c with
      | Some st' => read st' p'
      | None => None
      end
  end.

(** [re.compile(pattern)], on the fragment. *)
Definition compile (pattern : string) : option regex :=
  match read (mk_pstate [] false Normal) (list_ascii_of_string pattern) with
  | Some st =>
      match pmode st with
      | Normal => Some (rev (items st))
      | _ => None
      end
  | None => None
  end.

(** *** Matching *)

Definition member_matches (m : member) (c : ascii) : bool :=
  match m with
  | MChar d => Ascii.eqb c d
  | MSpace => is_space c
  end.

Definition atom_matches (a : atom) (c : ascii) : bool :=
  match a with
  | Lit d => Ascii.eqb c d
  | Dot => negb (Ascii.eqb c newline)
  | Space => is_space c
  | CharSet negate members =>
      xorb negate (existsb (fun m => member_matches m c) members)
  end.

(** Length of the longest prefix of [s] whose characters all match [a]. *)
Fixpoint run (a : atom) (s : list ascii) : nat :=
  match s with
  | c :: s' => if atom_matches a c then S (run a s') else 0
  | [] => 0
  end.

(** Greedy repeat: try [k] repetitions, then [k-1], ... down to [lo]. *)
Fixpoint backtrack (k lo : nat) (try : nat -> option nat) : option nat :=
  if (k <? lo)%nat then None
  else match try k with
       | Some e => Some e
       | None =>
           match k with
           | 0 => None
           | S k' => backtrack k' lo try
           end
       end.

(** [match_items r s consumed accept]: match [r] at the head of [s],
    [consumed] characters into the attempt; the first success in
    backtracking order whose length satisfies [accept], as a length. *)
Fixpoint match_items (r : regex) (s : list ascii) (consumed : nat)
         (accept : nat -> bool) : option nat :=
  match r with
  | [] => if accept consumed then Some consumed else None
  | (a, One) :: rest =>
      match s with
      | c :: s' =>
          if atom_matches a c then match_items rest s' (S consumed) accept
          else None
      | [] => None
      end
  | (a, Star) :: rest =>
      backtrack (run a s) 0
        (fun k => match_items rest (skipn k s) (consumed + k) accept)
  | (a, Plus) :: rest =>
      backtrack (run a s) 1
        (fun k => match_items rest (skipn k s) (consumed + k) accept)
  | (a, Opt) :: rest =>
      backtrack (Nat.min 1 (run a s)) 0
        (fun k => match_items rest (skipn k s) (consumed + k) accept)
  end.

(** A match object: [m.start()] and [m.end()]. *)
Record re_match : Type := mk_match
  { m_start : nat;
    m_end : nat }.

(** [m.group(0)] *)
Definition group0 (content : string) (m : re_match) : string :=
  substring (m_start m) (m_end m - m_start m) content.

(** The scanner behind [finditer]: [s] is the text from position [pos]
    on; [skip] characters still belong to the previous match.  A search
    starts where the previous match ended; after an empty match the
    next one at the same position has to be non-empty; a failed attempt
    moves one character to the right, up to the end of the text. *)
Fixpoint scan (r : regex) (s : list ascii) (pos skip : nat)
  : list re_match :=
  match skip with
  | S k =>
      match s with
      | _ :: s' => scan r s' (S pos) k
      | [] => []
      end
  | 0 =>
      match match_items r s 0 (fun _ => true) with
      | None =>
          match s with
          | _ :: s' => scan r s' (S pos) 0
          | [] => []
          end
      | Some 0 =>
          mk_match pos pos ::
          match match_items r s 0 (fun e => (0 <? e)%nat) with
          | None =>
              match s with
              | _ :: s' => scan r s' (S pos) 0
              | [] => []
              end
          | Some len =>
              mk_match pos (pos + len) ::
              match s with
              | _ :: s' => scan r s' (S pos) (len - 1)
              | [] => []
              end
          end
      | Some len =>
          mk_match pos (pos + len) ::
          match s with
          | _ :: s' => scan r s' (S pos) (len - 1)
          | [] => []
          end
      end
  end.

(** [list(re.finditer(pattern, content))], on the fragment. *)
Definition finditer (pattern content : string) : option (list re_match) :=
  match compile pattern with
  | Some r => Some (scan r (list_ascii_of_string content) 0 0)
  | None => None
  end.

End Re.

(* ------------------------------------------------------------------ *)
(** ** Values and exceptions of the host language *)
(* ------------------------------------------------------------------ *)

Definition nl : string := String Re.newline "".
Definition dquote : string := String "034"%char "".

(** Truth value of a string: [if s:]. *)
Definition truthy (s : string) : bool := negb (String.eqb s "").

(** [s.endswith(suffix)] *)
Definition endswith (s suffix : string) : bool :=
  (String.length suffix <=? String.length s)%nat
  && String.eqb
       (substring (String.length s - String.length suffix)
                  (String.length suffix) s)
       suffix.

(** [s.count(c)] for a single character [c]. *)
Fixpoint count (c : ascii) (s : string) : nat :=
  match s with
  | EmptyString => 0
  | String d s' => (if Ascii.eqb d c then 1 else 0) + count c s'
  end.

(** [s[lo:hi]] for bounds with [0 <= lo]. *)
Definition slice (s : string) (lo hi : Z) : string :=
  substring (Z.to_nat lo) (Z.to_nat (hi - lo)) s.

(** [str(i)] for an integer, and for [None]. *)
Definition str_int (i : Z) : string := NilZero.string_of_int (Z.to_int i).

Definition str_opt_int (i : option Z) : string :=
  match i with
  | Some z => str_int z
  | None => "None"
  end.

(** A raised exception other than [SyntaxError]: its class and [str(e)]. *)
Record exn : Type := Exn
  { exn_class : string;
    str_exn : string }.

Definition AttributeError (cls attr : string) : exn :=
  Exn "AttributeError"
      ("'" ++ cls ++ "' object has no attribute '" ++ attr ++ "'")%string.

Definition KeyError (key : string) : exn :=
  Exn "KeyError" ("'" ++ key ++ "'")%string.

(** Raised in the model where [re] is handed a pattern that it rejects
    or that lies outside [Re]'s fragment. *)
Definition ReError (pattern : string) : exn := Exn "re.error" pattern.

(** What [ast.parse(content)] does: return a tree, raise [SyntaxError]
    (with [e.lineno], possibly [None], and [e.msg]), or raise another
    exception. *)
Inductive parse_outcome : Type :=
| ParseOk (tree : Ast.node)
| ParseSyntaxError (lineno : option Z) (msg : string)
| ParseRaises (e : exn).

(** Sequencing of fallible steps. *)
Definition try_bind {A B : Type} (c : exn + A) (k : A -> exn + B)
  : exn + B :=
  match c with
  | inl e => inl e
  | inr x => k x
  end.

(** [for x in l: acc = body(x, acc)], stopping at the first raise. *)
Fixpoint try_fold {A S : Type} (body : A -> S -> exn + S) (l : list A)
         (acc : S) : exn + S :=
  match l with
  | [] => inr acc
  | x :: l' => try_bind (body x acc) (try_fold body l')
  end.

(* ------------------------------------------------------------------ *)
(** ** The data of [MCP] *)
(* ------------------------------------------------------------------ *)

(** One value of [self.files]. *)
Record file_entry : Type := mk_file_entry
  { fe_path : string;
    rel_path : string;
    fe_type : string;
    fe_size : Z }.

(** The object: [self.files] is a dictionary, kept in insertion order. *)
Record mcp : Type := mk_mcp
  { project_path : string;
    files : list (string * file_entry) }.

Definition keys (self : mcp) : list string := map fst (files self).

(** [key in self.files] *)
Definition has_key (self : mcp) (key : string) : bool :=
  existsb (String.eqb key) (keys self).

(** [self.files[key]] *)
Definition getitem (self : mcp) (key : string) : exn + file_entry :=
  match find (fun kv => String.eqb key (fst kv)) (files self) with
  | Some kv => inr (snd kv)
  | None => inl (KeyError key)
  end.

(** The dictionaries built by [analyze_python_file]. *)
Record function_info : Type := mk_function_info
  { fn_name : string;
    fn_line : Z;
    fn_args : list string }.

Record class_info : Type := mk_class_info
  { ci_name : string;
    ci_methods : list function_info;
    ci_line : Z }.

Record variable_info : Type := mk_variable_info
  { vi_name : string;
    vi_line : Z }.

Record analysis : Type := mk_analysis
  { imports : list string;
    classes : list class_info;
    functions : list function_info;
    variables : list variable_info;
    error : option string }.

(** The return value of [analyze_python_file]: the empty dictionary, or
    the [analysis] dictionary. *)
Inductive analysis_result : Type :=
| EmptyDict
| Analysis (a : analysis).

(** [analysis.get('error')] is present. *)
Definition error_set (r : analysis_result) : Prop :=
  match r with
  | EmptyDict => False
  | Analysis a => error a <> None
  end.

(** The dictionaries built by [find_bugs] and [search_code]. *)
Record finding : Type := mk_finding
  { f_file : string;
    f_line : option Z;
    f_type : string;
    f_message : string }.

Record search_match : Type := mk_search_match
  { sm_match : string;
    sm_line : Z;
    sm_context : string }.

Record search_result : Type := mk_search_result
  { sr_file : string;
    sr_matches : list search_match }.

(* ------------------------------------------------------------------ *)
(** ** The methods of [MCP] *)
(* ------------------------------------------------------------------ *)

(** Steps of the analysis loop: they update the [analysis] dictionary in
    place and may raise; an update made before a raise stays. *)
Module Step.

Definition M (A : Type) : Type := analysis -> analysis * (exn + A).

Definition ret {A : Type} (x : A) : M A := fun a => (a, inr x).

Definition raise {A : Type} (e : exn) : M A := fun a => (a, inl e).

Definition bind {A B : Type} (c : M A) (k : A -> M B) : M B :=
  fun a =>
    match c a with
    | (a', inr x) => k x a'
    | (a', inl e) => (a', inl e)
    end.

Definition lift {A : Type} (r : exn + A) : M A := fun a => (a, r).

(** [for x in l: body(x)] *)
Fixpoint for_each {A : Type} (body : A -> M unit) (l : list A) : M unit :=
  match l with
  | [] => ret tt
  | x :: l' => bind (body x) (fun _ => for_each body l')
  end.

End Step.

Declare Scope step_scope.
Delimit Scope step_scope with step.
Notation "x <- c ;; k" := (Step.bind c (fun x => k))
  (at level 61, c at next level, right associativity) : step_scope.
Notation "c ;; k" := (Step.bind c (fun _ => k))
  (at level 61, right associativity) : step_scope.

Definition is_ClassDef (n : Ast.node) : bool :=
  match n with Ast.ClassDef _ _ _ _ _ => true | _ => false end.

Definition is_FunctionDef (n : Ast.node) : bool :=
  match n with Ast.FunctionDef _ _ _ _ => true | _ => false end.

Definition is_Assign (n : Ast.node) : bool :=
  match n with Ast.Assign _ _ _ => true | _ => false end.

(** [node.parent].  The nodes built by [ast.parse] have no attribute
    [parent], and [main.py] never assigns one: the lookup raises
    [AttributeError]. *)
Definition getattr_parent (n : Ast.node) : exn + Ast.node :=
  inl (AttributeError (Ast.class_name n) "parent").

Definition analysis0 : analysis := mk_analysis [] [] [] [] None.

Definition append_import (s : string) : Step.M unit := fun a =>
  (mk_analysis (imports a ++ [s]) (classes a) (functions a) (variables a)
               (error a), inr tt).

Definition append_class (c : class_info) : Step.M unit := fun a =>
  (mk_analysis (imports a) (classes a ++ [c]) (functions a) (variables a)
               (error a), inr tt).

Definition append_function (f : function_info) : Step.M unit := fun a =>
  (mk_analysis (imports a) (classes a) (functions a ++ [f]) (variables a)
               (error a), inr tt).

Definition append_variable (v : variable_info) : Step.M unit := fun a =>
  (mk_analysis (imports a) (classes a) (functions a) (variables a ++ [v])
               (error a), inr tt).

(** [analysis['error'] = text] *)
Definition set_error (text : string) (a : analysis) : analysis :=
  mk_analysis (imports a) (classes a) (functions a) (variables a) (Some text).

(** The inner loop over a class body (lines 97-103):
    [class_info['methods']] after it. *)
Definition class_methods (body : list Ast.node) : list function_info :=
  fold_left
    (fun methods item =>
       match item with
       | Ast.FunctionDef lineno name args _ =>
           methods ++ [mk_function_info name lineno args]
       | _ => methods
       end)
    body [].

Section Program.

(** The host parser, [ast.parse]. *)
Variable ast_parse : string -> parse_outcome.

(** Comparison [a == b] of two node objects (identity of objects, which
    a tree value does not determine). *)
Variable same_object : Ast.node -> Ast.node -> bool.

(** The file system as [open(path, 'r', encoding='utf-8').read()] sees
    it: the text of the file, or [None] when opening or reading raises. *)
Variable fs : string -> option string.

(** [MCP._read_file] (lines 54-61); the message printed on failure is
    not modelled. *)
Definition _read_file (file_path : string) : string :=
  match fs file_path with
  | Some content => content
  | None => ""
  end.

Open Scope step_scope.

(** The body of the loop [for node in ast.walk(tree)] (lines 80-122). *)
Definition visit (tree node : Ast.node) : Step.M unit :=
  match node with
  | Ast.Import _ names =>
      Step.for_each (fun name => append_import (Ast.alias_name name)) names
  | Ast.ImportFrom _ module names =>
      let module :=
        match module with
        | Some m => if truthy m then m else ""
        | None => ""
        end in
      Step.for_each
        (fun name =>
           append_import (module ++ "." ++ Ast.alias_name name)%string)
        names
  | Ast.ClassDef lineno name _ body _ =>
      append_class (mk_class_info name (class_methods body) lineno)
  | _ =>
      is_function <-
        (if is_FunctionDef node then
           parent <- Step.lift (getattr_parent node) ;;
           Step.ret (negb (is_ClassDef parent))
         else Step.ret false) ;;
      if is_function then
        match node with
        | Ast.FunctionDef lineno name args _ =>
            append_function (mk_function_info name lineno args)
        | _ => Step.ret tt
        end
      else
        is_global <-
          (if is_Assign node then
             parent <- Step.lift (getattr_parent node) ;;
             Step.ret (same_object parent tree)
           else Step.ret false) ;;
        if is_global then
          match node with
          | Ast.Assign lineno targets _ =>
              Step.for_each
                (fun target =>
                   match target with
                   | Ast.Name id _ =>
                       append_variable (mk_variable_info id lineno)
                   | _ => Step.ret tt
                   end)
                targets
          | _ => Step.ret tt
          end
        else Step.ret tt
  end.

Close Scope step_scope.

(** The [try] block with its two handlers (lines 76-127), from the
    initial dictionary. *)
Definition analyze_content (content : string) : analysis :=
  match ast_parse content with
  | ParseOk tree =>
      match Step.for_each (visit tree) (Ast.walk tree) analysis0 with
      | (a, inr _) => a
      | (a, inl e) => set_error (str_exn e) a
      end
  | ParseSyntaxError lineno msg =>
      set_error
        ("Syntax error at line " ++ str_opt_int lineno ++ ": " ++ msg)%string
        analysis0
  | ParseRaises e => set_error (str_exn e) analysis0
  end.

(** [MCP.analyze_python_file] (lines 63-129). *)
Definition analyze_python_file (file_path : string) : analysis_result :=
  let content := _read_file file_path in
  if negb (truthy content) then EmptyDict
  else Analysis (analyze_content content).

(** [content[:start].count('\n') + 1] (lines 141 and 198). *)
Definition line_number (content : string) (start : nat) : Z :=
  (Z.of_nat (count Re.newline (substring 0 start content)) + 1)%Z.

(** The dictionary appended for one match in [search_code]
    (lines 141-149). *)
Definition search_match_of (content : string) (m : Re.re_match)
  : search_match :=
  let context_start := Z.max 0 (Z.of_nat (Re.m_start m) - 50) in
  let context_end :=
    Z.min (Z.of_nat (String.length content)) (Z.of_nat (Re.m_end m) + 50) in
  mk_search_match (Re.group0 content m)
                  (line_number content (Re.m_start m))
                  (slice content context_start context_end).

(** [re.finditer(pattern, content)] as the program calls it; a pattern
    that [Re] does not read ends the call with [ReError]. *)
Definition re_finditer (pattern content : string)
  : exn + list Re.re_match :=
  match Re.finditer pattern content with
  | Some ms => inr ms
  | None => inl (ReError pattern)
  end.

(** [MCP.search_code] (lines 131-157). *)
Definition search_code (self : mcp) (pattern : string)
  : exn + list search_result :=
  try_fold
    (fun (item : string * file_entry) results =>
       let (file_path, file_info) := item in
       let content := _read_file file_path in
       try_bind (re_finditer pattern content) (fun matches =>
       let file_matches :=
         fold_left (fun acc m => acc ++ [search_match_of content m])
                   matches [] in
       match file_matches with
       | [] => inr results
       | _ => inr (results ++
                   [mk_search_result (rel_path file_info) file_matches])
       end))
    (files self) [].

(** The rule table of [find_bugs] (lines 186-194). *)
Definition patterns : list (string * string * string) :=
  [ ("except:", "Bare except clause", "Use specific exceptions");
    ("except Exception:", "Too broad exception handling",
     "Use more specific exceptions");
    ("\.get\([^,]+\)", "dict.get() without default",
     "Provide default value to avoid potential None");
    ("print\(.*\)", "Debug print statement", "Remove debug prints");
    (".*=\s*\[\]\s*\nfor.*:.*\.append", "Inefficient list building",
     "Use list comprehension");
    ("if\s+[^=!<>]+\s+==\s+True", "Unnecessary comparison to True",
     ("Use " ++ dquote ++ "if condition:" ++ dquote ++ " instead")%string);
    ("if\s+[^=!<>]+\s+==\s+False", "Unnecessary comparison to False",
     ("Use " ++ dquote ++ "if not condition:" ++ dquote ++ " instead")%string)
  ].

(** [files_to_check] (lines 163-166). *)
Definition files_to_check (self : mcp) (file_path : option string)
  : list string :=
  match file_path with
  | Some p =>
      if truthy p then (if has_key self p then [p] else [])
      else filter (fun f => endswith f ".py") (keys self)
  | None => filter (fun f => endswith f ".py") (keys self)
  end.

(** The heuristic rules run over one text (lines 196-204). *)
Definition scan_patterns (self : mcp) (file content : string)
           (bugs : list finding) : exn + list finding :=
  try_fold
    (fun (rule : string * string * string) bugs =>
       let '(pattern, bug_type, suggestion) := rule in
       try_bind (re_finditer pattern content) (fun matches =>
       try_fold
         (fun m bugs =>
            let line_number := line_number content (Re.m_start m) in
            try_bind (getitem self file) (fun entry =>
            inr (bugs ++ [mk_finding (rel_path entry) (Some line_number)
                                     bug_type suggestion])))
         matches bugs))
    patterns bugs.

(** The body of the loop [for file in files_to_check] (lines 169-204). *)
Definition check_file (self : mcp) (file : string) (bugs : list finding)
  : exn + list finding :=
  let content := _read_file file in
  if negb (truthy content) then inr bugs
  else
    match ast_parse content with
    | ParseSyntaxError lineno msg =>
        try_bind (getitem self file) (fun entry =>
        inr (bugs ++ [mk_finding (rel_path entry) lineno "Syntax Error" msg]))
    | ParseRaises e => inl e
    | ParseOk _ => scan_patterns self file content bugs
    end.

(** [MCP.find_bugs] (lines 159-206). *)
Definition find_bugs (self : mcp) (file_path : option string)
  : exn + list finding :=
  try_fold (check_file self) (files_to_check self file_path) [].

End Program.

(** The nodes at which the loop body raises: the two branches that
    look up [node.parent]. *)
Definition raising (n : Ast.node) : bool := is_FunctionDef n || is_Assign n.

(** The strings one node contributes to [analysis['imports']]. *)
Definition import_names (n : Ast.node) : list string :=
  match n with
  | Ast.Import _ names => map Ast.alias_name names
  | Ast.ImportFrom _ (Some x) names =>
      map (fun y => (x ++ "." ++ Ast.alias_name y)%string) names
  | Ast.ImportFrom _ None names =>
      map (fun y => ("." ++ Ast.alias_name y)%string) names
  | _ => []
  end.

(** The function definitions among the statements of a body, as
    signatures. *)
Definition function_info_of (n : Ast.node) : option function_info :=
  match n with
  | Ast.FunctionDef lineno name args _ =>
      Some (mk_function_info name lineno args)
  | _ => None
  end.

Definition function_defs (body : list Ast.node) : list function_info :=
  flat_map (fun item =>
              match function_info_of item with
              | Some f => [f]
              | None => []
              end) body.

(** The entry one node contributes to [analysis['classes']]. *)
Definition class_decls (n : Ast.node) : list class_info :=
  match n with
  | Ast.ClassDef lineno name _ body _ =>
      [mk_class_info name (function_defs body) lineno]
  | _ => []
  end.

(** The dictionary after the loop has visited the nodes [seen] without
    a raise. *)
Definition collected (seen : list Ast.node) : analysis :=
  mk_analysis (flat_map import_names seen) (flat_map class_decls seen)
              [] [] None.

(** The loop [for node in ast.walk(tree)] ends by a raise. *)
Definition extraction_raises (same_object : Ast.node -> Ast.node -> bool)
           (tree : Ast.node) : Prop :=
  exists a e,
    Step.for_each (visit same_object tree) (Ast.walk tree) analysis0
    = (a, inl e).

(** The outcomes of [ast.parse] that are failures. *)
Definition parse_failed (o : parse_outcome) : Prop :=
  match o with
  | ParseOk _ => False
  | _ => True
  end.

(** The lists of a result, read as [main] does with
    [analysis.get(key, [])]. *)
Definition result_functions (r : analysis_result) : list function_info :=
  match r with
  | EmptyDict => []
  | Analysis a => functions a
  end.

Definition result_classes (r : analysis_result) : list class_info :=
  match r with
  | EmptyDict => []
  | Analysis a => classes a
  end.

Definition result_variables (r : analysis_result) : list variable_info :=
  match r with
  | EmptyDict => []
  | Analysis a => variables a
  end.

Definition result_imports (r : analysis_result) : list string :=
  match r with
  | EmptyDict => []
  | Analysis a => imports a
  end.

(** Matches listed in text order from position [from]: each match ends
    no earlier than it starts, and starts no earlier than the previous
    one ends. *)
Fixpoint in_text_order (from : nat) (ms : list Re.re_match) : Prop :=
  match ms with
  | [] => True
  | m :: ms' =>
      from <= Re.m_start m /\ Re.m_start m <= Re.m_end m
      /\ in_text_order (Re.m_end m) ms'
  end.

(** The matches of one pattern in a text, none where [re] has no
    answer. *)
Definition matches_of (pattern content : string) : list Re.re_match :=
  match Re.finditer pattern content with
  | Some ms => ms
  | None => []
  end.

(** The findings of one rule, one per match, in match order. *)
Definition findings_of_rule (rel content : string)
           (rule : string * string * string) : list finding :=
  let '(pattern, bug_type, suggestion) := rule in
  map (fun m =>
         mk_finding rel
           (Some (Z.of_nat (count Re.newline
                                  (substring 0 (Re.m_start m) content))
                  + 1)%Z)
           bug_type suggestion)
      (matches_of pattern content).

(** The findings of a list of rules: rule after rule. *)
Definition findings_of_rules (rel content : string)
           (rules : list (string * string * string)) : list finding :=
  flat_map (findings_of_rule rel content) rules.

(** A pattern made of literal characters only, and the test that a text
    starts with given characters. *)
Definition literal (l : list ascii) : Re.regex :=
  map (fun c => (Re.Lit c, Re.One)) l.

Fixpoint starts_with (l s : list ascii) : bool :=
  match l, s with
  | [], _ => true
  | c :: l', d :: s' => Ascii.eqb d c && starts_with l' s'
  | _ :: _, [] => false
  end.

(** No proper shift of [l] agrees with [l] on their overlap: two
    occurrences of [l] in a text never overlap. *)
Definition overlap_free (l : list ascii) : bool :=
  forallb (fun j => negb (starts_with (skipn j l) l))
          (seq 1 (length l - 1)).

(** *** Sample inputs

    Texts with the outcome of [ast.parse] on them.  [sample_parse]
    answers as the host parser does on these texts (and answers a syntax
    error on any other text, where it is not meant to be used). *)
Module Sample.

(** [x = 1] *)
Definition assign_text : string := "x = 1" ++ nl.

Definition assign_tree : Ast.node :=
  Ast.Module
    [Ast.Assign 1 [Ast.Name "x" "Store"] (Ast.Other "Constant" [])].

(** Imports and a class with one method. *)
Definition class_text : string :=
  "import os" ++ nl ++
  "from a import b" ++ nl ++
  "from . import y" ++ nl ++
  "class C:" ++ nl ++
  "    def f(self):" ++ nl ++
  "        pass" ++ nl.

Definition class_tree : Ast.node :=
  Ast.Module
    [Ast.Import 1 [Ast.mk_alias "os" None];
     Ast.ImportFrom 2 (Some "a") [Ast.mk_alias "b" None];
     Ast.ImportFrom 3 None [Ast.mk_alias "y" None];
     Ast.ClassDef 4 "C" []
       [Ast.FunctionDef 5 "f" ["self"]
          [Ast.Other "arguments" [Ast.Other "arg" []];
           Ast.Other "Pass" []]]
       []].

(** A statement that is not valid syntax. *)
Definition broken_text : string := "x = = 1" ++ nl.

(** A print call followed by a bare except clause on line 4. *)
Definition print_text : string :=
  "print(1)" ++ nl ++
  "try:" ++ nl ++
  "    pass" ++ nl ++
  "except:" ++ nl ++
  "    pass" ++ nl.

Definition try_tree : list Ast.node :=
  [Ast.Other "Try"
     [Ast.Other "Pass" [];
      Ast.Other "ExceptHandler" [Ast.Other "Pass" []]]].

Definition print_tree : Ast.node :=
  Ast.Module
    (Ast.Other "Expr"
       [Ast.Other "Call"
          [Ast.Name "print" "Load"; Ast.Other "Constant" []]]
     :: try_tree).

(** A bare except clause on line 3. *)
Definition except_text : string :=
  "try:" ++ nl ++
  "    pass" ++ nl ++
  "except:" ++ nl ++
  "    pass" ++ nl.

Definition except_tree : Ast.node := Ast.Module try_tree.

(** The text of the search example. *)
Definition abc_text : string := "abc" ++ nl ++ "def" ++ nl ++ "abc".

Definition sample_parse (content : string) : parse_outcome :=
  if String.eqb content "" then ParseOk (Ast.Module [])
  else if String.eqb content assign_text then ParseOk assign_tree
  else if String.eqb content class_text then ParseOk class_tree
  else if String.eqb content print_text then ParseOk print_tree
  else if String.eqb content except_text then ParseOk except_tree
  else ParseSyntaxError (Some 1%Z) "invalid syntax".

Definition same_object (a b : Ast.node) : bool := false.

(** A project with six indexed files, one of them unreadable. *)
Definition sample_fs (path : string) : option string :=
  if String.eqb path "/p/assign.py" then Some assign_text
  else if String.eqb path "/p/cls.py" then Some class_text
  else if String.eqb path "/p/broken.py" then Some broken_text
  else if String.eqb path "/p/print.py" then Some print_text
  else if String.eqb path "/p/except.py" then Some except_text
  else if String.eqb path "/p/abc.txt" then Some abc_text
  else None.

Definition entry (name type : string) (size : Z) : string * file_entry :=
  (("/p/" ++ name)%string,
   mk_file_entry ("/p/" ++ name) name type size).

Definition sample_mcp : mcp :=
  mk_mcp "/p"
    [entry "assign.py" "py" 6; entry "cls.py" "py" 81;
     entry "broken.py" "py" 8; entry "print.py" "py" 40;
     entry "except.py" "py" 31; entry "gone.py" "py" 0].

(** A project whose only file holds the text of the search example. *)
Definition abc_mcp : mcp := mk_mcp "/p" [entry "abc.txt" "txt" 11].

End Sample.

(** *** Further descriptions of results *)

(** The two messages a raise of the loop can leave in ['error']. *)
Definition function_message : string :=
  "'FunctionDef' object has no attribute 'parent'".

Definition assign_message : string :=
  "'Assign' object has no attribute 'parent'".

(** The entry one indexed file contributes to a search: none when the
    pattern has no match in its text. *)
Definition file_search (fs : string -> option string) (pattern : string)
           (item : string * file_entry) : list search_result :=
  let content := _read_file fs (fst item) in
  match map (search_match_of content) (matches_of pattern content) with
  | [] => []
  | file_matches => [mk_search_result (rel_path (snd item)) file_matches]
  end.

(** [self.files[file]['rel_path']], read without a raise. *)
Definition rel_path_of (self : mcp) (file : string) : string :=
  match getitem self file with
  | inr entry => rel_path entry
  | inl _ => ""
  end.

(** The findings one checked file contributes. *)
Definition file_findings (ast_parse : string -> parse_outcome)
           (fs : string -> option string) (self : mcp) (file : string)
  : list finding :=
  let content := _read_file fs file in
  if String.eqb content "" then []
  else
    match ast_parse content with
    | ParseOk _ =>
        findings_of_rules (rel_path_of self file) content patterns
    | ParseSyntaxError lineno msg =>
        [mk_finding (rel_path_of self file) lineno "Syntax Error" msg]
    | ParseRaises _ => []
    end.

(** The parser raises an exception other than [SyntaxError]. *)
Definition parser_raises (o : parse_outcome) : Prop :=
  match o with
  | ParseRaises _ => True
  | _ => False
  end.

(** The findings of a successful call, none for a raise. *)
Definition findings_or_none (r : exn + list finding) : list finding :=
  match r with
  | inr bugs => bugs
  | inl _ => []
  end.

(* ------------------------------------------------------------------ *)
(** ** The project indexer *)
(* ------------------------------------------------------------------ *)

(** [os.path.join(a, b)] on a POSIX host. *)
Definition path_join (a b : string) : string :=
  if String.prefix "/" b then b
  else if String.eqb a "" || endswith a "/" then (a ++ b)%string
  else (a ++ "/" ++ b)%string.

(** [s.split(os.sep)]: the pieces of [s] between separators, at least
    one piece. *)
Fixpoint split_sep_from (piece : string) (s : string) : list string :=
  match s with
  | EmptyString => [piece]
  | String c s' =>
      if Ascii.eqb c "/" then piece :: split_sep_from "" s'
      else split_sep_from (piece ++ String c "") s'
  end.

Definition split_sep (s : string) : list string := split_sep_from "" s.

(** [fnmatch.fnmatch(name, pattern)] on a POSIX host, for the patterns
    made of [*], [?] and literal characters; a pattern with a bracket is
    outside this fragment, and [fnmatch] answers [None] for it. *)
Module Fnmatch.

(** The whole of [name] matches [pat]: [*] stands for any run of
    characters, [?] for any one character. *)
Fixpoint glob (pat : list ascii) : list ascii -> bool :=
  match pat with
  | [] => fun name => match name with [] => true | _ :: _ => false end
  | c :: pat' =>
      if Ascii.eqb c "*" then
        fix star (name : list ascii) : bool :=
          glob pat' name
          || match name with
             | [] => false
             | _ :: name' => star name'
             end
      else if Ascii.eqb c "?" then
        fun name =>
          match name with
          | [] => false
          | _ :: name' => glob pat' name'
          end
      else
        fun name =>
          match name with
          | [] => false
          | d :: name' => Ascii.eqb d c && glob pat' name'
          end
  end.

Definition in_fragment (pat : string) : bool :=
  negb (existsb (Ascii.eqb "[") (list_ascii_of_string pat)).

Definition fnmatch (name pat : string) : option bool :=
  if in_fragment pat
  then Some (glob (list_ascii_of_string pat) (list_ascii_of_string name))
  else None.

End Fnmatch.

(** Raised in the model where [fnmatch] is handed a pattern outside
    [Fnmatch]'s fragment. *)
Definition FnmatchError (pattern : string) : exn := Exn "fnmatch" pattern.

(** [self.structure]: the dictionary [{'dirs': {...}, 'files': [...]}],
    [dirs] in insertion order. *)
#[warnings="-register-all"]
Inductive structure : Type :=
| Structure (dirs : list (string * structure)) (files : list string).

Definition empty_level : structure := Structure [] [].

(** [d[key] = value] on a dictionary kept in insertion order: an
    existing key keeps its place. *)
Fixpoint dict_set {V : Type} (key : string) (value : V)
         (d : list (string * V)) : list (string * V) :=
  match d with
  | [] => [(key, value)]
  | (k, v) :: d' =>
      if String.eqb k key then (k, value) :: d'
      else (k, v) :: dict_set key value d'
  end.

(** [if key not in d: d[key] = default], then the update [g] of
    [d[key]] in place. *)
Fixpoint dict_update {V : Type} (key : string) (g : V -> V) (default : V)
         (d : list (string * V)) : list (string * V) :=
  match d with
  | [] => [(key, g default)]
  | (k, v) :: d' =>
      if String.eqb k key then (k, g v) :: d'
      else (k, v) :: dict_update key g default d'
  end.

(** The walk down [parts] from a level (lines 32-36), creating the
    levels that are missing, and the update [f] of the level reached. *)
Fixpoint update_at (parts : list string) (f : structure -> structure)
         (s : structure) : structure :=
  match parts with
  | [] => f s
  | part :: parts' =>
      match s with
      | Structure dirs files =>
          Structure (dict_update part (update_at parts' f) empty_level dirs)
                    files
      end
  end.

(** [current_level['files'].append(file)] *)
Definition append_file (file : string) (s : structure) : structure :=
  match s with
  | Structure dirs files => Structure dirs (files ++ [file])
  end.

(** [self.files] and [self.structure] during a scan. *)
Record scan_state : Type := mk_scan_state
  { st_files : list (string * file_entry);
    st_structure : structure }.

Definition default_file_types : list string :=
  ["*.py"; "*.js"; "*.html"; "*.css"; "*.json"].

Section Indexer.

(** [os.walk(top)]: the triples [(root, dirs, files)] it yields. *)
Variable os_walk : string -> list (string * list string * list string).

(** [os.path.relpath(path, start)] *)
Variable relpath : string -> string -> string.

(** [os.path.splitext(name)] *)
Variable splitext : string -> string * string.

(** [os.path.getsize(path)], which raises for a path it cannot stat. *)
Variable getsize : string -> exn + Z.

(** The statements run for a file once a pattern matches it
    (lines 42-49); [parts] leads to [current_level]. *)
Definition index_file (root rel : string) (parts : list string)
           (file : string) (st : scan_state) : exn + scan_state :=
  let structure' := update_at parts (append_file file) (st_structure st) in
  let full_path := path_join root file in
  try_bind (getsize full_path) (fun size =>
  inr (mk_scan_state
         (dict_set full_path
            (mk_file_entry full_path
               (if negb (String.eqb rel ".") then path_join rel file
                else file)
               (slice (snd (splitext file)) 1
                      (Z.of_nat (String.length (snd (splitext file)))))
               size)
            (st_files st))
         structure')).

(** The loop [for pattern in file_types] with its [break]
    (lines 40-50). *)
Fixpoint match_patterns (file : string) (file_types : list string)
         (body : scan_state -> exn + scan_state) (st : scan_state)
  : exn + scan_state :=
  match file_types with
  | [] => inr st
  | pattern :: file_types' =>
      match Fnmatch.fnmatch file pattern with
      | Some true => body st
      | Some false => match_patterns file file_types' body st
      | None => inl (FnmatchError pattern)
      end
  end.

(** The body of the loop over [os.walk] (lines 27-50). *)
Definition scan_directory (project_path : string) (file_types : list string)
           (entry : string * list string * list string) (st : scan_state)
  : exn + scan_state :=
  let '(root, dirs, files) := entry in
  let rel := relpath root project_path in
  let parts := if String.eqb rel "." then [] else split_sep rel in
  let st := mk_scan_state (st_files st)
                          (update_at parts (fun level => level)
                                     (st_structure st)) in
  try_fold
    (fun file st =>
       match_patterns file file_types (index_file root rel parts file) st)
    files st.

(** [MCP.scan_project] (lines 18-52): the object and [self.structure]
    after the call; the message printed at the end is not modelled. *)
Definition scan_project (self : mcp) (file_types : option (list string))
  : exn + (mcp * structure) :=
  let file_types :=
    match file_types with
    | None => default_file_types
    | Some l => l
    end in
  try_bind
    (try_fold (scan_directory (project_path self) file_types)
              (os_walk (project_path self))
              (mk_scan_state [] empty_level))
    (fun st => inr (mk_mcp (project_path self) (st_files st),
                    st_structure st)).

End Indexer.

(** Some pattern of the list matches the name. *)
Definition matches_some (file_types : list string) (file : string) : bool :=
  existsb (fun pattern =>
             match Fnmatch.fnmatch file pattern with
             | Some true => true
             | _ => false
             end) file_types.

(** The number of file names listed in a structure, at all levels. *)
Fixpoint count_files (s : structure) : nat :=
  match s with
  | Structure dirs files =>
      (fix count_dirs (d : list (string * structure)) : nat :=
         match d with
         | [] => 0
         | (_, sub) :: d' => count_files sub + count_dirs d'
         end) dirs
      + length files
  end.

(** The value stored in [self.files] for the file [file] of the walked
    directory [root], once its size is known. *)
Definition indexed_entry (relpath : string -> string -> string)
           (splitext : string -> string * string)
           (project_path root file : string) (size : Z) : file_entry :=
  mk_file_entry
    (path_join root file)
    (if negb (String.eqb (relpath root project_path) ".")
     then path_join (relpath root project_path) file
     else file)
    (slice (snd (splitext file)) 1
           (Z.of_nat (String.length (snd (splitext file)))))
    size.

Definition count_dirs (d : list (string * structure)) : nat :=
  fold_right (fun kv acc => count_files (snd kv) + acc) 0 d.

(** The pairs of a directory and one of its files that a scan has to
    index, in the order of the walk. *)
Definition files_to_index (file_types : list string)
           (walk : list (string * list string * list string))
  : list (string * string) :=
  flat_map (fun entry : string * list string * list string =>
              let '(root, _, files) := entry in
              map (fun file => (root, file))
                  (filter (matches_some file_types) files))
           walk.

(** The list that [scan_project] takes for [file_types]. *)
Definition types_of (file_types : option (list string)) : list string :=
  match file_types with
  | None => default_file_types
  | Some l => l
  end.

(** What holds of the state of a scan once the pairs [done] have been
    indexed: the keys are distinct; every entry is the one built for a
    pair of [done], whose size was read; every pair of [done] has its
    key; the structure lists one name for each pair. *)
Definition scan_inv (relpath : string -> string -> string)
           (splitext : string -> string * string)
           (getsize : string -> exn + Z)
           (project_path : string) (done : list (string * string))
           (st : scan_state) : Prop :=
  NoDup (map fst (st_files st))
  /\ (forall key entry,
        In (key, entry) (st_files st) ->
        exists root file size,
          In (root, file) done /\ key = path_join root file
          /\ getsize key = inr size
          /\ entry = indexed_entry relpath splitext project_path
                                   root file size)
  /\ (forall root file,
        In (root, file) done ->
        In (path_join root file) (map fst (st_files st)))
  /\ count_files (st_structure st) = length done
  /\ length (st_files st) <= length done.

(** No item of the pattern accepts a newline character. *)
Definition rejects_newline (r : Re.regex) : Prop :=
  Forall (fun aq => Re.atom_matches (fst aq) Re.newline = false) r.

(** The pattern of the print rule, as read. *)
Definition print_regex : Re.regex :=
  literal (list_ascii_of_string "print(")
  ++ [(Re.Dot, Re.Star)] ++ literal (list_ascii_of_string ")").

(** *** More sample inputs *)
Module MoreSamples.

(** Imports and classes at two depths, no function and no assignment. *)
Definition nested_text : string :=
  "import os" ++ nl ++
  "class A:" ++ nl ++
  "    import sys" ++ nl ++
  "    class B:" ++ nl ++
  "        pass" ++ nl.

Definition nested_tree : Ast.node :=
  Ast.Module
    [Ast.Import 1 [Ast.mk_alias "os" None];
     Ast.ClassDef 2 "A" []
       [Ast.Import 3 [Ast.mk_alias "sys" None];
        Ast.ClassDef 4 "B" [] [Ast.Other "Pass" []] []]
       []].

(** A text with a null character, on which [ast.parse] raises
    [ValueError] (interpreters before 3.12). *)
Definition nul_text : string := String "000"%char "".

Definition nul_error : exn :=
  Exn "ValueError" "source code string cannot contain null bytes".

Definition more_parse (content : string) : parse_outcome :=
  if String.eqb content nested_text then ParseOk nested_tree
  else if String.eqb content nul_text then ParseRaises nul_error
  else Sample.sample_parse content.

Definition more_fs (path : string) : option string :=
  if String.eqb path "/p/nested.py" then Some nested_text
  else if String.eqb path "/p/nul.py" then Some nul_text
  else Sample.sample_fs path.

(** A project whose second file makes the parser raise. *)
Definition nul_mcp : mcp :=
  mk_mcp "/p"
    [Sample.entry "print.py" "py" 40; Sample.entry "nul.py" "py" 1;
     Sample.entry "except.py" "py" 31].

(** A project directory [/p] with three files and a subdirectory with
    two files, as [os.walk] lists it. *)
Definition walk (top : string)
  : list (string * list string * list string) :=
  if String.eqb top "/p"
  then [("/p", ["sub"], ["a.py"; "notes.txt"; "b.js"]);
        ("/p/sub", [], ["c.py"; "d.json"])]
  else [].

Definition relpath (path start : string) : string :=
  if String.eqb path start then "."
  else if String.eqb path "/p/sub" && String.eqb start "/p" then "sub"
  else path.

Definition splitext (name : string) : string * string :=
  if String.eqb name "a.py" then ("a", ".py")
  else if String.eqb name "b.js" then ("b", ".js")
  else if String.eqb name "c.py" then ("c", ".py")
  else if String.eqb name "d.json" then ("d", ".json")
  else if String.eqb name "notes.txt" then ("notes", ".txt")
  else (name, "").

Definition not_found (path : string) : exn :=
  Exn "FileNotFoundError"
      ("[Errno 2] No such file or directory: '" ++ path ++ "'")%string.

Definition getsize (path : string) : exn + Z :=
  if String.eqb path "/p/a.py" then inr 120%Z
  else if String.eqb path "/p/b.js" then inr 64%Z
  else if String.eqb path "/p/notes.txt" then inr 9%Z
  else if String.eqb path "/p/sub/c.py" then inr 300%Z
  else if String.eqb path "/p/sub/d.json" then inr 2%Z
  else inl (not_found path).

(** The same directory when [c.py] is removed between the listing and
    the reading of its size. *)
Definition getsize_gone (path : string) : exn + Z :=
  if String.eqb path "/p/sub/c.py" then inl (not_found path)
  else getsize path.

Definition fresh : mcp := mk_mcp "/p" [].

Definition scanned : mcp :=
  mk_mcp "/p"
    [("/p/a.py", mk_file_entry "/p/a.py" "a.py" "py" 120);
     ("/p/b.js", mk_file_entry "/p/b.js" "b.js" "js" 64);
     ("/p/sub/c.py", mk_file_entry "/p/sub/c.py" "sub/c.py" "py" 300);
     ("/p/sub/d.json", mk_file_entry "/p/sub/d.json" "sub/d.json" "json" 2)].

Definition scanned_structure : structure :=
  Structure [("sub", Structure [] ["c.py"; "d.json"])] ["a.py"; "b.js"].

End MoreSamples.

(** *** Function definitions and assignment statements of the language

    The analyzer tests [isinstance(node, ast.FunctionDef)] and
    [isinstance(node, ast.Assign)].  The language has more statements
    that define a function or assign: [async def] (class
    [AsyncFunctionDef]), the annotated assignment [x: t = v] (class
    [AnnAssign]) and the augmented assignment [x += v] (class
    [AugAssign]). *)
Definition is_function_definition (n : Ast.node) : bool :=
  match n with
  | Ast.FunctionDef _ _ _ _ => true
  | Ast.AsyncFunctionDef _ _ _ _ => true
  | _ => false
  end.

Definition is_assignment_statement (n : Ast.node) : bool :=
  match n with
  | Ast.Assign _ _ _ => true
  | Ast.Other cls _ => String.eqb cls "AnnAssign" || String.eqb cls "AugAssign"
  | _ => false
  end.

(** *** Sample declarations at the top level of a module *)
Module DeclSamples.

(** A function defined at the top level. *)
Definition def_text : string :=
  "def f(a):" ++ nl ++
  "    pass" ++ nl.

Definition def_tree : Ast.node :=
  Ast.Module
    [Ast.FunctionDef 1 "f" ["a"]
       [Ast.Other "arguments" [Ast.Other "arg" []];
        Ast.Other "Pass" []]].

(** An annotated assignment at the top level. *)
Definition ann_text : string := "x: int = 1" ++ nl.

Definition ann_tree : Ast.node :=
  Ast.Module
    [Ast.Other "AnnAssign"
       [Ast.Name "x" "Store"; Ast.Name "int" "Load";
        Ast.Other "Constant" []]].

(** A coroutine defined at the top level. *)
Definition async_text : string :=
  "async def g():" ++ nl ++
  "    pass" ++ nl.

Definition async_tree : Ast.node :=
  Ast.Module
    [Ast.AsyncFunctionDef 1 "g" []
       [Ast.Other "arguments" []; Ast.Other "Pass" []]].

Definition decl_parse (content : string) : parse_outcome :=
  if String.eqb content def_text then ParseOk def_tree
  else if String.eqb content ann_text then ParseOk ann_tree
  else if String.eqb content async_text then ParseOk async_tree
  else MoreSamples.more_parse content.

Definition decl_fs (path : string) : option string :=
  if String.eqb path "/p/def.py" then Some def_text
  else if String.eqb path "/p/ann.py" then Some ann_text
  else if String.eqb path "/p/async.py" then Some async_text
  else MoreSamples.more_fs path.

End DeclSamples.

(* ------------------------------------------------------------------ *)
(** ** Facts about [ast.walk] *)
(* ------------------------------------------------------------------ *)

Module AstFacts.
Import Ast.

Lemma bfs_sound (todo : list node) (n : node) :
  In n (bfs todo) -> exists r, In r todo /\ subnode n r.
Proof.
  funelim (bfs todo); simp bfs; simpl; try (now intros []).
  intros [E | Hin].
  - subst. exists n0. split; [now left | constructor].
  - match goal with IH : forall _, In _ (bfs _) -> _ |- _ =>
      destruct (IH _ Hin) as (r & Hr & Hsub) end.
    apply in_app_or in Hr. destruct Hr as [Hr | Hr].
    + exists r. split; [now right | exact Hsub].
    + exists n. split; [now left |].
      eapply subnode_child; eassumption.
Qed.

Lemma bfs_root (todo : list node) (r : node) :
  In r todo -> In r (bfs todo).
Proof.
  funelim (bfs todo); simp bfs; simpl; try (now intros []).
  intros [E | Hin]; [now left | right].
  match goal with IH : forall _, In _ (_ ++ _) -> _ |- _ => apply IH end.
  apply in_or_app. now left.
Qed.

Lemma bfs_children (todo : list node) (t c : node) :
  In t (bfs todo) -> In c (iter_child_nodes t) -> In c (bfs todo).
Proof.
  funelim (bfs todo); simp bfs; simpl; try (now intros []).
  intros [E | Hin] Hc; right.
  - subst. apply bfs_root. apply in_or_app. now right.
  - match goal with IH : forall _ _, In _ (bfs _) -> _ |- _ =>
      eapply IH; eassumption end.
Qed.

Lemma bfs_complete (todo : list node) (n r : node) :
  In r todo -> subnode n r -> In n (bfs todo).
Proof.
  intros Hr Hsub. apply bfs_root in Hr.
  induction Hsub as [| c t Hc Hsub IH]; [exact Hr |].
  apply IH. eapply bfs_children; eassumption.
Qed.

(** [ast.walk] yields exactly the nodes of the tree. *)
Lemma walk_subnode (tree n : node) : In n (walk tree) <-> subnode n tree.
Proof.
  unfold walk. split.
  - intros H. apply bfs_sound in H. destruct H as (r & [E | []] & Hsub).
    subst. exact Hsub.
  - intros H. eapply bfs_complete; [now left | exact H].
Qed.

Lemma walk_head (tree : node) :
  walk tree = tree :: bfs (iter_child_nodes tree).
Proof. unfold walk. simp bfs. reflexivity. Qed.


End AstFacts.

(* ------------------------------------------------------------------ *)
(** ** The structural analyzer *)
(* ------------------------------------------------------------------ *)

Lemma class_methods_acc (body : list Ast.node) (acc : list function_info) :
  fold_left
    (fun methods item =>
       match item with
       | Ast.FunctionDef lineno name args _ =>
           methods ++ [mk_function_info name lineno args]
       | _ => methods
       end)
    body acc
  = acc ++ function_defs body.
Proof.
  revert acc. induction body as [|item body IH]; intros acc; simpl.
  - now rewrite app_nil_r.
  - rewrite IH. destruct item; simpl; try reflexivity.
    now rewrite <- app_assoc.
Qed.

(** The loop over a class body collects the function definitions of the
    body, in order. *)
Lemma class_methods_spec (body : list Ast.node) :
  class_methods body = function_defs body.
Proof. unfold class_methods. now rewrite class_methods_acc. Qed.

Lemma in_function_defs (body : list Ast.node) (m : function_info) :
  In m (function_defs body) <->
  exists item, In item body /\ function_info_of item = Some m.
Proof.
  unfold function_defs. rewrite in_flat_map. split.
  - intros (item & Hin & Hm). exists item. split; [exact Hin |].
    destruct (function_info_of item) as [f|]; simpl in Hm; [|tauto].
    destruct Hm as [-> | []]. reflexivity.
  - intros (item & Hin & E). exists item. split; [exact Hin |].
    rewrite E. now left.
Qed.

Lemma for_each_append_import {A : Type} (f : A -> string) (l : list A)
      (a : analysis) :
  Step.for_each (fun x => append_import (f x)) l a
  = (mk_analysis (imports a ++ map f l) (classes a) (functions a)
                 (variables a) (error a), inr tt).
Proof.
  revert a. induction l as [|x l IH]; intros a; simpl.
  - unfold Step.ret. rewrite app_nil_r. now destruct a.
  - unfold Step.bind. unfold append_import at 1. rewrite IH. simpl.
    now rewrite <- app_assoc.
Qed.

Section Analyzer.

Variable ast_parse : string -> parse_outcome.
Variable same_object : Ast.node -> Ast.node -> bool.
Variable fs : string -> option string.


(** A node without a [parent] lookup only appends its imports and its
    class entry. *)
Lemma visit_quiet (tree n : Ast.node) (a : analysis) :
  raising n = false ->
  visit same_object tree n a
  = (mk_analysis (imports a ++ import_names n) (classes a ++ class_decls n)
                 (functions a) (variables a) (error a), inr tt).
Proof.
  intros Hq. destruct n; try discriminate Hq; simpl.
  - unfold Step.bind, Step.ret. rewrite !app_nil_r. now destruct a.
  - rewrite for_each_append_import. now rewrite app_nil_r.
  - destruct module as [m|].
    + rewrite for_each_append_import, app_nil_r.
      unfold truthy. destruct (String.eqb_spec m "") as [-> | _];
        reflexivity.
    + rewrite for_each_append_import, app_nil_r. reflexivity.
  - unfold append_class. rewrite class_methods_spec, app_nil_r.
    reflexivity.
  - unfold Step.bind, Step.ret. rewrite !app_nil_r. now destruct a.
  - unfold Step.bind, Step.ret. rewrite !app_nil_r. now destruct a.
  - unfold Step.bind, Step.ret. rewrite !app_nil_r. now destruct a.
Qed.

(** A function definition or an assignment raises before any update. *)
Lemma visit_raising (tree n : Ast.node) (a : analysis) :
  raising n = true ->
  visit same_object tree n a = (a, inl (AttributeError (Ast.class_name n) "parent")).
Proof.
  intros Hr. destruct n; try discriminate Hr; reflexivity.
Qed.

Lemma loop_quiet (tree : Ast.node) (seen rest : list Ast.node)
      (a : analysis) :
  forallb (fun n => negb (raising n)) seen = true ->
  Step.for_each (visit same_object tree) (seen ++ rest) a
  = Step.for_each (visit same_object tree) rest
      (mk_analysis (imports a ++ flat_map import_names seen)
                   (classes a ++ flat_map class_decls seen)
                   (functions a) (variables a) (error a)).
Proof.
  revert a. induction seen as [|n seen IH]; intros a Hq; simpl.
  - rewrite !app_nil_r. now destruct a.
  - simpl in Hq. apply andb_true_iff in Hq. destruct Hq as [Hn Hq].
    apply negb_true_iff in Hn.
    unfold Step.bind at 1. rewrite (visit_quiet _ _ _ Hn).
    rewrite (IH _ Hq). simpl. now rewrite <- !app_assoc.
Qed.

(** The loop over a walk with no raising node. *)
Lemma loop_all_quiet (tree : Ast.node) (nodes : list Ast.node) :
  forallb (fun n => negb (raising n)) nodes = true ->
  Step.for_each (visit same_object tree) nodes analysis0 = (collected nodes, inr tt).
Proof.
  intros Hq. rewrite <- (app_nil_r nodes) at 1.
  rewrite (loop_quiet _ _ _ _ Hq). reflexivity.
Qed.

(** The loop up to the first raising node. *)
Lemma loop_first_raising (tree n : Ast.node) (seen rest : list Ast.node) :
  forallb (fun n => negb (raising n)) seen = true ->
  raising n = true ->
  Step.for_each (visit same_object tree) (seen ++ n :: rest) analysis0
  = (collected seen, inl (AttributeError (Ast.class_name n) "parent")).
Proof.
  intros Hq Hr. rewrite (loop_quiet _ _ _ _ Hq). simpl.
  unfold Step.bind. now rewrite (visit_raising _ _ _ Hr).
Qed.

(** A sequence of nodes has a first raising node or none. *)
Lemma first_raising (nodes : list Ast.node) :
  forallb (fun n => negb (raising n)) nodes = true
  \/ exists seen n rest,
       nodes = seen ++ n :: rest
       /\ forallb (fun n => negb (raising n)) seen = true
       /\ raising n = true.
Proof.
  induction nodes as [|x nodes IH]; [now left |].
  destruct (raising x) eqn:Hx.
  - right. exists [], x, nodes. now repeat split.
  - destruct IH as [IH | (seen & n & rest & -> & Hq & Hr)].
    + left. simpl. now rewrite Hx.
    + right. exists (x :: seen), n, rest. repeat split; [| exact Hr].
      simpl. now rewrite Hx.
Qed.

(** The loop raises exactly when the walk meets a function definition
    or an assignment. *)
Lemma extraction_raises_iff (tree : Ast.node) :
  extraction_raises same_object tree <->
  exists n, In n (Ast.walk tree) /\ raising n = true.
Proof.
  unfold extraction_raises. split.
  - intros (a & e & H).
    destruct (first_raising (Ast.walk tree))
      as [Hq | (seen & n & rest & E & Hq & Hr)].
    + rewrite (loop_all_quiet _ _ Hq) in H. discriminate H.
    + exists n. split; [| exact Hr]. rewrite E. apply in_elt.
  - intros (n & Hin & Hr).
    destruct (first_raising (Ast.walk tree))
      as [Hq | (seen & m & rest & E & Hq & Hm)].
    + rewrite forallb_forall in Hq. specialize (Hq _ Hin).
      rewrite Hr in Hq. discriminate Hq.
    + rewrite E, (loop_first_raising _ _ _ _ Hq Hm). eauto.
Qed.

(** What the analysis of a text with a clean parse returns: the loop
    visits a prefix [seen] of the walk; it either reaches the end, or
    stops at the first raising node [n] and records [str(e)]. *)
Lemma analyze_content_ok (content : string) (tree : Ast.node) :
  ast_parse content = ParseOk tree ->
  exists seen rest,
    Ast.walk tree = seen ++ rest
    /\ forallb (fun n => negb (raising n)) seen = true
    /\ ((rest = [] /\ analyze_content ast_parse same_object content = collected seen)
        \/ exists n rest',
             rest = n :: rest' /\ raising n = true
             /\ analyze_content ast_parse same_object content
                = set_error
                    (str_exn (AttributeError (Ast.class_name n) "parent"))
                    (collected seen)).
Proof.
  intros Hp. unfold analyze_content. rewrite Hp.
  destruct (first_raising (Ast.walk tree))
    as [Hq | (seen & n & rest & E & Hq & Hr)].
  - exists (Ast.walk tree), []. rewrite app_nil_r.
    rewrite (loop_all_quiet _ _ Hq). auto.
  - exists seen, (n :: rest). rewrite E.
    rewrite (loop_first_raising _ _ _ _ Hq Hr).
    repeat split; [exact Hq |]. right. exists n, rest. auto.
Qed.

Lemma analyze_readable (path content : string) :
  fs path = Some content -> content <> "" ->
  analyze_python_file ast_parse same_object fs path = Analysis (analyze_content ast_parse same_object content).
Proof.
  intros Hfs Hne. unfold analyze_python_file, _read_file.
  rewrite Hfs. unfold truthy.
  destruct (String.eqb_spec content "") as [E | _]; [contradiction |].
  reflexivity.
Qed.

Lemma analyze_empty_text (path : string) :
  fs path = Some "" -> analyze_python_file ast_parse same_object fs path = EmptyDict.
Proof.
  intros Hfs. unfold analyze_python_file, _read_file.
  now rewrite Hfs.
Qed.

Lemma analyze_unreadable (path : string) :
  fs path = None -> analyze_python_file ast_parse same_object fs path = EmptyDict.
Proof.
  intros Hfs. unfold analyze_python_file, _read_file.
  now rewrite Hfs.
Qed.

Lemma in_class_decls (n : Ast.node) (c : class_info) :
  In c (class_decls n) ->
  exists lineno name bases body decorator_list,
    n = Ast.ClassDef lineno name bases body decorator_list
    /\ c = mk_class_info name (function_defs body) lineno.
Proof.
  destruct n; simpl; try tauto.
  intros [<- | []]. eauto 7.
Qed.

(** Every entry of ['classes'] comes from a class definition of the
    tree, with as ['methods'] the function definitions that are
    statements of that class body, in order. *)
Lemma classes_from_class_bodies
      (path content : string) (tree : Ast.node) (c : class_info) :
  fs path = Some content ->
  ast_parse content = ParseOk tree ->
  In c (result_classes (analyze_python_file ast_parse same_object fs path)) ->
  exists lineno name bases body decorator_list,
    Ast.subnode (Ast.ClassDef lineno name bases body decorator_list) tree
    /\ c = mk_class_info name (function_defs body) lineno.
Proof.
  intros Hfs Hp.
  destruct (string_dec content "") as [-> | Hne].
  { rewrite (analyze_empty_text _ Hfs). simpl. intros []. }
  rewrite (analyze_readable _ _ Hfs Hne). simpl.
  destruct (analyze_content_ok _ _ Hp)
    as (seen & rest & Hw & Hq & [[-> ->] | (n & rest' & -> & Hr & ->)]);
    simpl.
  all: intros Hc; apply in_flat_map in Hc; destruct Hc as (x & Hx & Hc).
  all: apply in_class_decls in Hc.
  all: destruct Hc as (lineno & name & bases & body & decos & -> & ->).
  all: exists lineno, name, bases, body, decos.
  all: split; [apply AstFacts.walk_subnode; rewrite Hw; apply in_or_app;
               now left | reflexivity].
Qed.

Lemma module_body_subnode (tree n : Ast.node) :
  In n (Ast.module_body tree) -> Ast.subnode n tree.
Proof.
  destruct tree; simpl; try tauto.
  intros Hin. eapply Ast.subnode_child; [exact Hin | constructor].
Qed.

(** The host parser reads the empty text as a module without
    statements. *)
Hypothesis parse_empty : ast_parse "" = ParseOk (Ast.Module []).

Lemma walk_empty_module : Ast.walk (Ast.Module []) = [Ast.Module []].
Proof. rewrite AstFacts.walk_head. simpl. now simp bfs. Qed.

Lemma raising_nonempty (content : string) (tree n : Ast.node) :
  ast_parse content = ParseOk tree ->
  In n (Ast.walk tree) -> raising n = true -> content <> "".
Proof.
  intros Hp Hin Hr ->. rewrite parse_empty in Hp. injection Hp as <-.
  rewrite walk_empty_module in Hin. destruct Hin as [<- | []].
  discriminate Hr.
Qed.

Lemma failed_nonempty (content : string) :
  parse_failed (ast_parse content) -> content <> "".
Proof. intros Hf ->. rewrite parse_empty in Hf. exact Hf. Qed.

Lemma loop_imports_grow (tree : Ast.node) (nodes : list Ast.node)
      (a : analysis) (s : string) :
  In s (imports a) ->
  In s (imports (fst (Step.for_each (visit same_object tree) nodes a))).
Proof.
  revert a. induction nodes as [|n nodes IH]; intros a Hin; simpl.
  - exact Hin.
  - unfold Step.bind. destruct (raising n) eqn:Hr.
    + rewrite (visit_raising _ _ _ Hr). exact Hin.
    + rewrite (visit_quiet _ _ _ Hr). apply IH. simpl.
      apply in_or_app. now left.
Qed.

(** The first raising node of the walk, for a tree that holds one: the
    dictionary returned is the one collected from the nodes before it,
    with ['error'] set to the message of the failed lookup. *)
Lemma analyze_raising (path content : string) (tree m : Ast.node) :
  fs path = Some content ->
  ast_parse content = ParseOk tree ->
  In m (Ast.walk tree) -> raising m = true ->
  exists seen n rest,
    Ast.walk tree = seen ++ n :: rest
    /\ forallb (fun n => negb (raising n)) seen = true
    /\ raising n = true
    /\ analyze_python_file ast_parse same_object fs path
       = Analysis
           (set_error (str_exn (AttributeError (Ast.class_name n) "parent"))
                      (collected seen)).
Proof.
  intros Hfs Hp Hm Hmr.
  pose proof (raising_nonempty _ _ _ Hp Hm Hmr) as Hne.
  rewrite (analyze_readable _ _ Hfs Hne).
  destruct (first_raising (Ast.walk tree))
    as [Hq | (seen & n & rest & E & Hq & Hr)].
  { rewrite forallb_forall in Hq. specialize (Hq _ Hm).
    rewrite Hmr in Hq. discriminate Hq. }
  exists seen, n, rest. repeat split; try assumption.
  unfold analyze_content. rewrite Hp, E.
  now rewrite (loop_first_raising _ _ _ _ Hq Hr).
Qed.

(** C1, where the code departs from the claim.  For a file whose text
    parses to a tree with a function definition [item] among the
    statements of the module: ['functions'] is empty, so the signature
    of [item] is not in it; the entries of ['classes'] carry as
    ['methods'] the function definitions of class bodies only; and
    ['error'] is set.  A function defined at the top level of the module
    is thus listed neither as a function nor as a method. *)
Theorem top_level_function_in_neither_list
        (path content : string) (tree item : Ast.node) (f : function_info) :
  fs path = Some content ->
  ast_parse content = ParseOk tree ->
  In item (Ast.module_body tree) ->
  function_info_of item = Some f ->
  result_functions (analyze_python_file ast_parse same_object fs path) = []
  /\ ~ In f (result_functions
               (analyze_python_file ast_parse same_object fs path))
  /\ (forall c,
        In c (result_classes
                (analyze_python_file ast_parse same_object fs path)) ->
        exists lineno name bases body decorator_list,
          Ast.subnode (Ast.ClassDef lineno name bases body decorator_list)
                      tree
          /\ ci_methods c = function_defs body)
  /\ error_set (analyze_python_file ast_parse same_object fs path).
Proof.
  intros Hfs Hp Hitem Hf.
  assert (Hr : raising item = true).
  { destruct item; try discriminate Hf. reflexivity. }
  assert (Hw : In item (Ast.walk tree))
    by now apply AstFacts.walk_subnode, module_body_subnode.
  assert (Hclasses :
            forall c,
              In c (result_classes
                      (analyze_python_file ast_parse same_object fs path)) ->
              exists lineno name bases body decorator_list,
                Ast.subnode
                  (Ast.ClassDef lineno name bases body decorator_list) tree
                /\ ci_methods c = function_defs body).
  { intros c Hc.
    destruct (classes_from_class_bodies _ _ _ _ Hfs Hp Hc)
      as (lineno & name & bases & body & decos & Hsub & ->).
    exists lineno, name, bases, body, decos. split; [exact Hsub | reflexivity]. }
  destruct (analyze_raising _ _ _ _ Hfs Hp Hw Hr)
    as (seen & n & rest & _ & _ & _ & E).
  rewrite E in *. simpl.
  split; [reflexivity |]. split; [intros [] |].
  split; [exact Hclasses | discriminate].
Qed.

(** C3.  For a file whose text parses to [tree] and whose extraction
    raises: the call still returns a dictionary [a]; the loop has
    visited a prefix [seen] of the walk without a raise, leaving the
    dictionary [before]; the visit of the next node [n] raises [e] and
    changes nothing; ['error'] of [a] is [str(e)], the message that
    names the class of [n]; and the four lists of [a] are those of
    [before], the imports and the classes of [a] being all those
    declared by the nodes of [seen], in the order of the walk. *)
Theorem extraction_failure_keeps_declarations
        (path content : string) (tree : Ast.node) :
  fs path = Some content ->
  ast_parse content = ParseOk tree ->
  extraction_raises same_object tree ->
  exists seen n rest before e a,
    Ast.walk tree = seen ++ n :: rest
    /\ Step.for_each (visit same_object tree) seen analysis0 = (before, inr tt)
    /\ visit same_object tree n before = (before, inl e)
    /\ analyze_python_file ast_parse same_object fs path = Analysis a
    /\ error a = Some (str_exn e)
    /\ str_exn e
       = ("'" ++ Ast.class_name n ++ "' object has no attribute 'parent'")%string
    /\ imports a = imports before
    /\ classes a = classes before
    /\ functions a = functions before
    /\ variables a = variables before
    /\ imports a = flat_map import_names seen
    /\ classes a = flat_map class_decls seen.
Proof.
  intros Hfs Hp Hraise.
  apply extraction_raises_iff in Hraise. destruct Hraise as (m & Hm & Hmr).
  destruct (analyze_raising _ _ _ _ Hfs Hp Hm Hmr)
    as (seen & n & rest & E & Hq & Hr & Ha).
  exists seen, n, rest, (collected seen),
         (AttributeError (Ast.class_name n) "parent"),
         (set_error (str_exn (AttributeError (Ast.class_name n) "parent"))
                    (collected seen)).
  split; [exact E |].
  split; [apply loop_all_quiet; exact Hq |].
  split; [apply visit_raising; exact Hr |].
  split; [exact Ha |].
  repeat split.
Qed.

(** C2, as amended.  For a readable file, ['error'] is set if and only
    if parsing its text failed or the extraction raised after a clean
    parse; an unreadable file yields the empty dictionary, without
    ['error']. *)
Theorem error_iff_parse_or_extraction_failure (path : string) :
  match fs path with
  | Some content =>
      error_set (analyze_python_file ast_parse same_object fs path) <->
      (parse_failed (ast_parse content)
       \/ exists tree,
            ast_parse content = ParseOk tree
            /\ extraction_raises same_object tree)
  | None =>
      analyze_python_file ast_parse same_object fs path = EmptyDict
      /\ ~ error_set (analyze_python_file ast_parse same_object fs path)
  end.
Proof.
  destruct (fs path) as [content|] eqn:Hfs.
  2: { rewrite (analyze_unreadable _ Hfs). simpl. tauto. }
  destruct (string_dec content "") as [-> | Hne].
  - rewrite (analyze_empty_text _ Hfs). simpl. split; [tauto |].
    intros [Hf | (tree & Hp & Hx)].
    + now apply failed_nonempty in Hf.
    + apply extraction_raises_iff in Hx. destruct Hx as (n & Hin & Hr).
      now apply (raising_nonempty _ _ _ Hp Hin Hr).
  - rewrite (analyze_readable _ _ Hfs Hne). simpl.
    destruct (ast_parse content) as [tree | lineno msg | e] eqn:Hp.
    + destruct (analyze_content_ok _ _ Hp)
        as (seen & rest & Hw & Hq & [[-> E] | (n & rest' & -> & Hr & E)]);
        rewrite E; simpl.
      * split; [congruence |]. intros [[] | (t & Ht & Hx)].
        injection Ht as <-. apply extraction_raises_iff in Hx.
        destruct Hx as (n & Hin & Hr).
        rewrite Hw, app_nil_r in Hin. rewrite forallb_forall in Hq.
        specialize (Hq _ Hin). rewrite Hr in Hq. discriminate Hq.
      * split; [| congruence]. intros _. right. exists tree.
        split; [reflexivity |]. apply extraction_raises_iff.
        exists n. split; [| exact Hr]. rewrite Hw. apply in_elt.
    + unfold analyze_content. rewrite Hp. simpl.
      split; [tauto | congruence].
    + unfold analyze_content. rewrite Hp. simpl.
      split; [tauto | congruence].
Qed.

(** C9, as amended.  For a file whose text parses to a tree that holds
    a function definition written with [def] (a node of class
    [FunctionDef], not [async def]) anywhere, or a plain assignment
    [target = value] (a node of class [Assign], not an annotated or
    augmented assignment) among the statements of the module: the
    result has ['error'] set, and its ['functions'] and ['variables']
    lists are empty. *)
Theorem function_or_assignment_sets_error
        (path content : string) (tree : Ast.node) :
  fs path = Some content ->
  ast_parse content = ParseOk tree ->
  (exists n, Ast.subnode n tree /\ is_FunctionDef n = true)
  \/ (exists n, In n (Ast.module_body tree) /\ is_Assign n = true) ->
  error_set (analyze_python_file ast_parse same_object fs path)
  /\ result_functions (analyze_python_file ast_parse same_object fs path) = []
  /\ result_variables (analyze_python_file ast_parse same_object fs path) = [].
Proof.
  intros Hfs Hp Hex.
  assert (exists n, In n (Ast.walk tree) /\ raising n = true)
    as (m & Hm & Hmr).
  { destruct Hex as [(n & Hsub & Hn) | (n & Hin & Hn)]; exists n.
    - split; [now apply AstFacts.walk_subnode |].
      unfold raising. now rewrite Hn.
    - split; [now apply AstFacts.walk_subnode, module_body_subnode |].
      unfold raising. rewrite Hn. apply orb_true_r. }
  pose proof (raising_nonempty _ _ _ Hp Hm Hmr) as Hne.
  rewrite (analyze_readable _ _ Hfs Hne). simpl.
  destruct (analyze_content_ok _ _ Hp)
    as (seen & rest & Hw & Hq & [[-> E] | (n & rest' & -> & Hr & E)]);
    rewrite E; simpl.
  - rewrite Hw, app_nil_r in Hm. rewrite forallb_forall in Hq.
    specialize (Hq _ Hm). rewrite Hmr in Hq. discriminate Hq.
  - repeat split. congruence.
Qed.

(** C8.  For a from-import that the loop reaches (no node before it in
    the walk raises): each imported symbol [y] is recorded in
    ['imports'] as [x.y] when the import names the module [x], and as
    [.y] when it names no module. *)
Theorem from_import_qualified
        (path content : string) (tree : Ast.node)
        (seen rest : list Ast.node) (lineno : Z) (module : option string)
        (names : list Ast.alias) (y : Ast.alias) :
  fs path = Some content ->
  ast_parse content = ParseOk tree ->
  Ast.walk tree = seen ++ Ast.ImportFrom lineno module names :: rest ->
  forallb (fun n => negb (raising n)) seen = true ->
  In y names ->
  match module with
  | Some x =>
      In (x ++ "." ++ Ast.alias_name y)%string
         (result_imports (analyze_python_file ast_parse same_object fs path))
  | None =>
      In ("." ++ Ast.alias_name y)%string
         (result_imports (analyze_python_file ast_parse same_object fs path))
  end.
Proof.
  intros Hfs Hp Hw Hq Hy.
  set (node := Ast.ImportFrom lineno module names) in *.
  assert (Hne : content <> "").
  { intros ->. rewrite parse_empty in Hp. injection Hp as <-.
    rewrite walk_empty_module in Hw.
    destruct seen as [|? [|? ?]]; discriminate Hw. }
  assert (Hin : In (match module with
                    | Some x => (x ++ "." ++ Ast.alias_name y)%string
                    | None => ("." ++ Ast.alias_name y)%string
                    end)
                   (result_imports (analyze_python_file ast_parse same_object fs path))).
  { rewrite (analyze_readable _ _ Hfs Hne). simpl.
    unfold analyze_content. rewrite Hp, Hw.
    assert (Hq' : forallb (fun n => negb (raising n)) (seen ++ [node])
                  = true).
    { rewrite forallb_app, Hq. reflexivity. }
    change (seen ++ node :: rest) with (seen ++ [node] ++ rest).
    rewrite app_assoc, (loop_quiet _ _ _ _ Hq'). simpl.
    match goal with
    | |- In ?s (imports (let (a, r) := Step.for_each ?v ?l ?a0 in _)) =>
        pose proof (loop_imports_grow tree l a0 s) as Hgrow;
        destruct (Step.for_each v l a0) as [a [e | u]]
    end.
    all: simpl in *; apply Hgrow.
    all: rewrite flat_map_app; apply in_or_app; right; simpl.
    all: rewrite app_nil_r; destruct module; apply in_map_iff.
    all: exists y; split; [reflexivity | exact Hy]. }
  destruct module; exact Hin.
Qed.

End Analyzer.

(* ------------------------------------------------------------------ *)
(** ** Facts about strings and matching *)
(* ------------------------------------------------------------------ *)

Lemma substring_0_append (a b : string) :
  substring 0 (String.length a) (a ++ b)%string = a.
Proof.
  induction a as [|c a IH]; simpl.
  - now destruct b.
  - now rewrite IH.
Qed.

Lemma substring_append_suffix (a b : string) :
  substring (String.length a) (String.length b) (a ++ b)%string = b.
Proof.
  induction a as [|c a IH]; simpl; [| exact IH].
  induction b as [|d b IHb]; simpl; [reflexivity | now rewrite IHb].
Qed.

Lemma length_append (a b : string) :
  String.length (a ++ b)%string = String.length a + String.length b.
Proof. induction a as [|c a IH]; simpl; [reflexivity | now rewrite IH]. Qed.

Lemma substring_split (n : nat) (s : string) :
  n <= String.length s ->
  s = (substring 0 n s ++ substring n (String.length s - n) s)%string.
Proof.
  revert n. induction s as [|c s IH]; intros n Hn; simpl in *.
  - destruct n; [reflexivity | lia].
  - destruct n as [|n]; simpl.
    + f_equal. clear. induction s as [|d s IHs]; simpl;
        [reflexivity | now rewrite <- IHs].
    + f_equal. apply IH. lia.
Qed.

(** [endswith] holds exactly of the texts that are some stem followed by
    the suffix. *)
Lemma endswith_spec (s suffix : string) :
  endswith s suffix = true <-> exists stem, s = (stem ++ suffix)%string.
Proof.
  unfold endswith. rewrite andb_true_iff, Nat.leb_le, String.eqb_eq.
  split.
  - intros [Hle E].
    exists (substring 0 (String.length s - String.length suffix) s).
    pose proof (substring_split (String.length s - String.length suffix) s)
      as H.
    replace (String.length s - (String.length s - String.length suffix))
      with (String.length suffix) in H by lia.
    rewrite E in H. apply H. lia.
  - intros [stem ->]. rewrite length_append. split; [lia |].
    replace (String.length stem + String.length suffix
             - String.length suffix) with (String.length stem) by lia.
    apply substring_append_suffix.
Qed.

Lemma list_ascii_append (a b : string) :
  list_ascii_of_string (a ++ b)
  = list_ascii_of_string a ++ list_ascii_of_string b.
Proof. induction a as [|c a IH]; simpl; [reflexivity | now rewrite IH]. Qed.

Lemma list_ascii_length (a : string) :
  length (list_ascii_of_string a) = String.length a.
Proof. induction a as [|c a IH]; simpl; [reflexivity | now rewrite IH]. Qed.

Module ReFacts.
Import Re.

Lemma in_text_order_weaken (a b : nat) (ms : list re_match) :
  b <= a -> in_text_order a ms -> in_text_order b ms.
Proof.
  destruct ms as [|m ms]; simpl; [tauto |].
  intros Hle (H1 & H2 & H3). repeat split; [lia | exact H2 | exact H3].
Qed.

(** The scanner lists its matches from left to right, without overlap. *)
Lemma scan_in_text_order (r : regex) (s : list ascii) :
  forall pos skip, in_text_order (pos + skip) (scan r s pos skip).
Proof.
  induction s as [|c s IH]; intros pos skip.
  - destruct skip as [|k]; simpl; [| exact I].
    destruct (match_items r [] 0 (fun _ => true)) as [[|len]|]; simpl.
    + repeat split; try lia.
      destruct (match_items r [] 0 (fun e => (0 <? e)%nat)) as [len|];
        simpl; [| exact I].
      repeat split; lia.
    + repeat split; lia.
    + exact I.
  - destruct skip as [|k]; simpl.
    + destruct (match_items r (c :: s) 0 (fun _ => true)) as [[|len]|];
        simpl.
      * repeat split; try lia.
        destruct (match_items r (c :: s) 0 (fun e => (0 <? e)%nat))
          as [len|]; simpl.
        -- repeat split; try lia.
           eapply in_text_order_weaken; [| apply IH]. lia.
        -- eapply in_text_order_weaken; [| apply IH]. lia.
      * repeat split; try lia.
        eapply in_text_order_weaken; [| apply IH]. lia.
      * eapply in_text_order_weaken; [| apply IH]. lia.
    + eapply in_text_order_weaken; [| apply IH]. lia.
Qed.

Lemma finditer_in_text_order (pattern content : string)
      (ms : list re_match) :
  finditer pattern content = Some ms -> in_text_order 0 ms.
Proof.
  unfold finditer. destruct (compile pattern) as [r|]; [| discriminate].
  intros [= <-]. apply (scan_in_text_order r _ 0 0).
Qed.

(** A literal pattern matches where the text starts with it. *)
Lemma match_literal (l s : list ascii) :
  forall (k : nat) (accept : nat -> bool),
    match_items (literal l) s k accept
    = if starts_with l s
      then (if accept (k + length l) then Some (k + length l) else None)
      else None.
Proof.
  revert s. induction l as [|c l IH]; intros s k accept; simpl.
  - now rewrite Nat.add_0_r.
  - destruct s as [|d s]; [reflexivity |].
    destruct (Ascii.eqb d c); simpl; [| reflexivity].
    rewrite IH. now rewrite Nat.add_succ_r.
Qed.

Lemma starts_with_app_prefix (a l t : list ascii) :
  starts_with l (a ++ t) = true -> length a <= length l ->
  starts_with a l = true.
Proof.
  revert l. induction a as [|c a IH]; intros l Hs Hlen; [reflexivity |].
  destruct l as [|d l]; simpl in *; [lia |].
  apply andb_true_iff in Hs. destruct Hs as [Hc Hs].
  rewrite Ascii.eqb_sym, Hc. simpl. apply IH; [exact Hs | lia].
Qed.

Lemma starts_with_split (l s : list ascii) :
  starts_with l s = true -> s = l ++ skipn (length l) s.
Proof.
  revert s. induction l as [|c l IH]; intros s Hs; [reflexivity |].
  destruct s as [|d s]; simpl in *; [discriminate |].
  apply andb_true_iff in Hs. destruct Hs as [Hc Hs].
  apply Ascii.eqb_eq in Hc. subst d. f_equal. now apply IH.
Qed.

(** Two occurrences of an overlap-free text are at least its length
    apart. *)
Lemma no_overlap (l s : list ascii) (j : nat) :
  overlap_free l = true ->
  starts_with l s = true -> starts_with l (skipn j s) = true ->
  0 < j -> length l <= j.
Proof.
  intros Hfree H0 Hj Hpos.
  destruct (le_lt_dec (length l) j) as [Hle | Hlt]; [exact Hle | exfalso].
  unfold overlap_free in Hfree. rewrite forallb_forall in Hfree.
  assert (Hin : In j (seq 1 (length l - 1))) by (apply in_seq; lia).
  specialize (Hfree _ Hin). apply negb_true_iff in Hfree.
  rewrite (starts_with_split _ _ H0) in Hj.
  rewrite skipn_app in Hj.
  replace (j - length l) with 0 in Hj by lia. simpl in Hj.
  apply starts_with_app_prefix in Hj; [congruence |].
  rewrite length_skipn. lia.
Qed.

(** Every occurrence of an overlap-free literal is reported. *)
Lemma scan_finds_literal (l : list ascii) :
  l <> [] -> overlap_free l = true ->
  forall (s : list ascii) (pos skip j : nat),
    skip <= j -> starts_with l (skipn j s) = true ->
    In (mk_match (pos + j) (pos + j + length l))
       (scan (literal l) s pos skip).
Proof.
  intros Hl Hfree. induction s as [|c s IH]; intros pos skip j Hskip Hocc.
  - rewrite skipn_nil in Hocc. destruct l; [congruence | discriminate].
  - destruct skip as [|k].
    + cbn [scan]. rewrite !match_literal. simpl (0 + _).
      destruct (starts_with l (c :: s)) eqn:H0.
      * remember (length l) as len eqn:Hlen in |- *.
        destruct len as [|n].
        { destruct l; [congruence | discriminate]. }
        destruct j as [|j].
        -- left. f_equal; lia.
        -- right.
           assert (length l <= S j) by (eapply no_overlap; eauto; lia).
           replace (pos + S j + S n) with (S pos + j + length l) by lia.
           replace (pos + S j) with (S pos + j) by lia.
           replace (S n - 1) with n by lia.
           apply IH; [lia | exact Hocc].
      * destruct j as [|j]; [simpl in Hocc; congruence |].
        replace (pos + S j) with (S pos + j) by lia.
        apply IH; [lia | exact Hocc].
    + destruct j as [|j]; [lia |]. cbn [scan].
      replace (pos + S j) with (S pos + j) by lia.
      apply IH; [lia | exact Hocc].
Qed.

(** The bare-except pattern is found wherever it occurs. *)
Lemma finditer_except (before after : string) :
  exists ms,
    finditer "except:" (before ++ "except:" ++ after)%string = Some ms
    /\ In (mk_match (String.length before) (String.length before + 7)) ms.
Proof.
  unfold finditer.
  change (compile "except:")
    with (Some (literal (list_ascii_of_string "except:"))).
  eexists. split; [reflexivity |].
  pose proof (scan_finds_literal (list_ascii_of_string "except:")) as H.
  specialize (H ltac:(discriminate) eq_refl
                (list_ascii_of_string (before ++ "except:" ++ after))
                0 0 (String.length before) ltac:(lia)).
  simpl (0 + _) in H. apply H.
  rewrite list_ascii_append, <- list_ascii_length.
  rewrite skipn_app, skipn_all, Nat.sub_diag. reflexivity.
Qed.

End ReFacts.

(* ------------------------------------------------------------------ *)
(** ** The pattern scanner *)
(* ------------------------------------------------------------------ *)

Lemma truthy_nonempty (s : string) : s <> "" -> truthy s = true.
Proof.
  intros Hne. unfold truthy.
  now destruct (String.eqb_spec s "") as [E | _].
Qed.

Lemma has_key_spec (self : mcp) (key : string) :
  has_key self key = true <-> In key (keys self).
Proof.
  unfold has_key. rewrite existsb_exists. split.
  - intros (k & Hin & E). apply String.eqb_eq in E. now subst.
  - intros Hin. exists key. split; [exact Hin | apply String.eqb_refl].
Qed.


(** Every pattern of the rule table is read by [Re.compile]. *)
Lemma patterns_compile :
  Forall (fun rule : string * string * string =>
            Re.compile (fst (fst rule)) <> None) patterns.
Proof. unfold patterns. repeat constructor; vm_compute; discriminate. Qed.

Lemma finditer_matches_of (pattern content : string) :
  Re.compile pattern <> None ->
  Re.finditer pattern content = Some (matches_of pattern content).
Proof.
  unfold matches_of, Re.finditer.
  destruct (Re.compile pattern); [reflexivity | congruence].
Qed.

(** The inner loop over the matches of one rule. *)
Lemma match_loop (self : mcp) (file content bug_type suggestion : string)
      (entry : file_entry) (ms : list Re.re_match) :
  getitem self file = inr entry ->
  forall bugs,
    try_fold
      (fun m bugs =>
         try_bind (getitem self file) (fun entry =>
         inr (bugs ++ [mk_finding (rel_path entry)
                                  (Some (line_number content (Re.m_start m)))
                                  bug_type suggestion])))
      ms bugs
    = inr (bugs ++
           map (fun m =>
                  mk_finding (rel_path entry)
                    (Some (line_number content (Re.m_start m)))
                    bug_type suggestion) ms).
Proof.
  intros Hget. rewrite Hget. cbn [try_bind].
  induction ms as [|m ms IH]; intros bugs; cbn [try_fold map].
  - now rewrite app_nil_r.
  - cbn [try_bind]. rewrite IH. now rewrite <- app_assoc.
Qed.

(** The loop over a rule table whose patterns are all read. *)
Lemma rule_loop (self : mcp) (file content : string) (entry : file_entry)
      (rules : list (string * string * string)) :
  getitem self file = inr entry ->
  Forall (fun rule => Re.compile (fst (fst rule)) <> None) rules ->
  forall bugs,
    try_fold
      (fun (rule : string * string * string) bugs =>
         let '(pattern, bug_type, suggestion) := rule in
         try_bind (re_finditer pattern content) (fun matches =>
         try_fold
           (fun m bugs =>
              let line_number := line_number content (Re.m_start m) in
              try_bind (getitem self file) (fun entry =>
              inr (bugs ++ [mk_finding (rel_path entry) (Some line_number)
                                       bug_type suggestion])))
           matches bugs))
      rules bugs
    = inr (bugs ++ findings_of_rules (rel_path entry) content rules).
Proof.
  intros Hget Hall. induction Hall as [|[[pattern bug_type] suggestion] rules Hc _ IH];
    intros bugs; cbn [try_fold].
  - unfold findings_of_rules. simpl. now rewrite app_nil_r.
  - unfold re_finditer. simpl in Hc.
    rewrite (finditer_matches_of _ content Hc). cbn [try_bind].
    cbv zeta. rewrite (match_loop _ _ _ _ _ _ _ Hget). cbn [try_bind].
    rewrite IH. unfold findings_of_rules. cbn [flat_map findings_of_rule].
    unfold line_number. now rewrite <- app_assoc.
Qed.

Section Scanner.

Variable ast_parse : string -> parse_outcome.
Variable fs : string -> option string.


(** A file with a clean parse contributes the findings of the rule
    table, rule after rule. *)
Lemma check_file_ok (self : mcp) (file content : string) (tree : Ast.node)
      (entry : file_entry) (bugs : list finding) :
  fs file = Some content ->
  ast_parse content = ParseOk tree ->
  getitem self file = inr entry ->
  check_file ast_parse fs self file bugs
  = inr (bugs ++ findings_of_rules (rel_path entry) content patterns).
Proof.
  intros Hfs Hp Hget. unfold check_file, _read_file.
  rewrite Hfs. destruct (string_dec content "") as [-> | Hne].
  - simpl. now rewrite app_nil_r.
  - rewrite (truthy_nonempty _ Hne). cbn [negb]. rewrite Hp.
    unfold scan_patterns. apply rule_loop; [exact Hget |].
    apply patterns_compile.
Qed.

(** C6.  For a scanned file with a clean parse, the findings are those
    of the first rule of the table in the order of its matches in the
    text, then those of the second rule, and so on, where the matches of
    a rule are listed from left to right.  They are not sorted by line:
    on a text with a print call on line 1 and a bare except clause on
    line 4, the finding of line 4 comes first. *)
Theorem findings_in_rule_then_match_order
        (self : mcp) (file content : string) (tree : Ast.node)
        (entry : file_entry) (bugs : list finding) :
  fs file = Some content ->
  ast_parse content = ParseOk tree ->
  getitem self file = inr entry ->
  check_file ast_parse fs self file bugs
  = inr (bugs ++
         flat_map (findings_of_rule (rel_path entry) content) patterns)
  /\ (forall pattern bug_type suggestion,
        In (pattern, bug_type, suggestion) patterns ->
        Re.finditer pattern content = Some (matches_of pattern content)
        /\ in_text_order 0 (matches_of pattern content))
  /\ (exists found,
        check_file Sample.sample_parse Sample.sample_fs
          Sample.sample_mcp "/p/print.py" [] = inr found
        /\ map f_type found = ["Bare except clause"; "Debug print statement"]
        /\ map f_line found = [Some 4%Z; Some 1%Z]).
Proof.
  intros Hfs Hp Hget. split; [| split].
  - now apply check_file_ok with (tree := tree).
  - intros pattern bug_type suggestion Hin.
    pose proof patterns_compile as Hall. rewrite Forall_forall in Hall.
    specialize (Hall _ Hin). simpl in Hall.
    pose proof (finditer_matches_of _ content Hall) as E.
    split; [exact E |]. eapply ReFacts.finditer_in_text_order. exact E.
  - eexists. split; [vm_compute; reflexivity |]. split; reflexivity.
Qed.

Lemma in_findings_of_rules (rel content : string) (f : finding) :
  In f (findings_of_rules rel content patterns) <->
  exists pattern bug_type suggestion ms m,
    In (pattern, bug_type, suggestion) patterns
    /\ Re.finditer pattern content = Some ms /\ In m ms
    /\ f = mk_finding rel
             (Some (Z.of_nat (count Re.newline
                                    (substring 0 (Re.m_start m) content))
                    + 1)%Z)
             bug_type suggestion.
Proof.
  pose proof patterns_compile as Hall. rewrite Forall_forall in Hall.
  unfold findings_of_rules. rewrite in_flat_map. split.
  - intros ([[pattern bug_type] suggestion] & Hin & Hf).
    simpl in Hf. apply in_map_iff in Hf. destruct Hf as (m & <- & Hm).
    exists pattern, bug_type, suggestion, (matches_of pattern content), m.
    repeat split; try assumption.
    apply finditer_matches_of. exact (Hall _ Hin).
  - intros (pattern & bug_type & suggestion & ms & m & Hin & E & Hm & ->).
    exists (pattern, bug_type, suggestion). split; [exact Hin |].
    simpl. apply in_map_iff. exists m. split; [reflexivity |].
    unfold matches_of. now rewrite E.
Qed.

(** C5.  For a scanned file with a clean parse: each match of each rule
    gives a finding whose line is the number of newline characters in
    the text before the start of the match, plus one, and every finding
    arises so; when the text holds [except:] after exactly two newline
    characters (on line 3), there is a finding of kind
    ['Bare except clause'] with line 3. *)
Theorem heuristic_finding_line
        (self : mcp) (file content : string) (tree : Ast.node)
        (entry : file_entry) :
  fs file = Some content ->
  ast_parse content = ParseOk tree ->
  getitem self file = inr entry ->
  exists found,
    check_file ast_parse fs self file [] = inr found
    /\ (forall pattern bug_type suggestion ms m,
          In (pattern, bug_type, suggestion) patterns ->
          Re.finditer pattern content = Some ms -> In m ms ->
          In (mk_finding (rel_path entry)
                (Some (Z.of_nat (count Re.newline
                                       (substring 0 (Re.m_start m) content))
                       + 1)%Z)
                bug_type suggestion)
             found)
    /\ (forall f, In f found ->
          exists pattern bug_type suggestion ms m,
            In (pattern, bug_type, suggestion) patterns
            /\ Re.finditer pattern content = Some ms /\ In m ms
            /\ f = mk_finding (rel_path entry)
                     (Some (Z.of_nat (count Re.newline
                                            (substring 0 (Re.m_start m)
                                                       content))
                            + 1)%Z)
                     bug_type suggestion)
    /\ (forall before after,
          content = (before ++ "except:" ++ after)%string ->
          count Re.newline before = 2 ->
          In (mk_finding (rel_path entry) (Some 3%Z) "Bare except clause"
                         "Use specific exceptions")
             found).
Proof.
  intros Hfs Hp Hget.
  exists (findings_of_rules (rel_path entry) content patterns).
  split; [now rewrite (check_file_ok _ _ _ _ _ [] Hfs Hp Hget) |].
  split; [| split].
  - intros pattern bug_type suggestion ms m Hin E Hm.
    apply in_findings_of_rules. eauto 10.
  - intros f Hf. now apply in_findings_of_rules.
  - intros before after -> Hcount.
    destruct (ReFacts.finditer_except before after) as (ms & E & Hm).
    apply in_findings_of_rules.
    exists "except:", "Bare except clause", "Use specific exceptions", ms,
           (Re.mk_match (String.length before) (String.length before + 7)).
    repeat split; [now left | exact E | exact Hm |].
    cbn [Re.m_start]. rewrite substring_0_append, Hcount. reflexivity.
Qed.

Lemma find_bugs_one_file (self : mcp) (file : string) :
  file <> "" -> In file (keys self) ->
  find_bugs ast_parse fs self (Some file) = check_file ast_parse fs self file [].
Proof.
  intros Hne Hin. unfold find_bugs, files_to_check.
  rewrite (truthy_nonempty _ Hne).
  apply has_key_spec in Hin. rewrite Hin. cbn [try_fold].
  now destruct (check_file ast_parse fs self file []).
Qed.


(** C10, as amended.  For a non-empty file-path argument that is not a
    key of the file index, nothing is checked and the list of findings
    is empty; without a file-path argument, and also with the empty
    string as argument, the files checked are exactly the keys of the
    index that end with [.py], in index order. *)
Theorem find_bugs_file_selection (self : mcp) (file_path : string) :
  file_path <> "" ->
  ~ In file_path (keys self) ->
  files_to_check self (Some file_path) = []
  /\ find_bugs ast_parse fs self (Some file_path) = inr []
  /\ files_to_check self None
     = filter (fun f => endswith f ".py") (keys self)
  /\ (forall f, In f (files_to_check self None) <->
                In f (keys self) /\ exists stem, f = (stem ++ ".py")%string)
  /\ find_bugs ast_parse fs self None
     = try_fold (check_file ast_parse fs self) (files_to_check self None) []
  /\ find_bugs ast_parse fs self (Some "") = find_bugs ast_parse fs self None.
Proof.
  intros Hne Hnot.
  assert (E : files_to_check self (Some file_path) = []).
  { unfold files_to_check. rewrite (truthy_nonempty _ Hne).
    destruct (has_key self file_path) eqn:Hk; [| reflexivity].
    apply has_key_spec in Hk. contradiction. }
  split; [exact E |].
  split; [unfold find_bugs; now rewrite E |].
  split; [reflexivity |].
  split; [| split; reflexivity].
  intros f. unfold files_to_check. rewrite filter_In, endswith_spec.
  reflexivity.
Qed.

End Scanner.

(* ------------------------------------------------------------------ *)
(** ** Search *)
(* ------------------------------------------------------------------ *)

(** C7.  Searching for [abc] in a project whose only file holds the
    three lines [abc], [def], [abc] returns two matches for that file,
    the first on line 1 and the second on line 3; the context of each
    is the window of 50 characters around the match cut at the bounds
    of the text, here the whole text, which is not empty. *)
Theorem search_abc_two_matches
        (fs : string -> option string) (self : mcp) (path : string)
        (entry : file_entry) :
  files self = [(path, entry)] ->
  fs path = Some Sample.abc_text ->
  exists context1 context2,
    search_code fs self "abc"
    = inr [mk_search_result (rel_path entry)
             [mk_search_match "abc" 1 context1;
              mk_search_match "abc" 3 context2]]
    /\ context1 <> "" /\ context2 <> ""
    /\ context1
       = slice Sample.abc_text (Z.max 0 (0 - 50))
               (Z.min (Z.of_nat (String.length Sample.abc_text)) (3 + 50))
    /\ context2
       = slice Sample.abc_text (Z.max 0 (8 - 50))
               (Z.min (Z.of_nat (String.length Sample.abc_text)) (11 + 50)).
Proof.
  intros Hfiles Hfs.
  exists Sample.abc_text, Sample.abc_text.
  split; [| repeat split; discriminate].
  unfold search_code. rewrite Hfiles. cbn [try_fold].
  unfold _read_file. rewrite Hfs. reflexivity.
Qed.

(* ------------------------------------------------------------------ *)
(** ** The statements on the sample project *)
(* ------------------------------------------------------------------ *)

Module OnSamples.
Import Sample.

(** C1 on [def.py], whose one statement defines the function [f]: the
    result lists no function, no class and no method, and holds the
    message of the failed lookup. *)
Lemma top_level_function_in_neither_list_witness :
  DeclSamples.decl_parse "" = ParseOk (Ast.Module [])
  /\ DeclSamples.decl_fs "/p/def.py" = Some DeclSamples.def_text
  /\ DeclSamples.decl_parse DeclSamples.def_text
     = ParseOk DeclSamples.def_tree
  /\ In (Ast.FunctionDef 1 "f" ["a"]
           [Ast.Other "arguments" [Ast.Other "arg" []];
            Ast.Other "Pass" []])
        (Ast.module_body DeclSamples.def_tree)
  /\ analyze_python_file DeclSamples.decl_parse same_object
                         DeclSamples.decl_fs "/p/def.py"
     = Analysis (mk_analysis [] [] [] [] (Some function_message))
  /\ ~ In (mk_function_info "f" 1 ["a"])
          (result_functions
             (analyze_python_file DeclSamples.decl_parse same_object
                                  DeclSamples.decl_fs "/p/def.py")).
Proof.
  split; [reflexivity |]. split; [reflexivity |]. split; [reflexivity |].
  split; [left; reflexivity |].
  split; [vm_compute; reflexivity |].
  exact (proj1 (proj2 (top_level_function_in_neither_list
                         DeclSamples.decl_parse same_object
                         DeclSamples.decl_fs eq_refl
                         "/p/def.py" DeclSamples.def_text
                         DeclSamples.def_tree
                         (Ast.FunctionDef 1 "f" ["a"]
                            [Ast.Other "arguments" [Ast.Other "arg" []];
                             Ast.Other "Pass" []])
                         (mk_function_info "f" 1 ["a"])
                         eq_refl eq_refl (or_introl eq_refl) eq_refl))).
Defined.

(** C2 as stated fails on [assign.py]: the text parses, and ['error'] is
    set. *)
Lemma error_without_parse_failure :
  ~ (error_set
       (analyze_python_file sample_parse same_object sample_fs
                            "/p/assign.py")
     <-> parse_failed (sample_parse assign_text)).
Proof.
  intros [H _]. apply H. vm_compute. discriminate.
Qed.

(** C2 as amended, on [assign.py]. *)
Lemma error_iff_parse_or_extraction_failure_witness :
  sample_parse "" = ParseOk (Ast.Module [])
  /\ (error_set
        (analyze_python_file sample_parse same_object sample_fs
                             "/p/assign.py")
      <-> (parse_failed (sample_parse assign_text)
           \/ exists tree,
                sample_parse assign_text = ParseOk tree
                /\ extraction_raises same_object tree)).
Proof.
  split; [reflexivity |].
  exact (error_iff_parse_or_extraction_failure
           sample_parse same_object sample_fs eq_refl "/p/assign.py").
Defined.

(** C3 on [cls.py]: the loop stops at the method [f]; the result holds
    the three imports and the class collected before it, and the
    message of the failed lookup. *)
Lemma extraction_failure_keeps_declarations_witness :
  sample_parse "" = ParseOk (Ast.Module [])
  /\ sample_fs "/p/cls.py" = Some class_text
  /\ sample_parse class_text = ParseOk class_tree
  /\ extraction_raises same_object class_tree
  /\ analyze_python_file sample_parse same_object sample_fs "/p/cls.py"
     = Analysis
         (mk_analysis ["os"; "a.b"; ".y"]
            [mk_class_info "C" [mk_function_info "f" 5 ["self"]] 4]
            [] [] (Some function_message))
  /\ exists seen n rest before e a,
       Ast.walk class_tree = seen ++ n :: rest
       /\ Step.for_each (visit same_object class_tree) seen analysis0
          = (before, inr tt)
       /\ visit same_object class_tree n before = (before, inl e)
       /\ analyze_python_file sample_parse same_object sample_fs "/p/cls.py"
          = Analysis a
       /\ error a = Some (str_exn e)
       /\ str_exn e
          = ("'" ++ Ast.class_name n
                 ++ "' object has no attribute 'parent'")%string
       /\ imports a = imports before
       /\ classes a = classes before
       /\ functions a = functions before
       /\ variables a = variables before
       /\ imports a = flat_map import_names seen
       /\ classes a = flat_map class_decls seen.
Proof.
  assert (Hraise : extraction_raises same_object class_tree).
  { eexists. eexists. vm_compute. reflexivity. }
  split; [reflexivity |]. split; [reflexivity |]. split; [reflexivity |].
  split; [exact Hraise |].
  split; [vm_compute; reflexivity |].
  exact (extraction_failure_keeps_declarations
           sample_parse same_object sample_fs eq_refl
           "/p/cls.py" class_text class_tree eq_refl eq_refl Hraise).
Defined.



(** C5 on [except.py], where [except:] stands on line 3. *)
Lemma heuristic_finding_line_witness :
  sample_fs "/p/except.py" = Some except_text
  /\ sample_parse except_text = ParseOk except_tree
  /\ getitem sample_mcp "/p/except.py"
     = inr (mk_file_entry "/p/except.py" "except.py" "py" 31)
  /\ exists found,
       check_file sample_parse sample_fs sample_mcp "/p/except.py" []
       = inr found
       /\ In (mk_finding "except.py" (Some 3%Z) "Bare except clause"
                         "Use specific exceptions")
             found.
Proof.
  split; [reflexivity |]. split; [reflexivity |]. split; [reflexivity |].
  destruct (heuristic_finding_line
              sample_parse sample_fs sample_mcp "/p/except.py" except_text
              except_tree
              (mk_file_entry "/p/except.py" "except.py" "py" 31)
              eq_refl eq_refl eq_refl)
    as (found & Hfound & _ & _ & Hexcept).
  exists found. split; [exact Hfound |].
  apply (Hexcept ("try:" ++ nl ++ "    pass" ++ nl)%string
                 (nl ++ "    pass" ++ nl)%string);
    reflexivity.
Defined.

(** C6 on [print.py]. *)
Lemma findings_in_rule_then_match_order_witness :
  sample_fs "/p/print.py" = Some print_text
  /\ sample_parse print_text = ParseOk print_tree
  /\ getitem sample_mcp "/p/print.py"
     = inr (mk_file_entry "/p/print.py" "print.py" "py" 40)
  /\ check_file sample_parse sample_fs sample_mcp "/p/print.py" []
     = inr (flat_map (findings_of_rule "print.py" print_text) patterns).
Proof.
  split; [reflexivity |]. split; [reflexivity |]. split; [reflexivity |].
  exact (proj1 (findings_in_rule_then_match_order
                  sample_parse sample_fs sample_mcp "/p/print.py"
                  print_text print_tree
                  (mk_file_entry "/p/print.py" "print.py" "py" 40) []
                  eq_refl eq_refl eq_refl)).
Defined.

(** C7 on the one-file project. *)
Lemma search_abc_two_matches_witness :
  files abc_mcp
  = [("/p/abc.txt", mk_file_entry "/p/abc.txt" "abc.txt" "txt" 11)]
  /\ sample_fs "/p/abc.txt" = Some abc_text
  /\ search_code sample_fs abc_mcp "abc"
     = inr [mk_search_result "abc.txt"
              [mk_search_match "abc" 1 abc_text;
               mk_search_match "abc" 3 abc_text]].
Proof.
  split; [reflexivity |]. split; [reflexivity |].
  destruct (search_abc_two_matches
              sample_fs abc_mcp "/p/abc.txt"
              (mk_file_entry "/p/abc.txt" "abc.txt" "txt" 11)
              eq_refl eq_refl)
    as (c1 & c2 & E & _ & _ & -> & ->).
  exact E.
Defined.

(** C8 on [cls.py]: [from a import b] and [from . import y]. *)
Lemma from_import_qualified_witness :
  sample_parse "" = ParseOk (Ast.Module [])
  /\ sample_fs "/p/cls.py" = Some class_text
  /\ sample_parse class_text = ParseOk class_tree
  /\ Ast.walk class_tree
     = firstn 2 (Ast.walk class_tree)
       ++ Ast.ImportFrom 2 (Some "a") [Ast.mk_alias "b" None]
       :: skipn 3 (Ast.walk class_tree)
  /\ Ast.walk class_tree
     = firstn 3 (Ast.walk class_tree)
       ++ Ast.ImportFrom 3 None [Ast.mk_alias "y" None]
       :: skipn 4 (Ast.walk class_tree)
  /\ forallb (fun n => negb (raising n)) (firstn 3 (Ast.walk class_tree))
     = true
  /\ In "a.b"
        (result_imports
           (analyze_python_file sample_parse same_object sample_fs
                                "/p/cls.py"))
  /\ In ".y"
        (result_imports
           (analyze_python_file sample_parse same_object sample_fs
                                "/p/cls.py")).
Proof.
  split; [reflexivity |]. split; [reflexivity |]. split; [reflexivity |].
  split; [vm_compute; reflexivity |]. split; [vm_compute; reflexivity |].
  split; [vm_compute; reflexivity |].
  split.
  - exact (from_import_qualified
             sample_parse same_object sample_fs eq_refl
             "/p/cls.py" class_text class_tree
             (firstn 2 (Ast.walk class_tree))
             (skipn 3 (Ast.walk class_tree))
             2%Z (Some "a") [Ast.mk_alias "b" None] (Ast.mk_alias "b" None)
             eq_refl eq_refl eq_refl eq_refl (or_introl eq_refl)).
  - exact (from_import_qualified
             sample_parse same_object sample_fs eq_refl
             "/p/cls.py" class_text class_tree
             (firstn 3 (Ast.walk class_tree))
             (skipn 4 (Ast.walk class_tree))
             3%Z None [Ast.mk_alias "y" None] (Ast.mk_alias "y" None)
             eq_refl eq_refl eq_refl eq_refl (or_introl eq_refl)).
Defined.

(** C9 as stated fails on [ann.py]: the text parses, its one statement
    is an assignment at the top level, and ['error'] is not set. *)
Lemma annotated_assignment_sets_no_error :
  ~ (forall tree,
       DeclSamples.decl_parse DeclSamples.ann_text = ParseOk tree ->
       (exists n, Ast.subnode n tree /\ is_function_definition n = true)
       \/ (exists n, In n (Ast.module_body tree)
                     /\ is_assignment_statement n = true) ->
       error_set (analyze_python_file DeclSamples.decl_parse same_object
                                      DeclSamples.decl_fs "/p/ann.py")).
Proof.
  intros H. specialize (H DeclSamples.ann_tree eq_refl).
  assert (Hassign : exists n, In n (Ast.module_body DeclSamples.ann_tree)
                              /\ is_assignment_statement n = true).
  { eexists. split; [left; reflexivity | reflexivity]. }
  specialize (H (or_intror Hassign)). vm_compute in H. now apply H.
Qed.

(** Likewise on [async.py], whose one statement defines a coroutine. *)
Lemma async_def_sets_no_error :
  DeclSamples.decl_parse DeclSamples.async_text
  = ParseOk DeclSamples.async_tree
  /\ (exists n, Ast.subnode n DeclSamples.async_tree
                /\ is_function_definition n = true)
  /\ analyze_python_file DeclSamples.decl_parse same_object
                         DeclSamples.decl_fs "/p/async.py"
     = Analysis (mk_analysis [] [] [] [] None).
Proof.
  split; [reflexivity |]. split; [| vm_compute; reflexivity].
  exists (Ast.AsyncFunctionDef 1 "g" []
            [Ast.Other "arguments" []; Ast.Other "Pass" []]).
  split; [| reflexivity].
  eapply Ast.subnode_child; [left; reflexivity | constructor].
Qed.

(** C9 as amended, on [assign.py]: an assignment [x = 1] among the
    statements of the module. *)
Lemma function_or_assignment_sets_error_witness :
  sample_parse "" = ParseOk (Ast.Module [])
  /\ sample_fs "/p/assign.py" = Some assign_text
  /\ sample_parse assign_text = ParseOk assign_tree
  /\ (exists n, In n (Ast.module_body assign_tree) /\ is_Assign n = true)
  /\ error_set
       (analyze_python_file sample_parse same_object sample_fs
                            "/p/assign.py")
  /\ result_functions
       (analyze_python_file sample_parse same_object sample_fs
                            "/p/assign.py") = []
  /\ result_variables
       (analyze_python_file sample_parse same_object sample_fs
                            "/p/assign.py") = [].
Proof.
  assert (Hassign : exists n, In n (Ast.module_body assign_tree)
                              /\ is_Assign n = true).
  { eexists. split; [left; reflexivity | reflexivity]. }
  split; [reflexivity |]. split; [reflexivity |]. split; [reflexivity |].
  split; [exact Hassign |].
  exact (function_or_assignment_sets_error
           sample_parse same_object sample_fs eq_refl
           "/p/assign.py" assign_text assign_tree eq_refl eq_refl
           (or_intror Hassign)).
Defined.

Lemma empty_path_not_indexed : ~ In "" (keys sample_mcp).
Proof. simpl. intuition discriminate. Qed.

(** C10 as stated fails for the empty string: it is not a key of the
    index, and the scanner checks every [.py] file. *)
Lemma empty_path_scans_every_file :
  ~ (~ In "" (keys sample_mcp) ->
     find_bugs sample_parse sample_fs sample_mcp (Some "") = inr []).
Proof.
  intros H. specialize (H empty_path_not_indexed).
  vm_compute in H. discriminate H.
Qed.

(** C10 as amended, for a path that is not indexed. *)
Lemma find_bugs_file_selection_witness :
  "/p/nothere.py" <> ""
  /\ ~ In "/p/nothere.py" (keys sample_mcp)
  /\ find_bugs sample_parse sample_fs sample_mcp (Some "/p/nothere.py")
     = inr []
  /\ files_to_check sample_mcp None
     = ["/p/assign.py"; "/p/cls.py"; "/p/broken.py"; "/p/print.py";
        "/p/except.py"; "/p/gone.py"].
Proof.
  assert (Hnot : ~ In "/p/nothere.py" (keys sample_mcp)).
  { simpl. intuition discriminate. }
  split; [discriminate |]. split; [exact Hnot |].
  destruct (find_bugs_file_selection
              sample_parse sample_fs sample_mcp "/p/nothere.py"
              ltac:(discriminate) Hnot)
    as (_ & Hempty & Hall & _).
  split; [exact Hempty |]. rewrite Hall. reflexivity.
Defined.

End OnSamples.

(* ------------------------------------------------------------------ *)
(** ** More on the structural analyzer *)
(* ------------------------------------------------------------------ *)

Section AnalyzerMore.

Variable ast_parse : string -> parse_outcome.
Variable same_object : Ast.node -> Ast.node -> bool.
Variable fs : string -> option string.

(** X1.  Whatever the file and whatever the parser answers, the result
    lists no function and no variable. *)
Theorem analysis_never_lists_functions_or_variables (path : string) :
  result_functions (analyze_python_file ast_parse same_object fs path) = []
  /\ result_variables (analyze_python_file ast_parse same_object fs path)
     = [].
Proof.
  unfold analyze_python_file.
  destruct (negb (truthy (_read_file fs path))); [split; reflexivity |].
  simpl. unfold analyze_content.
  destruct (ast_parse (_read_file fs path)) as [tree | lineno msg | e] eqn:Hp;
    [| split; reflexivity | split; reflexivity].
  destruct (first_raising (Ast.walk tree))
    as [Hq | (seen & n & rest & E & Hq & Hr)].
  - rewrite (loop_all_quiet _ _ _ Hq). split; reflexivity.
  - rewrite E, (loop_first_raising _ _ _ _ _ Hq Hr). split; reflexivity.
Qed.

(** X2.  For a non-empty text whose tree holds no function definition
    and no assignment: the result has no ['error'], and its imports and
    classes are those of all the nodes of the tree, at any depth, in the
    breadth-first order of the walk. *)
Theorem analysis_of_tree_without_def_or_assignment
        (path content : string) (tree : Ast.node) :
  fs path = Some content ->
  content <> "" ->
  ast_parse content = ParseOk tree ->
  (forall n, Ast.subnode n tree -> raising n = false) ->
  analyze_python_file ast_parse same_object fs path
  = Analysis (mk_analysis (flat_map import_names (Ast.walk tree))
                          (flat_map class_decls (Ast.walk tree))
                          [] [] None)
  /\ (forall n s, Ast.subnode n tree -> In s (import_names n) ->
        In s (result_imports
                (analyze_python_file ast_parse same_object fs path)))
  /\ (forall n c, Ast.subnode n tree -> In c (class_decls n) ->
        In c (result_classes
                (analyze_python_file ast_parse same_object fs path))).
Proof.
  intros Hfs Hne Hp Hquiet.
  assert (Hq : forallb (fun n => negb (raising n)) (Ast.walk tree) = true).
  { apply forallb_forall. intros n Hin.
    apply AstFacts.walk_subnode in Hin. now rewrite (Hquiet _ Hin). }
  assert (E : analyze_python_file ast_parse same_object fs path
              = Analysis (collected (Ast.walk tree))).
  { rewrite (analyze_readable _ _ _ _ _ Hfs Hne).
    unfold analyze_content. rewrite Hp.
    now rewrite (loop_all_quiet _ _ _ Hq). }
  rewrite E. split; [reflexivity |]. simpl.
  split; intros n x Hsub Hin; apply in_flat_map; exists n;
    (split; [now apply AstFacts.walk_subnode | exact Hin]).
Qed.

Lemma raising_class_name (n : Ast.node) :
  raising n = true ->
  Ast.class_name n = "FunctionDef" \/ Ast.class_name n = "Assign".
Proof. destruct n; try discriminate; simpl; auto. Qed.

(** X3.  After a clean parse, ['error'] is absent or is one of two
    messages: the one of a function definition or the one of an
    assignment, whichever the walk meets first. *)
Theorem error_after_clean_parse (content : string) (tree : Ast.node) :
  ast_parse content = ParseOk tree ->
  (error (analyze_content ast_parse same_object content) = None
   /\ forall n, Ast.subnode n tree -> raising n = false)
  \/ (exists seen n rest,
        Ast.walk tree = seen ++ n :: rest
        /\ forallb (fun m => negb (raising m)) seen = true
        /\ ((is_FunctionDef n = true
             /\ error (analyze_content ast_parse same_object content)
                = Some function_message)
            \/ (is_Assign n = true
                /\ error (analyze_content ast_parse same_object content)
                   = Some assign_message))).
Proof.
  intros Hp.
  destruct (analyze_content_ok _ same_object _ _ Hp)
    as (seen & rest & Hw & Hq & [[-> E] | (n & rest' & -> & Hr & E)]);
    rewrite E.
  - left. split; [reflexivity |]. intros n Hsub.
    apply AstFacts.walk_subnode in Hsub. rewrite Hw, app_nil_r in Hsub.
    rewrite forallb_forall in Hq. specialize (Hq _ Hsub).
    now apply negb_true_iff in Hq.
  - right. exists seen, n, rest'. split; [exact Hw |]. split; [exact Hq |].
    destruct n; try discriminate Hr; simpl; auto.
Qed.

End AnalyzerMore.

(* ------------------------------------------------------------------ *)
(** ** More facts about strings and matching *)
(* ------------------------------------------------------------------ *)

Lemma count_substring_le (c : ascii) (n : nat) (s : string) :
  count c (substring 0 n s) <= count c s.
Proof.
  revert n. induction s as [|d s IH]; intros n; destruct n; simpl; try lia.
  specialize (IH n). lia.
Qed.

Lemma substring_cat (a m n : nat) (s : string) :
  substring a (m + n) s
  = (substring a m s ++ substring (a + m) n s)%string.
Proof.
  revert a m. induction s as [|c s IH]; intros a m.
  - destruct a, m; simpl; try reflexivity; now destruct n.
  - destruct a as [|a].
    + destruct m as [|m]; simpl; [reflexivity |].
      now rewrite (IH 0 m).
    + simpl. apply IH.
Qed.

Lemma substring_empty (a : nat) (s : string) : substring a 0 s = "".
Proof.
  revert a. induction s as [|c s IH]; intros [|a]; simpl; auto.
Qed.

Lemma substring_length_exact (a n : nat) (s : string) :
  a + n <= String.length s -> String.length (substring a n s) = n.
Proof.
  revert a n. induction s as [|c s IH]; intros a n H; simpl in H.
  - assert (a = 0) by lia. assert (n = 0) by lia. subst. reflexivity.
  - destruct a as [|a].
    + destruct n as [|n]; simpl; [reflexivity |].
      f_equal. apply (IH 0 n). lia.
    + simpl. apply IH. lia.
Qed.

Lemma substring_length_le (a n : nat) (s : string) :
  String.length (substring a n s) <= n.
Proof.
  revert a n. induction s as [|c s IH]; intros a n.
  - destruct a, n; simpl; lia.
  - destruct a as [|a].
    + destruct n as [|n]; simpl; [lia |]. specialize (IH 0 n). lia.
    + simpl. apply IH.
Qed.

Lemma string_of_list_ascii_app (a b : list ascii) :
  string_of_list_ascii (a ++ b)
  = (string_of_list_ascii a ++ string_of_list_ascii b)%string.
Proof. induction a as [|c a IH]; simpl; [reflexivity | now rewrite IH]. Qed.

Lemma string_of_list_ascii_length (a : list ascii) :
  String.length (string_of_list_ascii a) = length a.
Proof. induction a as [|c a IH]; simpl; [reflexivity | now rewrite IH]. Qed.

Lemma fold_left_append_map {A B : Type} (f : A -> B) (l : list A)
      (acc : list B) :
  fold_left (fun acc x => acc ++ [f x]) l acc = acc ++ map f l.
Proof.
  revert acc. induction l as [|x l IH]; intros acc; simpl.
  - now rewrite app_nil_r.
  - rewrite IH. now rewrite <- app_assoc.
Qed.

Module ReBounds.
Import Re.

Lemma run_le (a : atom) (s : list ascii) : run a s <= length s.
Proof.
  induction s as [|c s IH]; simpl; [lia |].
  destruct (atom_matches a c); simpl; lia.
Qed.

Lemma backtrack_some (k lo : nat) (try : nat -> option nat) (e : nat) :
  backtrack k lo try = Some e -> exists j, j <= k /\ try j = Some e.
Proof.
  induction k as [|k IH]; simpl.
  - destruct (0 <? lo)%nat; [discriminate |].
    destruct (try 0) eqn:E; [| discriminate].
    intros [= <-]. exists 0. auto.
  - destruct (S k <? lo)%nat; [discriminate |].
    destruct (try (S k)) eqn:E.
    + intros [= <-]. exists (S k). auto.
    + intros H. destruct (IH H) as (j & Hj & Hs). exists j. split; [lia |].
      exact Hs.
Qed.

(** A match consumes characters of the text, no more than there are. *)
Lemma match_items_bounds (r : regex) :
  forall (s : list ascii) (k : nat) (accept : nat -> bool) (e : nat),
    match_items r s k accept = Some e -> k <= e <= k + length s.
Proof.
  induction r as [|[a q] r IH]; intros s k accept e; simpl.
  - destruct (accept k); [| discriminate]. intros [= <-]. lia.
  - assert (Hrep : forall hi,
               hi <= length s ->
               forall lo,
                 backtrack hi lo
                   (fun j => match_items r (skipn j s) (k + j) accept)
                 = Some e -> k <= e <= k + length s).
    { intros hi Hhi lo H. apply backtrack_some in H.
      destruct H as (j & Hj & H). apply IH in H.
      rewrite length_skipn in H. lia. }
    destruct q.
    + destruct s as [|c s]; [discriminate |].
      destruct (atom_matches a c); [| discriminate].
      intros H. apply IH in H. simpl. lia.
    + apply Hrep. apply run_le.
    + apply Hrep. apply run_le.
    + apply Hrep. pose proof (run_le a s).
      destruct (run a s); simpl; lia.
Qed.

(** The matches of the scanner lie inside the text. *)
Lemma scan_bounds (r : regex) (s : list ascii) :
  forall pos skip m,
    In m (scan r s pos skip) ->
    pos <= m_start m /\ m_start m <= m_end m
    /\ m_end m <= pos + length s.
Proof.
  induction s as [|c s IH]; intros pos skip m.
  - destruct skip as [|k]; simpl; [| tauto].
    destruct (match_items r [] 0 (fun _ => true)) as [[|len]|] eqn:E1;
      simpl; try tauto.
    + destruct (match_items r [] 0 (fun e => (0 <? e)%nat)) as [len|] eqn:E2;
        simpl.
      * apply match_items_bounds in E2. simpl in E2.
        intros [<- | [<- | []]]; simpl; lia.
      * intros [<- | []]; simpl; lia.
    + apply match_items_bounds in E1. simpl in E1. lia.
  - destruct skip as [|k]; cbn [scan].
    + destruct (match_items r (c :: s) 0 (fun _ => true)) as [[|len]|] eqn:E1.
      * destruct (match_items r (c :: s) 0 (fun e => (0 <? e)%nat))
          as [len|] eqn:E2.
        -- apply match_items_bounds in E2. simpl in E2.
           intros [<- | [<- | Hin]]; simpl; try lia.
           apply IH in Hin. simpl. lia.
        -- intros [<- | Hin]; simpl; [lia |].
           apply IH in Hin. simpl. lia.
      * apply match_items_bounds in E1. simpl in E1.
        intros [<- | Hin]; simpl; [lia |].
        apply IH in Hin. simpl. lia.
      * intros Hin. apply IH in Hin. simpl. lia.
    + intros Hin. apply IH in Hin. simpl. lia.
Qed.

Lemma finditer_bounds (pattern content : string) (ms : list re_match)
      (m : re_match) :
  finditer pattern content = Some ms -> In m ms ->
  m_start m <= m_end m /\ m_end m <= String.length content.
Proof.
  unfold finditer. destruct (compile pattern) as [r|]; [| discriminate].
  intros [= <-] Hin. apply scan_bounds in Hin.
  rewrite list_ascii_length in Hin. lia.
Qed.

(** A literal pattern is reported only where the text holds it. *)
Lemma scan_literal_sound (l : list ascii) :
  l <> [] ->
  forall (s : list ascii) (pos skip : nat) (m : re_match),
    In m (scan (literal l) s pos skip) ->
    exists j,
      skip <= j /\ m_start m = pos + j /\ m_end m = pos + j + length l
      /\ starts_with l (skipn j s) = true.
Proof.
  intros Hl. induction s as [|c s IH]; intros pos skip m.
  - destruct skip as [|k]; cbn [scan]; [| intros []].
    rewrite !ReFacts.match_literal.
    destruct l; [congruence | intros []].
  - destruct skip as [|k]; cbn [scan].
    + rewrite !ReFacts.match_literal. simpl (0 + _).
      destruct (starts_with l (c :: s)) eqn:H0.
      * remember (length l) as len eqn:Hlen in |- *.
        destruct len as [|n].
        { destruct l; [congruence | discriminate]. }
        intros [<- | Hin].
        -- exists 0. simpl. repeat split; try lia. exact H0.
        -- apply IH in Hin. destruct Hin as (j & Hj & Hs & He & Hocc).
           exists (S j). simpl. repeat split; try lia. exact Hocc.
      * intros Hin. apply IH in Hin. destruct Hin as (j & Hj & Hs & He & Hocc).
        exists (S j). simpl. repeat split; try lia. exact Hocc.
    + intros Hin. apply IH in Hin. destruct Hin as (j & Hj & Hs & He & Hocc).
      exists (S j). simpl. repeat split; try lia. exact Hocc.
Qed.

End ReBounds.

(* ------------------------------------------------------------------ *)
(** ** More on search *)
(* ------------------------------------------------------------------ *)

Section SearchMore.

Variable fs : string -> option string.

(** The loop of [search_code] over a pattern that [Re] reads. *)
Lemma search_loop (pattern : string) :
  Re.compile pattern <> None ->
  forall (items : list (string * file_entry)) (results : list search_result),
    try_fold
      (fun (item : string * file_entry) results =>
         let (file_path, file_info) := item in
         let content := _read_file fs file_path in
         try_bind (re_finditer pattern content) (fun matches =>
         let file_matches :=
           fold_left (fun acc m => acc ++ [search_match_of content m])
                     matches [] in
         match file_matches with
         | [] => inr results
         | _ => inr (results ++
                     [mk_search_result (rel_path file_info) file_matches])
         end))
      items results
    = inr (results ++ flat_map (file_search fs pattern) items).
Proof.
  intros Hc. induction items as [|[path entry] items IH]; intros results;
    cbn [try_fold flat_map].
  - now rewrite app_nil_r.
  - unfold re_finditer at 1.
    rewrite (finditer_matches_of _ (_read_file fs path) Hc).
    cbn [try_bind]. cbv zeta. rewrite fold_left_append_map. simpl app.
    unfold file_search at 1. cbn [fst snd]. cbv zeta.
    destruct (map (search_match_of (_read_file fs path))
                  (matches_of pattern (_read_file fs path)))
      as [|x xs] eqn:E; cbn [try_bind].
    + rewrite IH. reflexivity.
    + rewrite IH. now rewrite <- app_assoc.
Qed.

Lemma search_code_flat (self : mcp) (pattern : string) :
  Re.compile pattern <> None ->
  search_code fs self pattern
  = inr (flat_map (file_search fs pattern) (files self)).
Proof.
  intros Hc. unfold search_code. now rewrite (search_loop _ Hc).
Qed.

Lemma in_file_search (pattern : string) (item : string * file_entry)
      (r : search_result) :
  In r (file_search fs pattern item) ->
  r = mk_search_result (rel_path (snd item))
        (map (search_match_of (_read_file fs (fst item)))
             (matches_of pattern (_read_file fs (fst item))))
  /\ matches_of pattern (_read_file fs (fst item)) <> [].
Proof.
  unfold file_search. cbv zeta.
  destruct (matches_of pattern (_read_file fs (fst item))) as [|m ms];
    simpl; [tauto |].
  intros [<- | []]. split; [reflexivity | discriminate].
Qed.

(** X4.  For a pattern that is read: the result of a search holds, in
    index order, one entry for each indexed file whose text has a match
    (an unreadable file counting as the empty text), with the matches
    of that file in the order [finditer] yields them; a file without a
    match has no entry, so no entry has an empty list of matches. *)
Theorem search_code_per_file (self : mcp) (pattern : string) :
  Re.compile pattern <> None ->
  search_code fs self pattern
  = inr (flat_map (file_search fs pattern) (files self))
  /\ (forall r,
        In r (flat_map (file_search fs pattern) (files self)) ->
        sr_matches r <> [])
  /\ length (flat_map (file_search fs pattern) (files self))
     <= length (files self).
Proof.
  intros Hc. split; [now apply search_code_flat |]. split.
  - intros r Hin. apply in_flat_map in Hin. destruct Hin as (item & _ & Hr).
    apply in_file_search in Hr. destruct Hr as [-> Hne]. simpl.
    destruct (matches_of pattern (_read_file fs (fst item)));
      [congruence | discriminate].
  - induction (files self) as [|item items IH]; simpl; [lia |].
    rewrite length_app. unfold file_search at 1. cbv zeta.
    destruct (map _ _); simpl; lia.
Qed.

(** The window cut around a match that lies inside the text: the text
    is [head], [pre], the match, [post] and [tail] in a row, and the
    context is what stands between [head] and [tail]. *)
Lemma window_around_match (content : string) (m : Re.re_match) :
  Re.m_start m <= Re.m_end m -> Re.m_end m <= String.length content ->
  exists head pre post tail,
    content
    = (head ++ pre ++ sm_match (search_match_of content m)
            ++ post ++ tail)%string
    /\ sm_context (search_match_of content m)
       = (pre ++ sm_match (search_match_of content m) ++ post)%string
    /\ sm_line (search_match_of content m)
       = (Z.of_nat (count Re.newline (head ++ pre)) + 1)%Z
    /\ String.length pre <= 50 /\ String.length post <= 50
    /\ (head = "" \/ String.length pre = 50)
    /\ (tail = "" \/ String.length post = 50).
Proof.
  intros Hse Hel. destruct m as [s e]. simpl in *.
  unfold slice, Re.group0, line_number. simpl.
  set (len := String.length content) in *.
  set (lo := Z.to_nat (Z.max 0 (Z.of_nat s - 50))).
  set (hi := Z.to_nat (Z.min (Z.of_nat len) (Z.of_nat e + 50))).
  assert (Hlo : lo = s - 50) by (unfold lo; lia).
  assert (Hhi : hi = Nat.min len (e + 50)) by (unfold hi; lia).
  exists (substring 0 lo content), (substring lo (s - lo) content),
         (substring e (hi - e) content), (substring hi (len - hi) content).
  split; [| split; [| split; [| split; [| split; [| split]]]]].
  - pose proof (substring_split lo content ltac:(fold len; lia)) as Hs.
    fold len in Hs.
    replace (len - lo)
      with ((s - lo) + ((e - s) + ((hi - e) + (len - hi)))) in Hs by lia.
    rewrite !substring_cat in Hs.
    replace (lo + (s - lo)) with s in Hs by lia.
    replace (s + (e - s)) with e in Hs by lia.
    replace (e + (hi - e)) with hi in Hs by lia.
    exact Hs.
  - replace (Z.to_nat (Z.min (Z.of_nat len) (Z.of_nat e + 50)
                       - Z.max 0 (Z.of_nat s - 50)))
      with ((s - lo) + ((e - s) + (hi - e))) by (unfold hi, lo; lia).
    rewrite !substring_cat.
    replace (lo + (s - lo)) with s by lia.
    replace (s + (e - s)) with e by lia.
    reflexivity.
  - replace s with (lo + (s - lo)) at 1 by lia.
    rewrite substring_cat. reflexivity.
  - pose proof (substring_length_le lo (s - lo) content). lia.
  - pose proof (substring_length_le e (hi - e) content). lia.
  - destruct (Nat.le_gt_cases s 50) as [Hle | Hgt].
    + left. replace lo with 0 by lia. apply substring_empty.
    + right. rewrite substring_length_exact; fold len; lia.
  - destruct (Nat.le_gt_cases len (e + 50)) as [Hle | Hgt].
    + left. replace (len - hi) with 0 by lia. apply substring_empty.
    + right. rewrite substring_length_exact; fold len; lia.
Qed.

(** X5.  For a pattern that is read: every match reported by a search
    stands in an entry named after an indexed file, whose text is
    [head], [pre], the matched text, [post] and [tail] in a row, where
    the context of the match is [pre], the matched text and [post]; the
    line of the match is the number of newline characters before the
    match, plus one; [pre] and [post] have at most 50 characters, and
    exactly 50 unless the window is cut at the start or at the end of
    the text. *)
Theorem search_match_window
        (self : mcp) (pattern : string) (results : list search_result)
        (r : search_result) (m : search_match) :
  Re.compile pattern <> None ->
  search_code fs self pattern = inr results ->
  In r results -> In m (sr_matches r) ->
  exists path entry head pre post tail,
    In (path, entry) (files self) /\ sr_file r = rel_path entry
    /\ _read_file fs path
       = (head ++ pre ++ sm_match m ++ post ++ tail)%string
    /\ sm_context m = (pre ++ sm_match m ++ post)%string
    /\ sm_line m = (Z.of_nat (count Re.newline (head ++ pre)) + 1)%Z
    /\ String.length pre <= 50 /\ String.length post <= 50
    /\ (head = "" \/ String.length pre = 50)
    /\ (tail = "" \/ String.length post = 50).
Proof.
  intros Hc Hs Hr Hm. rewrite (search_code_flat _ _ Hc) in Hs.
  injection Hs as <-.
  apply in_flat_map in Hr. destruct Hr as ([path entry] & Hitem & Hr).
  apply in_file_search in Hr. destruct Hr as [-> Hne]. simpl in *.
  apply in_map_iff in Hm. destruct Hm as (rm & <- & Hrm).
  assert (Hb : Re.m_start rm <= Re.m_end rm
               /\ Re.m_end rm <= String.length (_read_file fs path)).
  { unfold matches_of in Hrm.
    destruct (Re.finditer pattern (_read_file fs path)) as [ms|] eqn:E;
      [| destruct Hrm].
    eapply ReBounds.finditer_bounds; eassumption. }
  destruct (window_around_match (_read_file fs path) rm
                                (proj1 Hb) (proj2 Hb))
    as (head & pre & post & tail & H).
  exists path, entry, head, pre, post, tail.
  split; [exact Hitem |]. split; [reflexivity | exact H].
Qed.

End SearchMore.

(* ------------------------------------------------------------------ *)
(** ** More on the pattern scanner *)
(* ------------------------------------------------------------------ *)

Lemma in_keys_getitem (self : mcp) (key : string) :
  In key (keys self) -> exists entry, getitem self key = inr entry.
Proof.
  unfold keys, getitem. intros Hin.
  destruct (find (fun kv => String.eqb key (fst kv)) (files self))
    as [kv|] eqn:Hf; [eauto |].
  apply in_map_iff in Hin. destruct Hin as (kv & <- & Hkv).
  pose proof (find_none _ _ Hf _ Hkv) as Hn. simpl in Hn.
  now rewrite String.eqb_refl in Hn.
Qed.

Lemma files_to_check_keys (self : mcp) (file_path : option string)
      (file : string) :
  In file (files_to_check self file_path) -> In file (keys self).
Proof.
  unfold files_to_check.
  destruct file_path as [p|];
    [destruct (truthy p); [destruct (has_key self p) eqn:Hk |] |].
  - intros [<- | []]. now apply has_key_spec.
  - intros [].
  - intros Hin. now apply filter_In in Hin.
  - intros Hin. now apply filter_In in Hin.
Qed.

Lemma flat_map_agree {A B : Type} (f g : A -> list B) (l : list A) :
  (forall x, In x l -> f x = g x) -> flat_map f l = flat_map g l.
Proof.
  induction l as [|x l IH]; intros H; simpl; [reflexivity |].
  rewrite (H x (or_introl eq_refl)), IH; [reflexivity |].
  intros y Hy. apply H. now right.
Qed.

Lemma truthy_eqb (s : string) : negb (truthy s) = String.eqb s "".
Proof. unfold truthy. now rewrite negb_involutive. Qed.

Section ScannerMore.

Variable ast_parse : string -> parse_outcome.
Variable fs : string -> option string.

(** One indexed file either contributes its findings or passes on what
    the parser raises. *)
Lemma check_file_cases (self : mcp) (file : string) (bugs : list finding) :
  In file (keys self) ->
  (check_file ast_parse fs self file bugs
   = inr (bugs ++ file_findings ast_parse fs self file)
   /\ (_read_file fs file = ""
       \/ ~ parser_raises (ast_parse (_read_file fs file))))
  \/ (exists e,
        _read_file fs file <> ""
        /\ ast_parse (_read_file fs file) = ParseRaises e
        /\ check_file ast_parse fs self file bugs = inl e).
Proof.
  intros Hin. destruct (in_keys_getitem _ _ Hin) as (entry & Hget).
  unfold check_file, file_findings, rel_path_of. cbv zeta.
  rewrite truthy_eqb, Hget.
  destruct (String.eqb_spec (_read_file fs file) "") as [E | Hne].
  - left. rewrite app_nil_r. auto.
  - destruct (ast_parse (_read_file fs file)) as [tree | lineno msg | e]
      eqn:Hp.
    + left. split; [| right; simpl; tauto].
      unfold scan_patterns. apply rule_loop; [exact Hget |].
      apply patterns_compile.
    + left. split; [reflexivity | right; simpl; tauto].
    + right. exists e. auto.
Qed.

Lemma check_loop (self : mcp) (l : list string) :
  (forall file, In file l -> In file (keys self)) ->
  forall bugs,
    (try_fold (check_file ast_parse fs self) l bugs
     = inr (bugs ++ flat_map (file_findings ast_parse fs self) l)
     /\ forall file, In file l ->
          _read_file fs file = ""
          \/ ~ parser_raises (ast_parse (_read_file fs file)))
    \/ (exists e file,
          In file l /\ _read_file fs file <> ""
          /\ ast_parse (_read_file fs file) = ParseRaises e
          /\ try_fold (check_file ast_parse fs self) l bugs = inl e).
Proof.
  induction l as [|file l IH]; intros Hkeys bugs; cbn [try_fold flat_map].
  - left. rewrite app_nil_r. split; [reflexivity | intros ? []].
  - destruct (check_file_cases self file bugs (Hkeys _ (or_introl eq_refl)))
      as [[E Hok] | (e & Hne & Hp & E)]; rewrite E; cbn [try_bind].
    + destruct (IH (fun f Hf => Hkeys f (or_intror Hf))
                   (bugs ++ file_findings ast_parse fs self file))
        as [[E' Hok'] | (e & f & Hf & Hne & Hp & E')]; rewrite E'.
      * left. split; [now rewrite <- app_assoc |].
        intros f [<- | Hf]; auto.
      * right. exists e, f. repeat split; auto. now right.
    + right. exists e, file. repeat split; auto. now left.
Qed.

(** X6.  When the parser raises nothing but [SyntaxError] on the texts
    of the files to check, [find_bugs] returns, and its list is made of
    the findings of the first file to check, then those of the second,
    and so on: nothing for an unreadable or empty file, the one
    ['Syntax Error'] finding for a file with a syntax error, the
    findings of the rule table for a file with a clean parse. *)
Theorem find_bugs_per_file (self : mcp) (file_path : option string) :
  (forall file, In file (files_to_check self file_path) ->
     ~ parser_raises (ast_parse (_read_file fs file))) ->
  find_bugs ast_parse fs self file_path
  = inr (flat_map (file_findings ast_parse fs self)
                  (files_to_check self file_path)).
Proof.
  intros Hok. unfold find_bugs.
  destruct (check_loop self (files_to_check self file_path)
                       (files_to_check_keys self file_path) [])
    as [[E _] | (e & file & Hin & _ & Hp & _)]; [exact E |].
  specialize (Hok _ Hin). rewrite Hp in Hok. simpl in Hok. tauto.
Qed.

(** X7.  [find_bugs] raises only what the parser raises on the text of
    a file to check: no [KeyError] from the index, no error from the
    rule table. *)
Theorem find_bugs_raises_only_parser_errors
        (self : mcp) (file_path : option string) (e : exn) :
  find_bugs ast_parse fs self file_path = inl e ->
  exists file,
    In file (files_to_check self file_path)
    /\ _read_file fs file <> ""
    /\ ast_parse (_read_file fs file) = ParseRaises e.
Proof.
  unfold find_bugs. intros H.
  destruct (check_loop self (files_to_check self file_path)
                       (files_to_check_keys self file_path) [])
    as [[E _] | (e' & file & Hin & Hne & Hp & E)]; rewrite E in H.
  - discriminate H.
  - injection H as <-. eauto.
Qed.

Lemma in_file_findings (self : mcp) (file : string) (b : finding) :
  In b (file_findings ast_parse fs self file) ->
  f_file b = rel_path_of self file
  /\ ((f_type b = "Syntax Error"
       /\ ast_parse (_read_file fs file)
          = ParseSyntaxError (f_line b) (f_message b))
      \/ (exists tree pattern ms m,
            ast_parse (_read_file fs file) = ParseOk tree
            /\ In (pattern, f_type b, f_message b) patterns
            /\ Re.finditer pattern (_read_file fs file) = Some ms
            /\ In m ms
            /\ f_line b = Some (line_number (_read_file fs file)
                                            (Re.m_start m)))).
Proof.
  unfold file_findings. cbv zeta.
  destruct (String.eqb (_read_file fs file) ""); [intros [] |].
  destruct (ast_parse (_read_file fs file)) as [tree | lineno msg | e].
  - intros Hin. apply in_findings_of_rules in Hin.
    destruct Hin as (pattern & bug_type & suggestion & ms & m
                     & Hrule & E & Hm & ->).
    split; [reflexivity |]. right. exists tree, pattern, ms, m. auto.
  - intros [<- | []]. split; [reflexivity |]. left. auto.
  - intros [].
Qed.

(** X8.  Every finding returned by [find_bugs] carries the relative
    path of an indexed file that was to be checked; it is either the
    ['Syntax Error'] finding of that file, with the line and message of
    the parser, or the finding of a rule of the table, with the kind
    and message of that rule and a line between 1 and the number of
    lines of the text. *)
Theorem finding_invariants
        (self : mcp) (file_path : option string) (bugs : list finding)
        (b : finding) :
  find_bugs ast_parse fs self file_path = inr bugs ->
  In b bugs ->
  exists file entry,
    In file (files_to_check self file_path)
    /\ getitem self file = inr entry
    /\ f_file b = rel_path entry
    /\ ((f_type b = "Syntax Error"
         /\ ast_parse (_read_file fs file)
            = ParseSyntaxError (f_line b) (f_message b))
        \/ (exists pattern line,
              In (pattern, f_type b, f_message b) patterns
              /\ f_line b = Some line
              /\ (1 <= line
                  <= Z.of_nat (count Re.newline (_read_file fs file)) + 1)%Z)).
Proof.
  unfold find_bugs. intros H Hb.
  destruct (check_loop self (files_to_check self file_path)
                       (files_to_check_keys self file_path) [])
    as [[E _] | (e & file & _ & _ & _ & E)]; rewrite E in H;
    [| discriminate H].
  injection H as <-. simpl in Hb. apply in_flat_map in Hb.
  destruct Hb as (file & Hfile & Hb).
  destruct (in_keys_getitem _ _ (files_to_check_keys _ _ _ Hfile))
    as (entry & Hget).
  exists file, entry. split; [exact Hfile |]. split; [exact Hget |].
  apply in_file_findings in Hb. destruct Hb as [Hf Hkind].
  split; [unfold rel_path_of in Hf; now rewrite Hget in Hf |].
  destruct Hkind as [Hsyn | (tree & pattern & ms & m & _ & Hrule & _ & _ & Hl)].
  - left. exact Hsyn.
  - right. exists pattern, (line_number (_read_file fs file) (Re.m_start m)).
    split; [exact Hrule |]. split; [exact Hl |].
    unfold line_number.
    pose proof (count_substring_le Re.newline (Re.m_start m)
                                   (_read_file fs file)). lia.
Qed.

(** X9.  When the empty string is not a key of the index and the
    parser raises nothing but [SyntaxError] on the [.py] files: the
    scan of the whole project is the scans of its [.py] files, each as
    named by its own path, one after the other in index order. *)
Theorem find_bugs_whole_project_is_concat (self : mcp) :
  ~ In "" (keys self) ->
  (forall file, In file (files_to_check self None) ->
     ~ parser_raises (ast_parse (_read_file fs file))) ->
  find_bugs ast_parse fs self None
  = inr (flat_map
           (fun file =>
              findings_or_none (find_bugs ast_parse fs self (Some file)))
           (files_to_check self None)).
Proof.
  intros Hempty Hok.
  assert (E : find_bugs ast_parse fs self None
              = inr (flat_map (file_findings ast_parse fs self)
                              (files_to_check self None))).
  { unfold find_bugs.
    destruct (check_loop self (files_to_check self None)
                         (files_to_check_keys self None) [])
      as [[E _] | (e & file & Hin & _ & Hp & _)]; [exact E |].
    specialize (Hok _ Hin). rewrite Hp in Hok. simpl in Hok. tauto. }
  rewrite E. f_equal. apply flat_map_agree. intros file Hin.
  pose proof (files_to_check_keys _ _ _ Hin) as Hkey.
  assert (Hne : file <> "") by (intros ->; contradiction).
  rewrite (find_bugs_one_file ast_parse fs self file Hne Hkey).
  destruct (check_file_cases self file [] Hkey)
    as [[Ec _] | (e & _ & Hp & _)].
  - rewrite Ec. reflexivity.
  - specialize (Hok _ Hin). rewrite Hp in Hok. simpl in Hok. tauto.
Qed.

End ScannerMore.

(* ------------------------------------------------------------------ *)
(** ** The two literal rules *)
(* ------------------------------------------------------------------ *)

Lemma starts_with_self (l t : list ascii) : starts_with l (l ++ t) = true.
Proof.
  induction l as [|c l IH]; simpl; [reflexivity |].
  now rewrite Ascii.eqb_refl, IH.
Qed.

Lemma starts_with_nonempty (l s : list ascii) :
  l <> [] -> starts_with l s = true -> s <> [].
Proof. destruct l, s; simpl; congruence. Qed.

(** The matches of a literal pattern whose occurrences cannot overlap
    are its occurrences in the text. *)
Lemma literal_matches (pattern content : string) (l : list ascii)
      (m : Re.re_match) :
  Re.compile pattern = Some (literal l) ->
  l <> [] -> overlap_free l = true ->
  In m (matches_of pattern content) <->
  exists before after,
    content = (before ++ string_of_list_ascii l ++ after)%string
    /\ m = Re.mk_match (String.length before)
                       (String.length before + length l).
Proof.
  intros Hc Hl Hfree. unfold matches_of, Re.finditer. rewrite Hc. split.
  - intros Hin. apply (ReBounds.scan_literal_sound l Hl) in Hin.
    destruct Hin as (j & _ & Hs & He & Hocc). simpl in Hs, He.
    set (cs := list_ascii_of_string content) in *.
    assert (Hj : j < length cs).
    { pose proof (starts_with_nonempty _ _ Hl Hocc) as Hne.
      destruct (le_lt_dec (length cs) j) as [Hle | Hlt]; [| exact Hlt].
      rewrite skipn_all2 in Hne by exact Hle. congruence. }
    exists (string_of_list_ascii (firstn j cs)),
           (string_of_list_ascii (skipn (length l) (skipn j cs))).
    split.
    + rewrite <- !string_of_list_ascii_app.
      rewrite <- (ReFacts.starts_with_split _ _ Hocc), firstn_skipn.
      unfold cs. now rewrite string_of_list_ascii_of_string.
    + rewrite string_of_list_ascii_length, length_firstn.
      replace (Nat.min j (length cs)) with j by lia.
      destruct m as [s e]; simpl in *. now subst.
  - intros (before & after & -> & ->).
    pose proof (ReFacts.scan_finds_literal l Hl Hfree
                  (list_ascii_of_string
                     (before ++ string_of_list_ascii l ++ after))
                  0 0 (String.length before) ltac:(lia)) as H.
    simpl (0 + _) in H. apply H.
    rewrite !list_ascii_append, list_ascii_of_string_of_list_ascii.
    rewrite <- list_ascii_length, skipn_app, skipn_all, Nat.sub_diag.
    simpl. apply starts_with_self.
Qed.

Lemma literal_rule_finding
      (rel content pattern bug_type suggestion : string) (l : list ascii)
      (line : Z) :
  In (pattern, bug_type, suggestion) patterns ->
  (forall p t s, In (p, t, s) patterns -> t = bug_type -> p = pattern) ->
  Re.compile pattern = Some (literal l) ->
  l <> [] -> overlap_free l = true ->
  In (mk_finding rel (Some line) bug_type suggestion)
     (findings_of_rules rel content patterns) <->
  exists before after,
    content = (before ++ string_of_list_ascii l ++ after)%string
    /\ line = (Z.of_nat (count Re.newline before) + 1)%Z.
Proof.
  intros Hrule Honly Hc Hl Hfree. split.
  - intros Hin. unfold findings_of_rules in Hin. apply in_flat_map in Hin.
    destruct Hin as ([[p t] s] & Hp & Hin). simpl in Hin.
    apply in_map_iff in Hin. destruct Hin as (m & E & Hm).
    injection E as E1 E2 E3. subst t s.
    rewrite (Honly _ _ _ Hp eq_refl) in Hm.
    apply (literal_matches _ _ _ _ Hc Hl Hfree) in Hm.
    destruct Hm as (before & after & -> & ->). exists before, after.
    split; [reflexivity |]. cbn [Re.m_start] in E1.
    rewrite substring_0_append in E1. congruence.
  - intros (before & after & -> & ->).
    unfold findings_of_rules. apply in_flat_map.
    exists (pattern, bug_type, suggestion). split; [exact Hrule |].
    simpl. apply in_map_iff.
    exists (Re.mk_match (String.length before)
                        (String.length before + length l)).
    split.
    + cbn [Re.m_start]. now rewrite substring_0_append.
    + apply (literal_matches _ _ _ _ Hc Hl Hfree). eauto.
Qed.

Section LiteralRules.

Variable ast_parse : string -> parse_outcome.
Variable fs : string -> option string.

(** X10.  For a checked file with a clean parse, the findings of kind
    ['Bare except clause'] are exactly the occurrences of [except:] in
    the text, and those of kind ['Too broad exception handling'] exactly
    the occurrences of [except Exception:]: there is such a finding
    with line [n] if and only if the text holds the literal right after
    a part with [n - 1] newline characters. *)
Theorem literal_rules_report_exactly_occurrences
        (self : mcp) (file content : string) (tree : Ast.node)
        (entry : file_entry) :
  fs file = Some content ->
  ast_parse content = ParseOk tree ->
  getitem self file = inr entry ->
  exists found,
    check_file ast_parse fs self file [] = inr found
    /\ (forall line,
          In (mk_finding (rel_path entry) (Some line) "Bare except clause"
                         "Use specific exceptions") found
          <-> exists before after,
                content = (before ++ "except:" ++ after)%string
                /\ line = (Z.of_nat (count Re.newline before) + 1)%Z)
    /\ (forall line,
          In (mk_finding (rel_path entry) (Some line)
                         "Too broad exception handling"
                         "Use more specific exceptions") found
          <-> exists before after,
                content = (before ++ "except Exception:" ++ after)%string
                /\ line = (Z.of_nat (count Re.newline before) + 1)%Z).
Proof.
  intros Hfs Hp Hget.
  exists (findings_of_rules (rel_path entry) content patterns).
  split; [now rewrite (check_file_ok _ _ _ _ _ _ _ [] Hfs Hp Hget) |].
  split; intros line.
  - apply (literal_rule_finding _ _ "except:" _ _
             (list_ascii_of_string "except:")).
    + now left.
    + intros p t s Hin Ht. unfold patterns in Hin. simpl in Hin.
      repeat (destruct Hin as [Hin | Hin];
              [injection Hin as <- <- <-; try reflexivity; discriminate Ht |]).
      destruct Hin.
    + reflexivity.
    + discriminate.
    + reflexivity.
  - apply (literal_rule_finding _ _ "except Exception:" _ _
             (list_ascii_of_string "except Exception:")).
    + right. now left.
    + intros p t s Hin Ht. unfold patterns in Hin. simpl in Hin.
      repeat (destruct Hin as [Hin | Hin];
              [injection Hin as <- <- <-; try reflexivity; discriminate Ht |]).
      destruct Hin.
    + reflexivity.
    + discriminate.
    + reflexivity.
Qed.

End LiteralRules.

(* ------------------------------------------------------------------ *)
(** ** The project indexer: facts *)
(* ------------------------------------------------------------------ *)

Lemma try_fold_invariant {A S : Type} (P : S -> Prop)
      (body : A -> S -> exn + S) (l : list A) :
  (forall x s s', In x l -> P s -> body x s = inr s' -> P s') ->
  forall s0 s1, P s0 -> try_fold body l s0 = inr s1 -> P s1.
Proof.
  induction l as [|x l IH]; intros Hstep s0 s1 H0; cbn [try_fold].
  - now intros [= <-].
  - destruct (body x s0) as [e | s] eqn:E; cbn [try_bind]; [discriminate |].
    apply IH.
    + intros y t t' Hy. apply Hstep. now right.
    + eapply Hstep; [now left | exact H0 | exact E].
Qed.

Lemma try_fold_app {A S : Type} (body : A -> S -> exn + S)
      (l1 l2 : list A) (s : S) :
  try_fold body (l1 ++ l2) s
  = try_bind (try_fold body l1 s) (try_fold body l2).
Proof.
  revert s. induction l1 as [|x l1 IH]; intros s; cbn [try_fold app].
  - reflexivity.
  - destruct (body x s); cbn [try_bind]; [reflexivity | apply IH].
Qed.

Lemma in_dict_set {V : Type} (key : string) (value : V)
      (d : list (string * V)) (k : string) (v : V) :
  In (k, v) (dict_set key value d) ->
  (k = key /\ v = value) \/ In (k, v) d.
Proof.
  induction d as [|[k0 v0] d IH]; simpl.
  - intros [[= <- <-] | []]. now left.
  - destruct (String.eqb_spec k0 key) as [-> | Hne]; simpl.
    + intros [[= <- <-] | Hin]; auto.
    + intros [E | Hin]; [now right; left |].
      destruct (IH Hin); auto.
Qed.

Lemma keys_dict_set {V : Type} (key : string) (value : V)
      (d : list (string * V)) (k : string) :
  In k (map fst (dict_set key value d)) <-> k = key \/ In k (map fst d).
Proof.
  induction d as [|[k0 v0] d IH]; simpl.
  - intuition.
  - destruct (String.eqb_spec k0 key) as [-> | Hne]; simpl.
    + intuition.
    + rewrite IH. intuition.
Qed.

Lemma nodup_dict_set {V : Type} (key : string) (value : V)
      (d : list (string * V)) :
  NoDup (map fst d) -> NoDup (map fst (dict_set key value d)).
Proof.
  induction d as [|[k0 v0] d IH]; simpl; intros Hnd.
  - constructor; [intros [] | constructor].
  - destruct (String.eqb_spec k0 key) as [-> | Hne]; simpl; [exact Hnd |].
    inversion Hnd as [|? ? Hnot Hnd']; subst. constructor; [| now apply IH].
    rewrite keys_dict_set. intros [E | Hin]; [now subst | contradiction].
Qed.

Lemma length_dict_set {V : Type} (key : string) (value : V)
      (d : list (string * V)) :
  length (dict_set key value d) <= S (length d).
Proof.
  induction d as [|[k0 v0] d IH]; simpl; [lia |].
  destruct (String.eqb k0 key); simpl; lia.
Qed.

Lemma count_files_eq (dirs : list (string * structure))
      (files : list string) :
  count_files (Structure dirs files) = count_dirs dirs + length files.
Proof.
  simpl. f_equal. induction dirs as [|[k sub] dirs IH]; simpl;
    [reflexivity | now rewrite IH].
Qed.

Lemma count_dict_update (key : string) (g : structure -> structure)
      (delta : nat) (d : list (string * structure)) :
  (forall s, count_files (g s) = count_files s + delta) ->
  count_dirs (dict_update key g empty_level d) = count_dirs d + delta.
Proof.
  intros Hg. induction d as [|[k v] d IH]; simpl.
  - rewrite Hg. simpl. lia.
  - destruct (String.eqb k key); simpl; [rewrite Hg | rewrite IH]; lia.
Qed.

(** An update that lists [delta] more names at the level reached lists
    [delta] more names in the whole structure. *)
Lemma count_update_at (parts : list string) (f : structure -> structure)
      (delta : nat) :
  (forall s, count_files (f s) = count_files s + delta) ->
  forall s, count_files (update_at parts f s) = count_files s + delta.
Proof.
  intros Hf. induction parts as [|part parts IH]; intros s; cbn [update_at].
  - apply Hf.
  - destruct s as [dirs files]. rewrite !count_files_eq.
    rewrite (count_dict_update _ _ delta); [lia | exact IH].
Qed.

Lemma count_append_file (file : string) (s : structure) :
  count_files (append_file file s) = count_files s + 1.
Proof.
  destruct s as [dirs files]. unfold append_file.
  rewrite !count_files_eq, length_app. simpl. lia.
Qed.

Lemma string_app_assoc (a b c : string) :
  ((a ++ b) ++ c)%string = (a ++ b ++ c)%string.
Proof. induction a as [|d a IH]; simpl; [reflexivity | now rewrite IH]. Qed.

Lemma path_join_suffix (a b : string) :
  exists stem, path_join a b = (stem ++ b)%string.
Proof.
  unfold path_join. destruct (String.prefix "/" b); [now exists "" |].
  destruct (String.eqb a "" || endswith a "/"); [now exists a |].
  exists (a ++ "/")%string. now rewrite string_app_assoc.
Qed.

Lemma append_empty_iff (a b : string) :
  (a ++ b)%string = "" -> b = "".
Proof. destruct a; simpl; [tauto | discriminate]. Qed.

Module FnmatchFacts.
Import Fnmatch.





End FnmatchFacts.

Lemma in_files_to_index (file_types : list string)
      (walk : list (string * list string * list string))
      (root file : string) :
  In (root, file) (files_to_index file_types walk) <->
  exists dirs files,
    In (root, dirs, files) walk /\ In file files
    /\ matches_some file_types file = true.
Proof.
  unfold files_to_index. rewrite in_flat_map. split.
  - intros ([[r dirs] files] & Hw & Hin). apply in_map_iff in Hin.
    destruct Hin as (f & [= <- <-] & Hf). apply filter_In in Hf.
    exists dirs, files. tauto.
  - intros (dirs & files & Hw & Hf & Hm). exists (root, dirs, files).
    split; [exact Hw |]. apply in_map_iff. exists file.
    split; [reflexivity |]. apply filter_In. auto.
Qed.

Lemma files_to_index_app (file_types : list string)
      (w1 w2 : list (string * list string * list string)) :
  files_to_index file_types (w1 ++ w2)
  = files_to_index file_types w1 ++ files_to_index file_types w2.
Proof. unfold files_to_index. apply flat_map_app. Qed.

Lemma try_fold_inl {A S : Type} (body : A -> S -> exn + S) (l : list A) :
  forall (s : S) (e : exn),
    try_fold body l s = inl e ->
    exists x s', In x l /\ body x s' = inl e.
Proof.
  induction l as [|x l IH]; intros s e; cbn [try_fold]; [discriminate |].
  destruct (body x s) as [e' | s'] eqn:E; cbn [try_bind].
  - intros [= <-]. exists x, s. split; [now left | exact E].
  - intros H. destruct (IH _ _ H) as (y & t & Hy & Ht).
    exists y, t. split; [now right | exact Ht].
Qed.

Section IndexerFacts.

Variable os_walk : string -> list (string * list string * list string).
Variable relpath : string -> string -> string.
Variable splitext : string -> string * string.
Variable getsize : string -> exn + Z.

Lemma scan_inv_index_file (project_path root file : string)
      (parts : list string) (done : list (string * string))
      (st st' : scan_state) :
  scan_inv relpath splitext getsize project_path done st ->
  index_file splitext getsize root (relpath root project_path) parts file st
  = inr st' ->
  scan_inv relpath splitext getsize project_path (done ++ [(root, file)]) st'.
Proof.
  intros (Hnd & Hwf & Hall & Hcount & Hlen). unfold index_file. cbv zeta.
  destruct (getsize (path_join root file)) as [e | size] eqn:Hsize;
    cbn [try_bind]; [discriminate |].
  intros [= <-]. unfold scan_inv. cbn [st_files st_structure].
  split; [now apply nodup_dict_set |]. split; [| split; [| split]].
  - intros key entry Hin. apply in_dict_set in Hin.
    destruct Hin as [[-> ->] | Hin].
    + exists root, file, size. split; [apply in_or_app; right; now left |].
      repeat split. exact Hsize.
    + destruct (Hwf _ _ Hin) as (r & f & sz & Hd & H).
      exists r, f, sz. split; [apply in_or_app; now left | exact H].
  - intros r f Hin. apply keys_dict_set. apply in_app_or in Hin.
    destruct Hin as [Hin | [[= <- <-] | []]]; [right; now apply Hall |].
    now left.
  - rewrite (count_update_at _ _ 1); [| apply count_append_file].
    rewrite length_app. simpl. lia.
  - pose proof (length_dict_set (path_join root file)
                  (mk_file_entry (path_join root file)
                     (if negb (String.eqb (relpath root project_path) ".")
                      then path_join (relpath root project_path) file
                      else file)
                     (slice (snd (splitext file)) 1
                        (Z.of_nat (String.length (snd (splitext file)))))
                     size)
                  (st_files st)).
    rewrite length_app. simpl. lia.
Qed.

Lemma match_patterns_inr (file : string) (file_types : list string)
      (body : scan_state -> exn + scan_state) (st st' : scan_state) :
  match_patterns file file_types body st = inr st' ->
  (matches_some file_types file = false /\ st' = st)
  \/ (matches_some file_types file = true /\ body st = inr st').
Proof.
  induction file_types as [|pattern types IH]; simpl.
  - intros [= <-]. now left.
  - destruct (Fnmatch.fnmatch file pattern) as [[|]|]; simpl.
    + intros H. now right.
    + exact IH.
    + discriminate.
Qed.

Lemma match_patterns_inl (file : string) (file_types : list string)
      (body : scan_state -> exn + scan_state) (st : scan_state) (e : exn) :
  match_patterns file file_types body st = inl e ->
  (exists pattern,
     In pattern file_types /\ Fnmatch.in_fragment pattern = false
     /\ e = FnmatchError pattern)
  \/ (matches_some file_types file = true /\ body st = inl e).
Proof.
  induction file_types as [|pattern types IH]; simpl; [discriminate |].
  unfold Fnmatch.fnmatch at 1.
  destruct (Fnmatch.in_fragment pattern) eqn:Hfrag.
  - destruct (Fnmatch.glob _ _) eqn:Hg.
    + intros H. right. unfold Fnmatch.fnmatch. rewrite Hfrag, Hg. auto.
    + intros H. destruct (IH H) as [(p & Hp & Hf & He) | [Hm Hb]].
      * left. exists p. auto.
      * right. unfold Fnmatch.fnmatch at 1. rewrite Hfrag, Hg. auto.
  - intros [= <-]. left. exists pattern. auto.
Qed.

Lemma scan_inv_files (project_path root : string) (parts : list string)
      (file_types files : list string) :
  forall (done : list (string * string)) (st st' : scan_state),
    scan_inv relpath splitext getsize project_path done st ->
    try_fold
      (fun file st =>
         match_patterns file file_types
           (index_file splitext getsize root (relpath root project_path)
                       parts file) st)
      files st = inr st' ->
    scan_inv relpath splitext getsize project_path
             (done ++ map (fun file => (root, file))
                          (filter (matches_some file_types) files))
             st'.
Proof.
  induction files as [|file files IH]; intros done st st' Hinv;
    cbn [try_fold filter map].
  - intros [= <-]. now rewrite app_nil_r.
  - destruct (match_patterns file file_types _ st) as [e | st1] eqn:E;
      cbn [try_bind]; [discriminate |].
    intros H. apply match_patterns_inr in E.
    destruct E as [[Hm ->] | [Hm E]]; rewrite Hm.
    + eapply IH; eassumption.
    + cbn [map]. change ((root, file) :: ?l) with ([(root, file)] ++ l).
      rewrite app_assoc. apply (IH _ st1); [| exact H].
      eapply scan_inv_index_file; eassumption.
Qed.

Lemma scan_inv_directory (project_path : string) (file_types : list string)
      (entry : string * list string * list string)
      (done : list (string * string)) (st st' : scan_state) :
  scan_inv relpath splitext getsize project_path done st ->
  scan_directory relpath splitext getsize project_path file_types entry st
  = inr st' ->
  scan_inv relpath splitext getsize project_path (done ++ files_to_index file_types [entry]) st'.
Proof.
  destruct entry as [[root dirs] files]. intros Hinv H.
  unfold scan_directory in H. cbv zeta in H.
  unfold files_to_index. cbn [flat_map]. rewrite app_nil_r.
  eapply scan_inv_files; [| exact H].
  destruct Hinv as (Hnd & Hwf & Hall & Hcount & Hlen).
  unfold scan_inv. cbn [st_files st_structure]. repeat split; auto.
  rewrite (count_update_at _ _ 0); [lia | intros; lia].
Qed.

Lemma scan_inv_walk (project_path : string) (file_types : list string)
      (walk : list (string * list string * list string)) :
  forall (done : list (string * string)) (st st' : scan_state),
    scan_inv relpath splitext getsize project_path done st ->
    try_fold (scan_directory relpath splitext getsize project_path
                             file_types) walk st = inr st' ->
    scan_inv relpath splitext getsize project_path (done ++ files_to_index file_types walk) st'.
Proof.
  induction walk as [|entry walk IH]; intros done st st' Hinv;
    cbn [try_fold].
  - intros [= <-]. unfold files_to_index. simpl. now rewrite app_nil_r.
  - destruct (scan_directory _ _ _ _ _ entry st) as [e | st1] eqn:E;
      cbn [try_bind]; [discriminate |].
    intros H. change (entry :: walk) with ([entry] ++ walk).
    rewrite files_to_index_app, app_assoc.
    apply (IH _ st1); [| exact H].
    eapply scan_inv_directory; eassumption.
Qed.

(** The state a successful scan leaves. *)
Lemma scan_project_inv (self self' : mcp)
      (file_types : option (list string)) (tree : structure) :
  scan_project os_walk relpath splitext getsize self file_types
  = inr (self', tree) ->
  project_path self' = project_path self
  /\ scan_inv relpath splitext getsize (project_path self)
              (files_to_index (types_of file_types)
                              (os_walk (project_path self)))
              (mk_scan_state (files self') tree).
Proof.
  unfold scan_project. cbv zeta. fold (types_of file_types).
  destruct (try_fold _ (os_walk (project_path self)) _) as [e | st] eqn:E;
    cbn [try_bind]; [discriminate |].
  intros [= <- <-]. split; [reflexivity |].
  apply (scan_inv_walk _ _ _ [] _ _) in E.
  - destruct st. exact E.
  - unfold scan_inv. simpl.
    repeat split; try constructor; try tauto; intros ? ? [].
Qed.

Lemma nodup_getitem (self : mcp) (key : string) (entry : file_entry) :
  NoDup (keys self) -> In (key, entry) (files self) ->
  getitem self key = inr entry.
Proof.
  unfold keys, getitem. induction (files self) as [|[k v] l IH]; simpl;
    [tauto |].
  intros Hnd [[= -> ->] | Hin].
  - now rewrite String.eqb_refl.
  - inversion Hnd as [|? ? Hnot Hnd']; subst.
    destruct (String.eqb_spec key k) as [-> | Hne].
    + exfalso. apply Hnot. apply in_map_iff. now exists (k, entry).
    + now apply IH.
Qed.

(** X11.  With patterns made of [*], [?] and literal characters, after
    a successful scan: the project path is unchanged; the
    index has no two equal keys; each key is the path built from a
    walked directory and one of its files that matches a pattern; its
    entry is found under that key, carries the key as ['path'], the
    size read for that path, the path relative to the project and the
    extension without its dot. *)
Theorem scan_index_entries
        (self self' : mcp) (file_types : option (list string))
        (tree : structure) :
  (forall pattern, In pattern (types_of file_types) ->
     Fnmatch.in_fragment pattern = true) ->
  scan_project os_walk relpath splitext getsize self file_types
  = inr (self', tree) ->
  project_path self' = project_path self
  /\ NoDup (keys self')
  /\ forall key entry,
       In (key, entry) (files self') ->
       fe_path entry = key
       /\ getitem self' key = inr entry
       /\ exists root dirs names file size,
            In (root, dirs, names) (os_walk (project_path self))
            /\ In file names
            /\ matches_some (types_of file_types) file = true
            /\ key = path_join root file
            /\ getsize key = inr size
            /\ entry = indexed_entry relpath splitext (project_path self)
                                     root file size.
Proof.
  intros _ H. apply scan_project_inv in H.
  destruct H as (Hpp & Hnd & Hwf & _). cbn [st_files] in *.
  split; [exact Hpp |]. split; [exact Hnd |].
  intros key entry Hin.
  destruct (Hwf _ _ Hin) as (root & file & size & Hd & -> & Hsize & ->).
  split; [reflexivity |]. split; [now apply nodup_getitem |].
  apply in_files_to_index in Hd. destruct Hd as (dirs & names & Hw & Hf & Hm).
  exists root, dirs, names, file, size. auto 7.
Qed.

(** X12.  With patterns made of [*], [?] and literal characters, after
    a successful scan, every file of a walked directory
    that matches one of the patterns is in the index, under the path
    built from the directory and the file name, with the size read for
    that path. *)
Theorem scan_indexes_every_match
        (self self' : mcp) (file_types : option (list string))
        (tree : structure) (root file : string) (dirs names : list string) :
  (forall pattern, In pattern (types_of file_types) ->
     Fnmatch.in_fragment pattern = true) ->
  scan_project os_walk relpath splitext getsize self file_types
  = inr (self', tree) ->
  In (root, dirs, names) (os_walk (project_path self)) ->
  In file names ->
  matches_some (types_of file_types) file = true ->
  exists entry,
    getitem self' (path_join root file) = inr entry
    /\ fe_path entry = path_join root file
    /\ getsize (path_join root file) = inr (fe_size entry).
Proof.
  intros _ H Hw Hf Hm. apply scan_project_inv in H.
  destruct H as (_ & Hnd & Hwf & Hall & _). cbn [st_files] in *.
  assert (Hd : In (root, file)
                  (files_to_index (types_of file_types)
                                  (os_walk (project_path self)))).
  { apply in_files_to_index. eauto. }
  apply Hall in Hd. apply in_map_iff in Hd.
  destruct Hd as ([key entry] & Hk & Hin). simpl in Hk. subst key.
  exists entry. split; [now apply nodup_getitem |].
  destruct (Hwf _ _ Hin) as (r & f & size & _ & E & Hsize & ->).
  split; [simpl; congruence |]. exact Hsize.
Qed.

(** X13.  With patterns made of [*], [?] and literal characters, after
    a successful scan, the structure lists, over all its
    levels, exactly one file name for each file of the walk that
    matches a pattern, and the index has at most that many entries. *)
Theorem scan_structure_lists_every_match_once
        (self self' : mcp) (file_types : option (list string))
        (tree : structure) :
  (forall pattern, In pattern (types_of file_types) ->
     Fnmatch.in_fragment pattern = true) ->
  scan_project os_walk relpath splitext getsize self file_types
  = inr (self', tree) ->
  count_files tree
  = length (files_to_index (types_of file_types)
                           (os_walk (project_path self)))
  /\ length (files self') <= count_files tree.
Proof.
  intros _ H. apply scan_project_inv in H.
  destruct H as (_ & _ & _ & _ & Hcount & Hlen).
  cbn [st_files st_structure] in *. split; [exact Hcount | lia].
Qed.

(** X14.  With patterns made of [*], [?] and literal characters, a
    scan raises if and only if reading the size raises for a file to
    index: nothing catches that exception. *)
Theorem scan_raises_iff_getsize_raises
        (self : mcp) (file_types : option (list string)) :
  (forall pattern, In pattern (types_of file_types) ->
     Fnmatch.in_fragment pattern = true) ->
  (exists e,
     scan_project os_walk relpath splitext getsize self file_types = inl e)
  <-> (exists root file e,
         In (root, file)
            (files_to_index (types_of file_types)
                            (os_walk (project_path self)))
         /\ getsize (path_join root file) = inl e).
Proof.
  intros Hfrag. split.
  - intros (e & H). unfold scan_project in H. cbv zeta in H.
    fold (types_of file_types) in H.
    destruct (try_fold _ (os_walk (project_path self)) _) as [e' | st] eqn:E;
      cbn [try_bind] in H; [| discriminate].
    injection H as ->.
    apply try_fold_inl in E. destruct E as ([[root dirs] names] & st & Hw & E).
    unfold scan_directory in E. cbv zeta in E.
    apply try_fold_inl in E. destruct E as (file & st1 & Hf & E).
    apply match_patterns_inl in E.
    destruct E as [(pattern & Hp & Hno & _) | [Hm E]].
    + rewrite (Hfrag _ Hp) in Hno. discriminate.
    + exists root, file, e. split; [apply in_files_to_index; eauto |].
      unfold index_file in E. cbv zeta in E.
      destruct (getsize (path_join root file)) as [e0 | size];
        cbn [try_bind] in E; [congruence | discriminate].
  - intros (root & file & e & Hd & Hsize).
    destruct (scan_project os_walk relpath splitext getsize self file_types)
      as [e' | [self' tree]] eqn:H; [eauto |].
    apply scan_project_inv in H.
    destruct H as (_ & _ & Hwf & Hall & _). cbn [st_files] in *.
    apply Hall in Hd. apply in_map_iff in Hd.
    destruct Hd as ([key entry] & Hk & Hin). simpl in Hk. subst key.
    destruct (Hwf _ _ Hin) as (r & f & size & _ & _ & Hs & _).
    congruence.
Qed.


(** X16.  With patterns made of [*], [?] and literal characters, after
    a successful scan of a walk without an empty file
    name: the empty string is no key of the index, and whatever its
    argument [find_bugs] has no file to check twice. *)
Theorem scan_then_find_bugs_checks_once
        (self self' : mcp) (file_types : option (list string))
        (tree : structure) (file_path : option string) :
  (forall pattern, In pattern (types_of file_types) ->
     Fnmatch.in_fragment pattern = true) ->
  (forall root dirs names file,
     In (root, dirs, names) (os_walk (project_path self)) ->
     In file names -> file <> "") ->
  scan_project os_walk relpath splitext getsize self file_types
  = inr (self', tree) ->
  ~ In "" (keys self')
  /\ NoDup (files_to_check self' file_path).
Proof.
  intros _ Hnames H. apply scan_project_inv in H.
  destruct H as (_ & Hnd & Hwf & _). cbn [st_files] in *. split.
  - intros Hin. apply in_map_iff in Hin.
    destruct Hin as ([k entry] & Hk & Hin). simpl in Hk. subst k.
    destruct (Hwf _ _ Hin) as (root & file & size & Hd & E & _).
    apply in_files_to_index in Hd.
    destruct Hd as (dirs & names & Hw & Hf & _).
    destruct (path_join_suffix root file) as (pre & Hj).
    rewrite Hj in E. symmetry in E. apply append_empty_iff in E.
    exact (Hnames _ _ _ _ Hw Hf E).
  - unfold files_to_check.
    assert (Hfilter : NoDup (filter (fun f => endswith f ".py")
                                    (keys self')))
      by now apply NoDup_filter.
    destruct file_path as [p|]; [| exact Hfilter].
    destruct (truthy p); [| exact Hfilter].
    destruct (has_key self' p); repeat constructor. intros [].
Qed.

End IndexerFacts.

(* ------------------------------------------------------------------ *)
(** ** The print rule *)
(* ------------------------------------------------------------------ *)

Lemma count_append (c : ascii) (a b : string) :
  count c (a ++ b) = count c a + count c b.
Proof.
  induction a as [|d a IH]; simpl; [reflexivity | rewrite IH; lia].
Qed.

Lemma count_zero_forall (c : ascii) (s : string) :
  count c s = 0 <->
  Forall (fun d => Ascii.eqb d c = false) (list_ascii_of_string s).
Proof.
  induction s as [|d s IH]; simpl.
  - split; [constructor | reflexivity].
  - destruct (Ascii.eqb d c) eqn:E; simpl.
    + split; [discriminate |]. intros H. inversion H; congruence.
    + rewrite IH. split; [now constructor | intros H; now inversion H].
Qed.

Lemma list_ascii_substring (a n : nat) (s : string) :
  list_ascii_of_string (substring a n s)
  = firstn n (skipn a (list_ascii_of_string s)).
Proof.
  revert a n. induction s as [|c s IH]; intros a n.
  - destruct a, n; reflexivity.
  - destruct a as [|a].
    + destruct n as [|n]; simpl; [reflexivity |]. f_equal. apply (IH 0 n).
    + simpl. apply IH.
Qed.

Lemma forall_firstn {A : Type} (P : A -> Prop) (n : nat) (l : list A) :
  Forall P l -> Forall P (firstn n l).
Proof.
  intros H. revert n. induction H as [|x l Hx Hl IH]; intros n.
  - rewrite firstn_nil. constructor.
  - destruct n; simpl; constructor; auto.
Qed.

Module RePrint.
Import Re.

Lemma match_literal_prefix (l : list ascii) (r : regex) :
  forall (s : list ascii) (k : nat) (accept : nat -> bool),
    match_items (literal l ++ r) s k accept
    = if starts_with l s
      then match_items r (skipn (length l) s) (k + length l) accept
      else None.
Proof.
  induction l as [|c l IH]; intros s k accept; simpl.
  - now rewrite Nat.add_0_r.
  - destruct s as [|d s]; [reflexivity |].
    destruct (Ascii.eqb d c); simpl; [| reflexivity].
    rewrite IH. now rewrite Nat.add_succ_r.
Qed.

Lemma backtrack_complete (k lo j : nat) (try : nat -> option nat) :
  lo <= j -> j <= k -> try j <> None -> backtrack k lo try <> None.
Proof.
  intros Hlo. induction k as [|k IH]; intros Hj Htry; simpl.
  - assert (j = 0) by lia. subst j.
    replace (0 <? lo)%nat with false by (symmetry; apply Nat.ltb_ge; lia).
    destruct (try 0); congruence.
  - replace (S k <? lo)%nat with false by (symmetry; apply Nat.ltb_ge; lia).
    destruct (try (S k)) eqn:E; [discriminate |].
    apply IH; [| exact Htry].
    destruct (Nat.eq_dec j (S k)) as [-> | Hne]; [congruence | lia].
Qed.

Lemma run_firstn (a : atom) (s : list ascii) (j : nat) :
  j <= run a s -> Forall (fun c => atom_matches a c = true) (firstn j s).
Proof.
  revert j. induction s as [|c s IH]; intros j Hj.
  - rewrite firstn_nil. constructor.
  - destruct j as [|j]; [constructor |]. simpl in *.
    destruct (atom_matches a c) eqn:E; [| lia].
    constructor; [exact E | apply IH; lia].
Qed.

Lemma run_app_ge (a : atom) (l t : list ascii) :
  Forall (fun c => atom_matches a c = true) l -> length l <= run a (l ++ t).
Proof.
  induction 1 as [|c l Hc Hl IH]; simpl; [lia |]. rewrite Hc. lia.
Qed.

(** The characters a match consumes are characters some item of the
    pattern accepts: no newline when no item accepts one. *)
Lemma match_items_no_newline (r : regex) :
  rejects_newline r ->
  forall (s : list ascii) (k : nat) (accept : nat -> bool) (e : nat),
    match_items r s k accept = Some e ->
    Forall (fun c => Ascii.eqb c newline = false) (firstn (e - k) s).
Proof.
  induction 1 as [|[a q] r Ha Hr IH]; intros s k accept e; simpl in *.
  - destruct (accept k); [| discriminate]. intros [= <-].
    rewrite Nat.sub_diag. constructor.
  - assert (Hatom : forall c, atom_matches a c = true ->
                              Ascii.eqb c newline = false).
    { intros c Hc. destruct (Ascii.eqb_spec c newline) as [-> | _];
        congruence. }
    assert (Hrep : forall hi lo,
               hi <= run a s ->
               backtrack hi lo
                 (fun j => match_items r (skipn j s) (k + j) accept)
               = Some e ->
               Forall (fun c => Ascii.eqb c newline = false)
                      (firstn (e - k) s)).
    { intros hi lo Hhi H. apply ReBounds.backtrack_some in H.
      destruct H as (j & Hj & H).
      pose proof (ReBounds.match_items_bounds _ _ _ _ _ H) as Hb.
      apply IH in H.
      rewrite <- (firstn_skipn j s) at 1.
      replace (e - k) with (length (firstn j s) + (e - (k + j))).
      - rewrite firstn_app_2. apply Forall_app. split; [| exact H].
        eapply Forall_impl; [exact Hatom |]. apply run_firstn. lia.
      - rewrite length_firstn. pose proof (ReBounds.run_le a s). lia. }
    destruct q.
    + destruct s as [|c s]; [discriminate |].
      destruct (atom_matches a c) eqn:Hc; [| discriminate].
      intros H.
      pose proof (ReBounds.match_items_bounds _ _ _ _ _ H) as Hb.
      apply IH in H. replace (e - k) with (S (e - S k)) by lia.
      simpl. constructor; [now apply Hatom | exact H].
    + now apply Hrep.
    + now apply Hrep.
    + apply Hrep. destruct (run a s); simpl; lia.
Qed.

(** Every match of the scanner is a match of the pattern at its start. *)
Lemma scan_sound (r : regex) (s : list ascii) :
  forall pos skip m,
    In m (scan r s pos skip) ->
    exists j accept,
      m_start m = pos + j
      /\ match_items r (skipn j s) 0 accept
         = Some (m_end m - m_start m).
Proof.
  induction s as [|c s IH]; intros pos skip m.
  - destruct skip as [|k]; cbn [scan]; [| intros []].
    destruct (match_items r [] 0 (fun _ => true)) as [[|len]|] eqn:E1.
    + destruct (match_items r [] 0 (fun e => (0 <? e)%nat)) as [len|] eqn:E2.
      * intros [<- | [<- | []]]; simpl.
        -- exists 0, (fun _ => true). rewrite Nat.sub_diag, Nat.add_0_r. auto.
        -- exists 0, (fun e => (0 <? e)%nat).
           replace (pos + len - pos) with len by lia.
           rewrite Nat.add_0_r. auto.
      * intros [<- | []]; simpl.
        exists 0, (fun _ => true). rewrite Nat.sub_diag, Nat.add_0_r. auto.
    + intros [<- | []]; simpl. exists 0, (fun _ => true).
      replace (pos + S len - pos) with (S len) by lia.
      rewrite Nat.add_0_r. auto.
    + intros [].
  - assert (Hnext : forall k,
               In m (scan r s (S pos) k) ->
               exists j accept,
                 m_start m = pos + j
                 /\ match_items r (skipn j (c :: s)) 0 accept
                    = Some (m_end m - m_start m)).
    { intros k Hin. apply IH in Hin. destruct Hin as (j & accept & Hs & Hm).
      exists (S j), accept. split; [lia | exact Hm]. }
    destruct skip as [|k]; cbn [scan]; [| apply Hnext].
    destruct (match_items r (c :: s) 0 (fun _ => true)) as [[|len]|] eqn:E1.
    + destruct (match_items r (c :: s) 0 (fun e => (0 <? e)%nat))
        as [len|] eqn:E2.
      * intros [<- | [<- | Hin]]; simpl.
        -- exists 0, (fun _ => true). rewrite Nat.sub_diag, Nat.add_0_r. auto.
        -- exists 0, (fun e => (0 <? e)%nat).
           replace (pos + len - pos) with len by lia.
           rewrite Nat.add_0_r. auto.
        -- now apply Hnext in Hin.
      * intros [<- | Hin]; simpl; [| now apply Hnext in Hin].
        exists 0, (fun _ => true). rewrite Nat.sub_diag, Nat.add_0_r. auto.
    + intros [<- | Hin]; simpl; [| now apply Hnext in Hin].
      exists 0, (fun _ => true).
      replace (pos + S len - pos) with (S len) by lia.
      rewrite Nat.add_0_r. auto.
    + apply Hnext.
Qed.

(** A position where a pattern that matches no empty text matches lies
    inside a reported match. *)
Lemma scan_covers (r : regex) :
  (forall s accept, match_items r s 0 accept <> Some 0) ->
  forall (s : list ascii) (pos skip j len : nat),
    skip <= j ->
    match_items r (skipn j s) 0 (fun _ => true) = Some len ->
    exists m,
      In m (scan r s pos skip)
      /\ m_start m <= pos + j /\ pos + j < m_end m.
Proof.
  intros Hne. induction s as [|c s IH]; intros pos skip j len Hskip Hm.
  - rewrite skipn_nil in Hm.
    pose proof (ReBounds.match_items_bounds _ _ _ _ _ Hm) as Hb.
    simpl in Hb. assert (len = 0) by lia. subst len.
    now apply Hne in Hm.
  - assert (Hnext : forall k j',
               j = S j' -> k <= j' ->
               exists m,
                 In m (scan r s (S pos) k)
                 /\ m_start m <= pos + j /\ pos + j < m_end m).
    { intros k j' -> Hk.
      destruct (IH (S pos) k j' len Hk Hm) as (m & Hin & H1 & H2).
      exists m. split; [exact Hin | lia]. }
    destruct skip as [|k]; cbn [scan].
    + destruct (match_items r (c :: s) 0 (fun _ => true)) as [[|n]|] eqn:E1.
      * now apply Hne in E1.
      * destruct (le_lt_dec (S n) j) as [Hle | Hlt].
        -- destruct j as [|j']; [lia |].
           destruct (Hnext n j' eq_refl ltac:(lia)) as (m & Hin & H).
           replace (S n - 1) with n by lia.
           exists m. split; [now right | exact H].
        -- exists (mk_match pos (pos + S n)). split; [now left |].
           simpl. lia.
      * destruct j as [|j']; [simpl in Hm; congruence |].
        apply (Hnext 0 j' eq_refl). lia.
    + destruct j as [|j']; [lia |]. apply (Hnext k j' eq_refl). lia.
Qed.

Lemma print_compiles : compile "print\(.*\)" = Some print_regex.
Proof. reflexivity. Qed.

Lemma print_rejects_newline : rejects_newline print_regex.
Proof. repeat constructor. Qed.

Lemma print_never_empty (s : list ascii) (accept : nat -> bool) :
  match_items print_regex s 0 accept <> Some 0.
Proof.
  unfold print_regex. rewrite match_literal_prefix.
  destruct (starts_with _ s); [| discriminate].
  intros H. apply ReBounds.match_items_bounds in H. simpl in H. lia.
Qed.

(** The print pattern matches at a [print(] that is followed, before
    the end of the line, by a closing parenthesis. *)
Lemma print_matches_at (mid after : list ascii) :
  Forall (fun c => Ascii.eqb c newline = false) mid ->
  match_items print_regex
    (list_ascii_of_string "print(" ++ mid
     ++ list_ascii_of_string ")" ++ after)
    0 (fun _ => true)
  <> None.
Proof.
  intros Hmid. unfold print_regex. rewrite match_literal_prefix.
  rewrite starts_with_self, skipn_app, skipn_all, Nat.sub_diag.
  cbn [skipn app]. cbn [match_items].
  apply (backtrack_complete _ 0 (length mid)); [lia | |].
  - apply run_app_ge. eapply Forall_impl; [| exact Hmid].
    intros c Hc. simpl. now rewrite Hc.
  - rewrite skipn_app, skipn_all, Nat.sub_diag. simpl. discriminate.
Qed.

End RePrint.

Section PrintRule.

Variable ast_parse : string -> parse_outcome.
Variable fs : string -> option string.

Lemma print_rule_covers (content before mid after : string) :
  content = (before ++ "print(" ++ mid ++ ")" ++ after)%string ->
  count Re.newline mid = 0 ->
  exists m,
    In m (matches_of "print\(.*\)" content)
    /\ count Re.newline (substring 0 (Re.m_start m) content)
       = count Re.newline before.
Proof.
  intros -> Hmid.
  set (content := (before ++ "print(" ++ mid ++ ")" ++ after)%string).
  set (cs := list_ascii_of_string content).
  assert (Hcs : skipn (String.length before) cs
                = list_ascii_of_string "print(" ++ list_ascii_of_string mid
                  ++ list_ascii_of_string ")" ++ list_ascii_of_string after).
  { unfold cs, content. rewrite !list_ascii_append.
    rewrite <- list_ascii_length, skipn_app, skipn_all, Nat.sub_diag.
    reflexivity. }
  destruct (Re.match_items print_regex
              (skipn (String.length before) cs) 0 (fun _ => true))
    as [len|] eqn:Hmatch.
  2: { exfalso. rewrite Hcs in Hmatch. revert Hmatch.
       apply RePrint.print_matches_at. now apply count_zero_forall. }
  destruct (RePrint.scan_covers _ RePrint.print_never_empty cs 0 0
              (String.length before) len ltac:(lia) Hmatch)
    as (m & Hin & Hlo & Hhi).
  simpl in Hlo, Hhi.
  exists m. split.
  { unfold matches_of, Re.finditer. rewrite RePrint.print_compiles.
    exact Hin. }
  destruct (RePrint.scan_sound _ _ _ _ _ Hin) as (j & accept & Hj & Hm).
  simpl in Hj.
  apply (RePrint.match_items_no_newline _ RePrint.print_rejects_newline)
    in Hm.
  rewrite Nat.sub_0_r in Hm.
  assert (Hb : substring 0 (String.length before) content = before)
    by (unfold content; apply substring_0_append).
  pose proof (substring_cat 0 (Re.m_start m)
                (String.length before - Re.m_start m) content) as Hsplit.
  replace (Re.m_start m + (String.length before - Re.m_start m))
    with (String.length before) in Hsplit by lia.
  simpl (0 + _) in Hsplit. rewrite Hb in Hsplit.
  apply (f_equal (count Re.newline)) in Hsplit.
  rewrite count_append in Hsplit.
  assert (Hzero : count Re.newline
                    (substring (Re.m_start m)
                               (String.length before - Re.m_start m)
                               content) = 0).
  { apply count_zero_forall. rewrite list_ascii_substring. fold cs.
    rewrite Hj in *.
    replace (String.length before - j)
      with (Nat.min (String.length before - j) (Re.m_end m - j)) by lia.
    rewrite <- firstn_firstn. apply forall_firstn. exact Hm. }
  lia.
Qed.

(** X17.  For a checked file with a clean parse: whenever the text
    holds [print(] followed on the same line by a closing parenthesis,
    there is a finding of kind ['Debug print statement'] with the
    number of that line. *)
Theorem print_rule_flags_every_print_line
        (self : mcp) (file content : string) (tree : Ast.node)
        (entry : file_entry) (before mid after : string) :
  fs file = Some content ->
  ast_parse content = ParseOk tree ->
  getitem self file = inr entry ->
  content = (before ++ "print(" ++ mid ++ ")" ++ after)%string ->
  count Re.newline mid = 0 ->
  exists found,
    check_file ast_parse fs self file [] = inr found
    /\ In (mk_finding (rel_path entry)
             (Some (Z.of_nat (count Re.newline before) + 1)%Z)
             "Debug print statement" "Remove debug prints")
          found.
Proof.
  intros Hfs Hp Hget Hc Hmid.
  exists (findings_of_rules (rel_path entry) content patterns).
  split; [now rewrite (check_file_ok _ _ _ _ _ _ _ [] Hfs Hp Hget) |].
  destruct (print_rule_covers _ _ _ _ Hc Hmid) as (m & Hin & Hline).
  unfold findings_of_rules. apply in_flat_map.
  exists ("print\(.*\)", "Debug print statement", "Remove debug prints").
  split; [simpl; tauto |].
  simpl. apply in_map_iff. exists m. split; [| exact Hin].
  now rewrite Hline.
Qed.

End PrintRule.

(* ------------------------------------------------------------------ *)
(** ** The further statements on sample inputs *)
(* ------------------------------------------------------------------ *)

Module OnMoreSamples.
Import Sample MoreSamples.

(** X2 on [nested.py]. *)
Lemma analysis_of_tree_without_def_or_assignment_witness :
  more_fs "/p/nested.py" = Some nested_text
  /\ nested_text <> ""
  /\ more_parse nested_text = ParseOk nested_tree
  /\ (forall n, Ast.subnode n nested_tree -> raising n = false)
  /\ analyze_python_file more_parse same_object more_fs "/p/nested.py"
     = Analysis
         (mk_analysis ["os"; "sys"]
            [mk_class_info "A" [] 2; mk_class_info "B" [] 4] [] [] None).
Proof.
  assert (Hquiet : forall n, Ast.subnode n nested_tree -> raising n = false).
  { intros n Hsub. apply AstFacts.walk_subnode in Hsub.
    vm_compute in Hsub.
    repeat (destruct Hsub as [<- | Hsub]; [reflexivity |]).
    destruct Hsub. }
  split; [reflexivity |]. split; [discriminate |]. split; [reflexivity |].
  split; [exact Hquiet |].
  exact (proj1 (analysis_of_tree_without_def_or_assignment
                  more_parse same_object more_fs
                  "/p/nested.py" nested_text nested_tree
                  eq_refl ltac:(discriminate) eq_refl Hquiet)).
Defined.

(** X3 on the text of [cls.py]. *)
Lemma error_after_clean_parse_witness :
  sample_parse class_text = ParseOk class_tree
  /\ (error (analyze_content sample_parse same_object class_text) = None
      \/ error (analyze_content sample_parse same_object class_text)
         = Some function_message
      \/ error (analyze_content sample_parse same_object class_text)
         = Some assign_message).
Proof.
  split; [reflexivity |].
  destruct (error_after_clean_parse sample_parse same_object
              class_text class_tree eq_refl)
    as [[H _] | (seen & n & rest & _ & _ & [[_ H] | [_ H]])]; auto.
Defined.

(** X4 on the one-file project. *)
Lemma search_code_per_file_witness :
  Re.compile "abc" <> None
  /\ search_code sample_fs abc_mcp "abc"
     = inr (flat_map (file_search sample_fs "abc") (files abc_mcp)).
Proof.
  assert (Hc : Re.compile "abc" <> None) by (vm_compute; discriminate).
  split; [exact Hc |].
  exact (proj1 (search_code_per_file sample_fs abc_mcp "abc" Hc)).
Defined.

(** X5 on the second match of the search example. *)
Lemma search_match_window_witness :
  Re.compile "abc" <> None
  /\ search_code sample_fs abc_mcp "abc"
     = inr [mk_search_result "abc.txt"
              [mk_search_match "abc" 1 abc_text;
               mk_search_match "abc" 3 abc_text]]
  /\ exists path entry head pre post tail,
       In (path, entry) (files abc_mcp)
       /\ "abc.txt" = rel_path entry
       /\ _read_file sample_fs path
          = (head ++ pre ++ "abc" ++ post ++ tail)%string
       /\ abc_text = (pre ++ "abc" ++ post)%string
       /\ 3%Z = (Z.of_nat (count Re.newline (head ++ pre)) + 1)%Z
       /\ String.length pre <= 50 /\ String.length post <= 50
       /\ (head = "" \/ String.length pre = 50)
       /\ (tail = "" \/ String.length post = 50).
Proof.
  assert (Hc : Re.compile "abc" <> None) by (vm_compute; discriminate).
  split; [exact Hc |]. split; [vm_compute; reflexivity |].
  exact (search_match_window sample_fs abc_mcp "abc"
           [mk_search_result "abc.txt"
              [mk_search_match "abc" 1 abc_text;
               mk_search_match "abc" 3 abc_text]]
           (mk_search_result "abc.txt"
              [mk_search_match "abc" 1 abc_text;
               mk_search_match "abc" 3 abc_text])
           (mk_search_match "abc" 3 abc_text)
           Hc eq_refl (or_introl eq_refl) (or_intror (or_introl eq_refl))).
Defined.

Lemma sample_parser_raises_nothing (file_path : option string) (file : string) :
  In file (files_to_check sample_mcp file_path) ->
  ~ parser_raises (sample_parse (_read_file sample_fs file)).
Proof.
  intros Hin. apply files_to_check_keys in Hin. vm_compute in Hin.
  repeat (destruct Hin as [<- | Hin]; [vm_compute; tauto |]).
  destruct Hin.
Qed.

(** X6 on the sample project. *)
Lemma find_bugs_per_file_witness :
  (forall file, In file (files_to_check sample_mcp None) ->
     ~ parser_raises (sample_parse (_read_file sample_fs file)))
  /\ find_bugs sample_parse sample_fs sample_mcp None
     = inr (flat_map (file_findings sample_parse sample_fs sample_mcp)
                     (files_to_check sample_mcp None)).
Proof.
  split; [exact (sample_parser_raises_nothing None) |].
  exact (find_bugs_per_file sample_parse sample_fs sample_mcp None
           (sample_parser_raises_nothing None)).
Defined.

(** X7 on the project whose second file holds a null character. *)
Lemma find_bugs_raises_only_parser_errors_witness :
  find_bugs more_parse more_fs nul_mcp None = inl nul_error
  /\ exists file,
       In file (files_to_check nul_mcp None)
       /\ _read_file more_fs file <> ""
       /\ more_parse (_read_file more_fs file) = ParseRaises nul_error.
Proof.
  split; [vm_compute; reflexivity |].
  exact (find_bugs_raises_only_parser_errors more_parse more_fs nul_mcp
           None nul_error eq_refl).
Defined.

(** X8 on the finding of [except.py]. *)
Lemma finding_invariants_witness :
  find_bugs sample_parse sample_fs sample_mcp (Some "/p/except.py")
  = inr [mk_finding "except.py" (Some 3%Z) "Bare except clause"
                    "Use specific exceptions"]
  /\ exists file entry,
       In file (files_to_check sample_mcp (Some "/p/except.py"))
       /\ getitem sample_mcp file = inr entry
       /\ "except.py" = rel_path entry
       /\ (("Bare except clause" = "Syntax Error"
            /\ sample_parse (_read_file sample_fs file)
               = ParseSyntaxError (Some 3%Z) "Use specific exceptions")
           \/ (exists pattern line,
                 In (pattern, "Bare except clause", "Use specific exceptions")
                    patterns
                 /\ Some 3%Z = Some line
                 /\ (1 <= line
                     <= Z.of_nat (count Re.newline
                                        (_read_file sample_fs file)) + 1)%Z)).
Proof.
  split; [vm_compute; reflexivity |].
  exact (finding_invariants sample_parse sample_fs sample_mcp
           (Some "/p/except.py")
           [mk_finding "except.py" (Some 3%Z) "Bare except clause"
                       "Use specific exceptions"]
           (mk_finding "except.py" (Some 3%Z) "Bare except clause"
                       "Use specific exceptions")
           eq_refl (or_introl eq_refl)).
Defined.

Lemma sample_keys_nonempty : ~ In "" (keys sample_mcp).
Proof. simpl. intuition discriminate. Qed.

(** X9 on the sample project. *)
Lemma find_bugs_whole_project_is_concat_witness :
  ~ In "" (keys sample_mcp)
  /\ (forall file, In file (files_to_check sample_mcp None) ->
        ~ parser_raises (sample_parse (_read_file sample_fs file)))
  /\ find_bugs sample_parse sample_fs sample_mcp None
     = inr (flat_map
              (fun file =>
                 findings_or_none
                   (find_bugs sample_parse sample_fs sample_mcp (Some file)))
              (files_to_check sample_mcp None)).
Proof.
  split; [exact sample_keys_nonempty |].
  split; [exact (sample_parser_raises_nothing None) |].
  exact (find_bugs_whole_project_is_concat sample_parse sample_fs sample_mcp
           sample_keys_nonempty (sample_parser_raises_nothing None)).
Defined.

(** X10 on [except.py]. *)
Lemma literal_rules_report_exactly_occurrences_witness :
  sample_fs "/p/except.py" = Some except_text
  /\ sample_parse except_text = ParseOk except_tree
  /\ getitem sample_mcp "/p/except.py"
     = inr (mk_file_entry "/p/except.py" "except.py" "py" 31)
  /\ exists found,
       check_file sample_parse sample_fs sample_mcp "/p/except.py" []
       = inr found
       /\ In (mk_finding "except.py" (Some 3%Z) "Bare except clause"
                         "Use specific exceptions") found.
Proof.
  split; [reflexivity |]. split; [reflexivity |]. split; [reflexivity |].
  destruct (literal_rules_report_exactly_occurrences
              sample_parse sample_fs sample_mcp "/p/except.py" except_text
              except_tree
              (mk_file_entry "/p/except.py" "except.py" "py" 31)
              eq_refl eq_refl eq_refl)
    as (found & Hfound & Hbare & _).
  exists found. split; [exact Hfound |]. apply Hbare.
  exists ("try:" ++ nl ++ "    pass" ++ nl)%string,
         (nl ++ "    pass" ++ nl)%string.
  split; reflexivity.
Defined.

Lemma sample_scan :
  scan_project walk relpath splitext getsize fresh None
  = inr (scanned, scanned_structure).
Proof. vm_compute. reflexivity. Qed.

Lemma default_types_in_fragment (pattern : string) :
  In pattern (types_of None) -> Fnmatch.in_fragment pattern = true.
Proof.
  simpl. intros H.
  repeat (destruct H as [<- | H]; [reflexivity |]). destruct H.
Qed.

(** X11 on the sample directory, with the default patterns. *)
Lemma scan_index_entries_witness :
  (forall pattern, In pattern (types_of None) ->
     Fnmatch.in_fragment pattern = true)
  /\ scan_project walk relpath splitext getsize fresh None
  = inr (scanned, scanned_structure)
  /\ project_path scanned = project_path fresh
  /\ NoDup (keys scanned).
Proof.
  split; [exact default_types_in_fragment |].
  split; [exact sample_scan |].
  destruct (scan_index_entries walk relpath splitext getsize fresh scanned
              None scanned_structure default_types_in_fragment
              sample_scan)
    as (Hpp & Hnd & _).
  split; [exact Hpp | exact Hnd].
Defined.

(** X12 on the file [c.py] of the subdirectory. *)
Lemma scan_indexes_every_match_witness :
  (forall pattern, In pattern (types_of None) ->
     Fnmatch.in_fragment pattern = true)
  /\ scan_project walk relpath splitext getsize fresh None
  = inr (scanned, scanned_structure)
  /\ In ("/p/sub", [], ["c.py"; "d.json"]) (walk (project_path fresh))
  /\ In "c.py" ["c.py"; "d.json"]
  /\ matches_some (types_of None) "c.py" = true
  /\ exists entry,
       getitem scanned (path_join "/p/sub" "c.py") = inr entry
       /\ fe_path entry = path_join "/p/sub" "c.py"
       /\ getsize (path_join "/p/sub" "c.py") = inr (fe_size entry).
Proof.
  split; [exact default_types_in_fragment |].
  split; [exact sample_scan |].
  split; [right; left; reflexivity |].
  split; [left; reflexivity |]. split; [reflexivity |].
  exact (scan_indexes_every_match walk relpath splitext getsize
           fresh scanned None scanned_structure "/p/sub" "c.py"
           [] ["c.py"; "d.json"] default_types_in_fragment sample_scan
           (or_intror (or_introl eq_refl)) (or_introl eq_refl) eq_refl).
Defined.

(** X13 on the sample directory. *)
Lemma scan_structure_lists_every_match_once_witness :
  (forall pattern, In pattern (types_of None) ->
     Fnmatch.in_fragment pattern = true)
  /\ scan_project walk relpath splitext getsize fresh None
  = inr (scanned, scanned_structure)
  /\ count_files scanned_structure
     = length (files_to_index (types_of None) (walk (project_path fresh)))
  /\ length (files scanned) <= count_files scanned_structure.
Proof.
  split; [exact default_types_in_fragment |].
  split; [exact sample_scan |].
  exact (scan_structure_lists_every_match_once walk relpath splitext getsize
           fresh scanned None scanned_structure
           default_types_in_fragment sample_scan).
Defined.

(** X14 on the sample directory when [c.py] has gone. *)
Lemma scan_raises_iff_getsize_raises_witness :
  (forall pattern, In pattern (types_of None) ->
     Fnmatch.in_fragment pattern = true)
  /\ ((exists e,
         scan_project walk relpath splitext getsize_gone fresh None = inl e)
      <-> (exists root file e,
             In (root, file)
                (files_to_index (types_of None) (walk (project_path fresh)))
             /\ getsize_gone (path_join root file) = inl e)).
Proof.
  split; [exact default_types_in_fragment |].
  exact (scan_raises_iff_getsize_raises walk relpath splitext getsize_gone
           fresh None default_types_in_fragment).
Defined.


Lemma sample_names_nonempty (root : string) (dirs names : list string)
      (file : string) :
  In (root, dirs, names) (walk (project_path fresh)) ->
  In file names -> file <> "".
Proof.
  intros Hw Hf. vm_compute in Hw.
  destruct Hw as [[= <- <- <-] | [[= <- <- <-] | []]]; simpl in Hf;
    repeat (destruct Hf as [<- | Hf]; [discriminate |]); destruct Hf.
Qed.

(** X16 on the sample directory. *)
Lemma scan_then_find_bugs_checks_once_witness :
  (forall pattern, In pattern (types_of None) ->
     Fnmatch.in_fragment pattern = true)
  /\ (forall root dirs names file,
     In (root, dirs, names) (walk (project_path fresh)) ->
     In file names -> file <> "")
  /\ scan_project walk relpath splitext getsize fresh None
     = inr (scanned, scanned_structure)
  /\ ~ In "" (keys scanned)
  /\ NoDup (files_to_check scanned None).
Proof.
  split; [exact default_types_in_fragment |].
  split; [exact sample_names_nonempty |]. split; [exact sample_scan |].
  exact (scan_then_find_bugs_checks_once walk relpath splitext getsize
           fresh scanned None scanned_structure None
           default_types_in_fragment sample_names_nonempty sample_scan).
Defined.

(** X17 on [print.py]. *)
Lemma print_rule_flags_every_print_line_witness :
  sample_fs "/p/print.py" = Some print_text
  /\ sample_parse print_text = ParseOk print_tree
  /\ getitem sample_mcp "/p/print.py"
     = inr (mk_file_entry "/p/print.py" "print.py" "py" 40)
  /\ count Re.newline "1" = 0
  /\ exists found,
       check_file sample_parse sample_fs sample_mcp "/p/print.py" []
       = inr found
       /\ In (mk_finding "print.py" (Some 1%Z) "Debug print statement"
                         "Remove debug prints") found.
Proof.
  split; [reflexivity |]. split; [reflexivity |]. split; [reflexivity |].
  split; [reflexivity |].
  exact (print_rule_flags_every_print_line
           sample_parse sample_fs sample_mcp "/p/print.py" print_text
           print_tree (mk_file_entry "/p/print.py" "print.py" "py" 40)
           "" "1"
           (nl ++ "try:" ++ nl ++ "    pass" ++ nl ++ "except:" ++ nl
               ++ "    pass" ++ nl)%string
           eq_refl eq_refl eq_refl eq_refl eq_refl).
Defined.

End OnMoreSamples.
